(** * Verification of the emf-ui test-rewriting scripts

    The scripts under [emf-ui/app] read a test file, rewrite its text with
    [re.sub], [str.replace] or a line scanner, and write it back.  This
    development embeds the text transformations and the per-file control
    flow and proves the properties stated for them.

    Text is a list of Unicode code points, as a Python [str] is. *)

From Stdlib Require Import String Ascii.
From Stdlib Require Import NArith ZArith Arith Bool Lia List.
Import ListNotations.
Open Scope list_scope.
Open Scope N_scope.
Open Scope nat_scope.

(** ** Text *)

Definition char := N.
Definition str := list char.

Definition lit (s : string) : str :=
  List.map N_of_ascii (list_ascii_of_string s).

Fixpoint str_eqb (a b : str) : bool :=
  match a, b with
  | [], [] => true
  | x :: a', y :: b' => N.eqb x y && str_eqb a' b'
  | _, _ => false
  end.

(** [s.startswith(p)] *)
Fixpoint prefixb (p s : str) : bool :=
  match p, s with
  | [], _ => true
  | x :: p', y :: s' => N.eqb x y && prefixb p' s'
  | _ :: _, [] => false
  end.

(** [p in s] *)
Fixpoint contains (p s : str) : bool :=
  prefixb p s ||
  match s with
  | [] => false
  | _ :: r => contains p r
  end.

(** The longest run of characters satisfying [f] at the head of [s]. *)
Fixpoint take_while (f : char -> bool) (s : str) : str :=
  match s with
  | [] => []
  | c :: r => if f c then c :: take_while f r else []
  end.

Fixpoint drop_while (f : char -> bool) (s : str) : str :=
  match s with
  | [] => []
  | c :: r => if f c then drop_while f r else s
  end.

(** The two strings agree as far as both go. *)
Fixpoint compat (a b : str) : bool :=
  match a, b with
  | x :: a', y :: b' => N.eqb x y && compat a' b'
  | _, _ => true
  end.

(** Character classes of Python's [re] on [str] patterns. *)
Definition in_range (lo hi c : N) : bool := N.leb lo c && N.leb c hi.

(** [\s]: the characters for which [str.isspace] holds. *)
Definition is_space (c : char) : bool :=
  (in_range 9 13 c || in_range 28 32 c || N.eqb c 133 || N.eqb c 160
   || N.eqb c 5760 || in_range 8192 8202 c || in_range 8232 8233 c
   || N.eqb c 8239 || N.eqb c 8287 || N.eqb c 12288)%N.

(** [[a-zA-Z_]] *)
Definition is_ident_start (c : char) : bool :=
  (in_range 97 122 c || in_range 65 90 c || N.eqb c 95)%N.

(** [[a-zA-Z0-9_]] *)
Definition is_ident (c : char) : bool :=
  is_ident_start c || (in_range 48 57 c)%N.

(** ** [re.sub]

    A pattern together with its replacement function is a [matcher]: applied
    to the text that starts at the current scan position it returns the
    length of the match there and the text that replaces it, or [None] when
    the pattern does not match at that position.  [re.sub] scans from the
    left; at a match it emits the replacement and resumes after the match,
    otherwise it emits the character and moves one position on.  None of the
    patterns of the scripts matches the empty string. *)

Definition matcher := str -> option (nat * str).

Fixpoint sub_from (m : matcher) (fuel : nat) (s : str) : str :=
  match fuel with
  | O => s
  | S f =>
      match s with
      | [] => []
      | c :: r =>
          match m s with
          | Some (n, rep) => rep ++ sub_from m f (skipn n s)
          | None => c :: sub_from m f r
          end
      end
  end.

Definition re_sub (m : matcher) (s : str) : str :=
  sub_from m (length s) s.

(** A literal pattern with a constant replacement. *)
Definition literal (old new : str) : matcher :=
  fun s => if prefixb old s then Some (length old, new) else None.

(** [s.replace(old, new)] for a non-empty [old]. *)
Definition replace (old new s : str) : str :=
  re_sub (literal old new) s.

(** [s.split('\n')] and ['\n'.join(ls)] *)
Definition NL : char := 10%N.

Fixpoint split_lines_aux (cur : str) (s : str) : list str :=
  match s with
  | [] => [rev cur]
  | c :: r =>
      if N.eqb c NL then rev cur :: split_lines_aux [] r
      else split_lines_aux (c :: cur) r
  end.

Definition split_lines (s : str) : list str := split_lines_aux [] s.

Fixpoint join_lines (ls : list str) : str :=
  match ls with
  | [] => []
  | [l] => l
  | l :: rest => l ++ NL :: join_lines rest
  end.

(** [s.count(c)] for a one-character [c]. *)
Definition count_char (c : char) (s : str) : nat :=
  length (filter (N.eqb c) s).

(** [s.lstrip()] *)
Definition lstrip (s : str) : str := drop_while is_space s.

(** ** Files, console and exceptions

    A script runs against the file system and the console.  A file has its
    decoded text and says whether it can be opened for reading and for
    writing; a path that is bound to nothing does not exist.  An exception
    that nothing catches ends the process with a non-zero status. *)

Inductive exn := FileNotFoundError | PermissionError | RuntimeError.

Inductive result (A : Type) : Type :=
| Ok (a : A)
| Raise (e : exn).
Arguments Ok {A} a.
Arguments Raise {A} e.

(** [content] is the text as [read] returns it. *)
Record file := mkFile { content : str; readable : bool; writable : bool }.

Definition fs := string -> option file.

(** The lines the scripts print. *)
Inductive report :=
| Banner
| NotFound (filepath : string)
| Already (filepath : string)
| NoMockFetchFound (filepath : string)
| NoSetupAuthMocksImport (filepath : string)
| NoDeclaration (filepath : string)
| Updated (filepath : string)
| NoChanges (filepath : string)
| ErrorFixing (filepath : string) (e : exn)
| Traceback (e : exn)
| Summary (count : nat)
| Finished.

Record world := mkWorld { files : fs; console : list report }.

Definition M (A : Type) : Type := world -> world * result A.

Definition ret {A} (a : A) : M A := fun w => (w, Ok a).

Definition bind {A B} (c : M A) (k : A -> M B) : M B :=
  fun w =>
    match c w with
    | (w', Ok a) => k a w'
    | (w', Raise e) => (w', Raise e)
    end.

Notation "x <- c ;; k" := (bind c (fun x => k))
  (at level 61, c at next level, right associativity).
Notation "c ;; k" := (bind c (fun _ => k))
  (at level 61, right associativity).

Definition raise {A} (e : exn) : M A := fun w => (w, Raise e).

Definition lift {A} (r : result A) : M A := fun w => (w, r).

(** [try: c except Exception as e: h e] *)
Definition try_except {A} (c : M A) (h : exn -> M A) : M A :=
  fun w =>
    match c w with
    | (w', Ok a) => (w', Ok a)
    | (w', Raise e) => h e w'
    end.

Definition print (r : report) : M unit :=
  fun w => (mkWorld (files w) (console w ++ [r]), Ok tt).

(** [os.path.exists(filepath)] *)
Definition path_exists (filepath : string) : M bool :=
  fun w => (w, Ok (match files w filepath with Some _ => true | None => false end)).

(** [with open(filepath, 'r') as f: f.read()] *)
Definition read_file (filepath : string) : M str :=
  fun w =>
    match files w filepath with
    | None => (w, Raise FileNotFoundError)
    | Some f => if readable f then (w, Ok (content f))
                else (w, Raise PermissionError)
    end.

Definition store (filepath : string) (f : file) (d : fs) : fs :=
  fun q => if String.eqb q filepath then Some f else d q.

(** [with open(filepath, 'w') as f: f.write(text)] *)
Definition write_file (filepath : string) (text : str) : M unit :=
  fun w =>
    match files w filepath with
    | None =>
        (mkWorld (store filepath (mkFile text true true) (files w)) (console w),
         Ok tt)
    | Some f =>
        if writable f
        then (mkWorld (store filepath (mkFile text (readable f) true) (files w))
                      (console w), Ok tt)
        else (w, Raise PermissionError)
    end.

(** The loop [for test_file in test_files: if f(test_file): count += 1]. *)
Fixpoint for_each (f : string -> M bool) (paths : list string) (count : nat)
  : M nat :=
  match paths with
  | [] => ret count
  | p :: rest =>
      b <- f p ;;
      for_each f rest (if b then S count else count)
  end.

(** The status the process ends with. *)
Definition exit_status {A} (r : world * result A) : nat :=
  match snd r with
  | Ok _ => 0
  | Raise _ => 1
  end.

(** ** fix_mock_responses.py *)

Module MockResponses.

(** The text matched at the start of [s] by the literal [head], an
    identifier (one character of [[a-zA-Z_]], then any number of
    [[a-zA-Z0-9_]]) and two closing parentheses, as the captured
    identifier.  The identifier class excludes the parenthesis, so the
    greedy run is the only candidate. *)
Definition match_call (head s : str) : option str :=
  if prefixb head s then
    let r := skipn (length head) s in
    let name := take_while is_ident r in
    match name with
    | [] => None
    | c :: _ =>
        if is_ident_start c && prefixb (lit "))") (skipn (length name) r)
        then Some name else None
    end
  else None.

Definition paginated (array_name : str) : str :=
  lit "{ content: " ++ array_name ++ lit ", totalElements: " ++ array_name
  ++ lit ".length, totalPages: 1, size: 1000, number: 0 }".

(** [array_name in ['null', 'undefined'] or array_name.startswith('{')] *)
Definition skipped (array_name : str) : bool :=
  str_eqb array_name (lit "null") || str_eqb array_name (lit "undefined")
  || prefixb (lit "{") array_name.

Definition head1 : str := lit "mockFetch.mockResolvedValue(createMockResponse(".
Definition head2 : str := lit "Promise.resolve(createMockResponse(".

(** The replacement callback shared in shape by [replace_simple] and
    [replace_promise]: [group0] is [match.group(0)]. *)
Definition replace_call (head group0 array_name : str) : str :=
  if skipped array_name then group0
  else head ++ paginated array_name ++ lit "))".

Definition call_matcher (head : str) : matcher :=
  fun s =>
    match match_call head s with
    | Some name =>
        let n := length head + length name + 2 in
        Some (n, replace_call head (firstn n s) name)
    | None => None
    end.

(** [pattern1] with [replace_simple] *)
Definition pattern1 : matcher := call_matcher head1.

(** [pattern2] with [replace_promise] *)
Definition pattern2 : matcher := call_matcher head2.

Definition wrap_array_in_paginated_response (content : str) : str :=
  let content := re_sub pattern1 content in
  let content := re_sub pattern2 content in
  content.

Definition test_files : list string :=
  ["emf-ui/app/src/pages/DashboardPage/DashboardPage.test.tsx";
   "emf-ui/app/src/pages/MenuBuilderPage/MenuBuilderPage.test.tsx";
   "emf-ui/app/src/pages/OIDCProvidersPage/OIDCProvidersPage.test.tsx";
   "emf-ui/app/src/pages/PageBuilderPage/PageBuilderPage.test.tsx";
   "emf-ui/app/src/pages/PoliciesPage/PoliciesPage.test.tsx";
   "emf-ui/app/src/pages/ResourceBrowserPage/ResourceBrowserPage.test.tsx";
   "emf-ui/app/src/pages/ResourceListPage/ResourceListPage.test.tsx";
   "emf-ui/app/src/pages/RolesPage/RolesPage.test.tsx"]%string.

(** [update_test_file] with the in-memory step as a parameter that may
    raise; the script runs it with [wrap_array_in_paginated_response]. *)
Definition update_test_file_with (step : str -> result str)
           (filepath : string) : M bool :=
  ex <- path_exists filepath ;;
  if negb ex then print (NotFound filepath) ;; ret false
  else
    original_content <- read_file filepath ;;
    content <- lift (step original_content) ;;
    if negb (str_eqb content original_content)
    then write_file filepath content ;; print (Updated filepath) ;; ret true
    else print (NoChanges filepath) ;; ret false.

Definition update_test_file : string -> M bool :=
  update_test_file_with (fun c => Ok (wrap_array_in_paginated_response c)).

Definition main_on (paths : list string) : M unit :=
  print Banner ;;
  updated_count <- for_each update_test_file paths 0 ;;
  print (Summary updated_count).

Definition main : M unit := main_on test_files.

End MockResponses.

(** ** fix_fetch_mocks.py: the text rewrite of [update_test_file] *)

Module FetchMocks.

Definition wrapFetchMock : str := lit "wrapFetchMock".
Definition mockFetch : str := lit "mockFetch".
Definition setupAuthMocks : str := lit "setupAuthMocks".

Definition not_brace (c : char) : bool := negb (N.eqb c 125).

(** [(import\s+{[^}]*setupAuthMocks[^}]*})] at the start of [s]: the length
    of the match.  The body runs to the first [}] and must contain
    [setupAuthMocks]. *)
Definition match_import (s : str) : option nat :=
  if prefixb (lit "import") s then
    let r := skipn 6 s in
    let ws := take_while is_space r in
    let r1 := skipn (length ws) r in
    match ws, r1 with
    | _ :: _, c :: r2 =>
        if N.eqb c 123 then
          let body := take_while not_brace r2 in
          match skipn (length body) r2 with
          | _ :: _ =>
              if contains setupAuthMocks body
              then Some (6 + length ws + 1 + length body + 1)
              else None
          | [] => None
          end
        else None
    | _, _ => None
    end
  else None.

Definition add_wrap_to_import (import_line : str) : str :=
  if negb (contains wrapFetchMock import_line)
  then replace setupAuthMocks (lit "setupAuthMocks, wrapFetchMock") import_line
  else import_line.

Definition import_pattern : matcher :=
  fun s =>
    match match_import s with
    | Some n => Some (n, add_wrap_to_import (firstn n s))
    | None => None
    end.

Definition reset_call : str := lit "mockFetch.mockReset();".
(** [(?!\s*wrapFetchMock)] fails exactly when, after the whitespace run, the
    text continues with [wrapFetchMock] ([w] is no whitespace, so giving
    whitespace back never helps). *)
Definition followed_by_wrap (s : str) : bool :=
  prefixb wrapFetchMock (drop_while is_space s).

Definition add_wrap_after_reset (reset_line : str) : str :=
  reset_line ++ NL :: lit "    wrapFetchMock(mockFetch);".

(** [mockFetch\.mockReset\(\);(?!\s*wrapFetchMock)] with
    [add_wrap_after_reset] *)
Definition pattern : matcher :=
  fun s =>
    if prefixb reset_call s
       && negb (followed_by_wrap (skipn (length reset_call) s))
    then Some (length reset_call,
               add_wrap_after_reset (firstn (length reset_call) s))
    else None.

(** What [update_test_file] does to the text it has read: the reason when
    one of the three checks returns early, otherwise the rewritten
    content. *)
Inductive skip_reason := AlreadyUpdated | NoMockFetch | NoSetupAuthMocks.

Definition rewrite (content : str) : skip_reason + str :=
  if contains wrapFetchMock content then inl AlreadyUpdated
  else if negb (contains mockFetch content) then inl NoMockFetch
  else if negb (contains setupAuthMocks content) then inl NoSetupAuthMocks
  else
    let content := re_sub import_pattern content in
    let content := re_sub pattern content in
    inr content.

(** The content the file holds after [update_test_file]: it is written only
    when the rewrite ran and changed something. *)
Definition transform (content : str) : str :=
  match rewrite content with
  | inl _ => content
  | inr c => c
  end.

Definition test_files : list string :=
  ["emf-ui/app/src/pages/CollectionsPage/CollectionsPage.test.tsx";
   "emf-ui/app/src/pages/DashboardPage/DashboardPage.test.tsx";
   "emf-ui/app/src/pages/MenuBuilderPage/MenuBuilderPage.test.tsx";
   "emf-ui/app/src/pages/MigrationsPage/MigrationsPage.test.tsx";
   "emf-ui/app/src/pages/OIDCProvidersPage/OIDCProvidersPage.test.tsx";
   "emf-ui/app/src/pages/PackagesPage/PackagesPage.test.tsx";
   "emf-ui/app/src/pages/PageBuilderPage/PageBuilderPage.test.tsx";
   "emf-ui/app/src/pages/PluginsPage/PluginsPage.test.tsx";
   "emf-ui/app/src/pages/PoliciesPage/PoliciesPage.test.tsx";
   "emf-ui/app/src/pages/ResourceBrowserPage/ResourceBrowserPage.test.tsx";
   "emf-ui/app/src/pages/ResourceDetailPage/ResourceDetailPage.test.tsx";
   "emf-ui/app/src/pages/ResourceFormPage/ResourceFormPage.test.tsx";
   "emf-ui/app/src/pages/ResourceListPage/ResourceListPage.test.tsx";
   "emf-ui/app/src/pages/RolesPage/RolesPage.test.tsx";
   "emf-ui/app/src/components/CollectionForm/CollectionForm.test.tsx"]%string.

(** [update_test_file] with the in-memory step (the three checks and the two
    substitutions) as a parameter that may raise; the script runs it with
    [rewrite]. *)
Definition update_test_file_with (step : str -> result (skip_reason + str))
           (filepath : string) : M bool :=
  ex <- path_exists filepath ;;
  if negb ex then print (NotFound filepath) ;; ret false
  else
    original_content <- read_file filepath ;;
    r <- lift (step original_content) ;;
    match r with
    | inl AlreadyUpdated => print (Already filepath) ;; ret false
    | inl NoMockFetch => print (NoMockFetchFound filepath) ;; ret false
    | inl NoSetupAuthMocks =>
        print (NoSetupAuthMocksImport filepath) ;; ret false
    | inr content =>
        if negb (str_eqb content original_content)
        then write_file filepath content ;; print (Updated filepath) ;;
             ret true
        else print (NoChanges filepath) ;; ret false
    end.

Definition update_test_file : string -> M bool :=
  update_test_file_with (fun c => Ok (rewrite c)).

Definition main_on (paths : list string) : M unit :=
  print Banner ;;
  updated_count <- for_each update_test_file paths 0 ;;
  print (Summary updated_count).

Definition main : M unit := main_on test_files.

End FetchMocks.

(** ** Vocabulary for the scan *)

(** No pattern of the scripts matches the empty string. *)
Definition positive (m : matcher) : Prop :=
  forall s n rep, m s = Some (n, rep) -> 1 <= n.

(** A match stays inside the text it is tried on. *)
Definition bounded (m : matcher) : Prop :=
  forall s n rep, m s = Some (n, rep) -> n <= length s.

(** At [t] the matcher either does not match or replaces the match by
    itself. *)
Definition inert (m : matcher) (t : str) : Prop :=
  forall n rep, m t = Some (n, rep) -> rep = firstn n t.

(** Every position of [s] is inert for [m]. *)
Definition clean (m : matcher) (s : str) : Prop :=
  forall a t, s = a ++ t -> inert m t.

(** The trigger of [m] occurs nowhere in [s]. *)
Definition absent (m : matcher) (s : str) : Prop :=
  forall a t, s = a ++ t -> m t = None.

(** Wherever [m] does not match in [s], [m'] is inert. *)
Definition ready (m m' : matcher) (s : str) : Prop :=
  forall a t, s = a ++ t -> m t = None -> inert m' t.

(** ** Side conditions on pattern heads, decided by evaluation *)

(** Some proper, non-empty suffix of [p] agrees with [q] as far as both
    go. *)
Definition overlaps (p q : str) : bool :=
  existsb (fun k => compat (skipn k p) q) (seq 1 (length p - 1)).

(** [p] agrees with the suffix of [c] at some position from [from] on. *)
Definition starts_in (from : nat) (p c : str) : bool :=
  existsb (fun k => compat p (skipn k c)) (seq from (length c - from)).

(** After a non-empty run of its own identifier characters, [p] continues
    in agreement with [b]. *)
Definition continues (p b : str) : bool :=
  existsb (fun k => compat (skipn k p) b)
          (seq 1 (length (take_while is_ident p))).

(** An identifier: [[a-zA-Z_][a-zA-Z0-9_]*]. *)
Definition is_name (name : str) : bool :=
  match name with
  | [] => false
  | c :: _ => is_ident_start c
  end && forallb is_ident name.

(** A replacement text as fixed pieces around copies of the captured
    name. *)
Inductive seg := Fix (c : str) | Name.

Fixpoint text (name : str) (segs : list seg) : str :=
  match segs with
  | [] => []
  | Fix c :: rest => c ++ text name rest
  | Name :: rest => name ++ text name rest
  end.

(** The head [p] can start nowhere inside a text of this shape. *)
Fixpoint free_of (p : str) (segs : list seg) : bool :=
  match segs with
  | [] => true
  | Fix c :: rest => negb (starts_in 0 p c) && free_of p rest
  | Name :: rest =>
      match rest with
      | Fix ((_ :: _) as c) :: _ => negb (continues p c)
      | _ => false
      end && free_of p rest
  end.

Definition shape_paginated : list seg :=
  [Fix (lit "{ content: "); Name; Fix (lit ", totalElements: "); Name;
   Fix (lit ".length, totalPages: 1, size: 1000, number: 0 }))")].

Definition shape_skipped : list seg := [Name; Fix (lit "))")].

(** What a scan for head [p] needs of the replacements made for head [q]. *)
Definition separated (p q : str) : bool :=
  (str_eqb p q || negb (compat p q))
  && negb (overlaps p q)
  && negb (forallb is_ident q)
  && negb (compat (lit "))") (skipn (length (take_while is_ident q)) q))
  && negb (compat (lit ")") q)
  && negb (starts_in 1 p q)
  && negb (forallb is_ident p)
  && free_of p shape_paginated
  && free_of p shape_skipped.

(** ** fix_setup_auth_mocks.py *)

Module SetupAuthMocks.

Definition before_each : str := lit "beforeEach(() => {".
Definition setup_call : str := lit "cleanupAuthMocks = setupAuthMocks();".

(** In a whitespace run, the last newline and what follows it: the text
    the second group (a newline, then whitespace) captures after the greedy
    whitespace in front of it. *)
Fixpoint last_newline (ws : str) : option str :=
  match ws with
  | [] => None
  | c :: r =>
      match last_newline r with
      | Some g => Some g
      | None => if N.eqb c NL then Some (c :: r) else None
      end
  end.

(** The first alternative that the text starts with. *)
Fixpoint alternatives (alts : list str) (s : str) : option nat :=
  match alts with
  | [] => None
  | a :: rest => if prefixb a s then Some (length a) else alternatives rest s
  end.

(** [vi.clearAllMocks();], whitespace with a newline in it, then
    [setupMswHandlers();]. *)
Definition clear_then_msw (s : str) : option nat :=
  if prefixb (lit "vi.clearAllMocks();") s then
    let r := skipn 19 s in
    let ws := take_while is_space r in
    match last_newline ws with
    | Some _ =>
        if prefixb (lit "setupMswHandlers();") (skipn (length ws) r)
        then Some (19 + length ws + 19) else None
    | None => None
    end
  else None.

(** Group 1 is the literal [beforeEach(() => {]; after any whitespace,
    group 2 is a newline and the whitespace behind it; group 3 is [third].
    The replacement is [\1\2cleanupAuthMocks = setupAuthMocks();\2\3].  The
    whitespace in front of the last newline belongs to no group and is not
    copied. *)
Definition before_each_matcher (third : str -> option nat) : matcher :=
  fun s =>
    if prefixb before_each s then
      let r := skipn (length before_each) s in
      let ws := take_while is_space r in
      let after := skipn (length ws) r in
      match last_newline ws, third after with
      | Some g2, Some k =>
          Some (length before_each + length ws + k,
                before_each ++ g2 ++ setup_call ++ g2 ++ firstn k after)
      | _, _ => None
      end
    else None.

Definition pattern1 : matcher :=
  before_each_matcher (alternatives [lit "mockFetch.mockReset();"]).

Definition pattern2 : matcher :=
  before_each_matcher
    (alternatives [lit "vi.clearAllMocks();"; lit "global.fetch = vi.fn();"]).

Definition pattern3 : matcher := before_each_matcher clear_then_msw.

(** The three substitutions of [fix_test_file], each after the first tried
    only while the content still equals the original. *)
Definition insert_setup (original_content : str) : str :=
  let content := re_sub pattern1 original_content in
  let content :=
    if str_eqb content original_content then re_sub pattern2 content
    else content in
  let content :=
    if str_eqb content original_content then re_sub pattern3 content
    else content in
  content.

Inductive skip_reason := AlreadyFixed | NoCleanupDeclaration.

Definition rewrite (content : str) : skip_reason + str :=
  if contains (lit "cleanupAuthMocks = setupAuthMocks()") content
  then inl AlreadyFixed
  else if negb (contains (lit "let cleanupAuthMocks") content)
  then inl NoCleanupDeclaration
  else inr (insert_setup content).

Definition test_files : list string :=
  ["emf-ui/app/src/pages/MenuBuilderPage/MenuBuilderPage.test.tsx";
   "emf-ui/app/src/pages/OIDCProvidersPage/OIDCProvidersPage.test.tsx";
   "emf-ui/app/src/pages/PackagesPage/PackagesPage.test.tsx";
   "emf-ui/app/src/pages/PoliciesPage/PoliciesPage.test.tsx";
   "emf-ui/app/src/pages/ResourceBrowserPage/ResourceBrowserPage.test.tsx";
   "emf-ui/app/src/pages/ResourceDetailPage/ResourceDetailPage.test.tsx";
   "emf-ui/app/src/pages/ResourceFormPage/ResourceFormPage.test.tsx";
   "emf-ui/app/src/pages/ResourceListPage/ResourceListPage.test.tsx";
   "emf-ui/app/src/pages/RolesPage/RolesPage.test.tsx"]%string.

(** [fix_test_file] with the in-memory step as a parameter that may raise;
    the script runs it with [rewrite]. *)
Definition fix_test_file_with (step : str -> result (skip_reason + str))
           (filepath : string) : M bool :=
  ex <- path_exists filepath ;;
  if negb ex then print (NotFound filepath) ;; ret false
  else
    original_content <- read_file filepath ;;
    r <- lift (step original_content) ;;
    match r with
    | inl AlreadyFixed => print (Already filepath) ;; ret false
    | inl NoCleanupDeclaration => print (NoDeclaration filepath) ;; ret false
    | inr content =>
        if negb (str_eqb content original_content)
        then write_file filepath content ;; print (Updated filepath) ;;
             ret true
        else print (NoChanges filepath) ;; ret false
    end.

Definition fix_test_file : string -> M bool :=
  fix_test_file_with (fun c => Ok (rewrite c)).

Definition main_on (paths : list string) : M unit :=
  print Banner ;;
  fixed_count <- for_each fix_test_file paths 0 ;;
  print (Summary fixed_count).

Definition main : M unit := main_on test_files.

End SetupAuthMocks.

(** ** fix_resource_form_tests.py *)

Module ResourceFormTests.

Definition target : string :=
  "src/pages/ResourceFormPage/ResourceFormPage.test.tsx"%string.

Definition spaces (n : nat) : str := repeat 32%N n.

(** The outer [while i < len(lines)] loop as [outer] and the inner one, which
    looks for the end of the [mockImplementation] block, as [inner]; both
    run on the lines from index [i] on.  When [inner] reaches the end of the
    file the outer loop ends too, with [block_lines] never added to
    [fixed_lines]. *)
Fixpoint outer (lines : list str) : list str :=
  match lines with
  | [] => []
  | line :: rest =>
      if contains (lit "global.fetch = vi.fn().mockImplementation") line then
        match rest with
        | next :: rest' =>
            if contains (lit "wrapFetchMock(vi);") next then
              let fixed_line :=
                replace (lit "global.fetch = vi.fn()")
                        (lit "const mockFetch = vi.fn()") line in
              fixed_line ::
              (fix inner (lines : list str) (brace_count : Z)
                         (found_opening : bool) (block_lines : list str)
                         {struct lines} : list str :=
                 match lines with
                 | [] => []
                 | current :: rest'' =>
                     let block_lines := block_lines ++ [current] in
                     let opens := contains (lit "{") current in
                     let brace_count :=
                       if opens
                       then (brace_count + Z.of_nat (count_char 123%N current))%Z
                       else brace_count in
                     let found_opening := opens || found_opening in
                     let brace_count :=
                       if contains (lit "}") current
                       then (brace_count - Z.of_nat (count_char 125%N current))%Z
                       else brace_count in
                     if found_opening && Z.eqb brace_count 0
                        && contains (lit "as typeof global.fetch") current
                     then
                       let indent := length current - length (lstrip current) in
                       block_lines
                         ++ [spaces indent ++ lit "wrapFetchMock(mockFetch);";
                             []]
                         ++ outer rest''
                     else inner rest'' brace_count found_opening block_lines
                 end) rest' 0%Z false []
            else line :: outer rest
        | [] => line :: outer rest
        end
      else line :: outer rest
  end.

Definition fix_content (content : str) : str :=
  join_lines (outer (split_lines content)).

(** The whole script, with the in-memory step as a parameter that may
    raise; the script runs it with [fix_content]. *)
Definition script_with (step : str -> result str) : M unit :=
  content <- read_file target ;;
  fixed <- lift (step content) ;;
  write_file target fixed ;;
  print Finished.

Definition script : M unit := script_with (fun c => Ok (fix_content c)).

End ResourceFormTests.

(** ** fix_tests.py *)

Module FixTests.

Record state := mkState {
  in_create_wrapper : bool;
  brace_count : Z;
  added_import : bool;
  added_cleanup_var : bool;
  describe_depth : nat
}.

Definition initial : state := mkState false 0%Z false false 0.

Definition old_imports : list str :=
  [lit "BrowserRouter"; lit "QueryClient"; lit "QueryClientProvider";
   lit "I18nProvider"; lit "ToastProvider"].

(** ['cleanupAuthMocks' not in lines[i + 1]], false at the last line. *)
Definition next_lacks_cleanup (rest : list str) : bool :=
  match rest with
  | next :: _ => negb (contains (lit "cleanupAuthMocks") next)
  | [] => false
  end.

(** The body of [for i, line in enumerate(lines)]: [rest] holds the lines
    behind [line]; the result is what this and the later iterations append
    to [new_lines]. *)
Fixpoint loop (st : state) (lines : list str) : list str :=
  match lines with
  | [] => []
  | line :: rest =>
      if contains (lit "from 'vitest'") line && negb (added_import st) then
        line
        :: lit "import { createTestWrapper, setupAuthMocks } from '../../test/testUtils';"
        :: loop (mkState (in_create_wrapper st) (brace_count st) true
                         (added_cleanup_var st) (describe_depth st)) rest
      else if existsb (fun x => contains x line) old_imports
              && contains (lit "import") line then
        loop st rest
      else if contains (lit "function createWrapper()") line
              || contains (lit "function createTestWrapper()") line then
        loop (mkState true 0%Z (added_import st) (added_cleanup_var st)
                      (describe_depth st)) rest
      else if in_create_wrapper st then
        let bc := (brace_count st + Z.of_nat (count_char 123%N line)
                   - Z.of_nat (count_char 125%N line))%Z in
        loop (mkState (negb (Z.ltb bc 0)) bc (added_import st)
                      (added_cleanup_var st) (describe_depth st)) rest
      else
        let line := replace (lit "createWrapper()")
                            (lit "createTestWrapper()") line in
        let described := contains (lit "describe(") line in
        let depth :=
          if described then S (describe_depth st) else describe_depth st in
        if described && Nat.eqb depth 1 && negb (added_cleanup_var st) then
          line :: lit "  let cleanupAuthMocks: () => void;" :: []
          :: loop (mkState false (brace_count st) (added_import st) true depth)
                  rest
        else
          let st' := mkState false (brace_count st) (added_import st)
                             (added_cleanup_var st) depth in
          if contains (lit "  beforeEach(() => {") line && Nat.eqb depth 1 then
            line ::
            (if next_lacks_cleanup rest
             then lit "    cleanupAuthMocks = setupAuthMocks();" :: loop st' rest
             else loop st' rest)
          else if contains (lit "  afterEach(() => {") line && Nat.eqb depth 1
          then
            line ::
            (if next_lacks_cleanup rest
             then lit "    cleanupAuthMocks();" :: loop st' rest
             else loop st' rest)
          else line :: loop st' rest
  end.

Definition fix_content (content : str) : str :=
  join_lines (loop initial (split_lines content)).

(** [fix_test_file] with the in-memory step as a parameter that may raise;
    [None] stands for the early return of the check for
    [createTestWrapper]. *)
Definition fix_test_file_with (step : str -> result (option str))
           (filepath : string) : M unit :=
  content <- read_file filepath ;;
  r <- lift (step content) ;;
  match r with
  | None => print (Already filepath)
  | Some fixed => write_file filepath fixed ;; print (Updated filepath)
  end.

Definition rewrite (content : str) : option str :=
  if contains (lit "createTestWrapper") content then None
  else Some (fix_content content).

Definition fix_test_file : string -> M unit :=
  fix_test_file_with (fun c => Ok (rewrite c)).

Definition files_to_fix : list string :=
  ["src/pages/CollectionsPage/CollectionsPage.test.tsx";
   "src/pages/DashboardPage/DashboardPage.test.tsx";
   "src/pages/PluginsPage/PluginsPage.test.tsx";
   "src/pages/MigrationsPage/MigrationsPage.test.tsx"]%string.

(** [for filepath in files: try: fix(filepath) except Exception as e: ...] *)
Fixpoint batch_with (fix_one : string -> M unit) (paths : list string)
  : M unit :=
  match paths with
  | [] => ret tt
  | filepath :: rest =>
      try_except (fix_one filepath)
                 (fun e => print (ErrorFixing filepath e) ;;
                           print (Traceback e)) ;;
      batch_with fix_one rest
  end.

Definition batch : list string -> M unit := batch_with fix_test_file.

Definition script : M unit := batch files_to_fix.

End FixTests.

(** ** fix_resource_list_mocks.py *)

(** The first [k], counting down from the given one, at which [f] gives a
    result: the order in which a greedy repetition gives characters
    back. *)
Fixpoint search_down {A} (f : nat -> option A) (k : nat) : option A :=
  match f k with
  | Some x => Some x
  | None =>
      match k with
      | O => None
      | S k' => search_down f k'
      end
  end.

Module ResourceListMocks.

Definition target : string :=
  "src/pages/ResourceListPage/ResourceListPage.test.tsx"%string.

Definition before_each : str := lit "beforeEach(() => {".
Definition mock_impl : str := lit "mockFetch.mockImplementation(".
Definition const_mock : str := lit "const mockFetch = vi.fn(".
Definition wrap_line : str := lit "      wrapFetchMock(mockFetch);".

Definition not_semicolon (c : char) : bool := negb (N.eqb c 59).
Definition not_open (c : char) : bool := negb (N.eqb c 123).
Definition not_close (c : char) : bool := negb (N.eqb c 125).

(** A run of one or more characters other than [;], then [);], at the
    start of [s]: the length of the match.  The run cannot pass a [;], so
    it is the text up to the first one, which has to end with a closing
    parenthesis behind at least one other character. *)
Definition call_end (s : str) : option nat :=
  let run := take_while not_semicolon s in
  match skipn (length run) s, rev run with
  | _ :: _, c :: _ :: _ =>
      if N.eqb c 41 then Some (length run + 1) else None
  | _, _ => None
  end.

(** [pattern1] with [replacement1]: [beforeEach(() => {], whitespace and
    [mockFetch.mockImplementation(]. *)
Definition pattern1 : matcher :=
  fun s =>
    if prefixb before_each s then
      let r := skipn (length before_each) s in
      let ws := take_while is_space r in
      match ws with
      | [] => None
      | _ :: _ =>
          if prefixb mock_impl (skipn (length ws) r)
          then Some (length before_each + length ws + length mock_impl,
                     before_each ++ ws ++ const_mock)
          else None
      end
    else None.

(** [pattern2] with [replacement2]: the [const mockFetch = vi.fn(...);]
    statement, whitespace and [});]. *)
Definition pattern2 : matcher :=
  fun s =>
    if prefixb const_mock s then
      match call_end (skipn (length const_mock) s) with
      | Some k =>
          let g1 := length const_mock + k in
          let r := skipn g1 s in
          let ws := take_while is_space r in
          match ws with
          | [] => None
          | _ :: _ =>
              if prefixb (lit "});") (skipn (length ws) r)
              then Some (g1 + length ws + 3,
                         firstn g1 s ++ NL :: wrap_line
                           ++ NL :: lit "    " ++ lit "});")
              else None
          end
      | None => None
      end
    else None.

(** [pattern3] with [replacement3]: whitespace, [it(], a run without an
    opening brace, the brace, whitespace and
    [mockFetch.mockImplementation(]. *)
Definition pattern3 : matcher :=
  fun s =>
    let ws := take_while is_space s in
    let r1 := skipn (length ws) s in
    match ws with
    | [] => None
    | _ :: _ =>
        if prefixb (lit "it(") r1 then
          let r2 := skipn 3 r1 in
          let run := take_while not_open r2 in
          match run, skipn (length run) r2 with
          | _ :: _, _ :: r4 =>
              let ws2 := take_while is_space r4 in
              match ws2 with
              | [] => None
              | _ :: _ =>
                  if prefixb mock_impl (skipn (length ws2) r4)
                  then
                    let g1 := length ws + 3 + length run + 1 + length ws2 in
                    Some (g1 + length mock_impl, firstn g1 s ++ const_mock)
                  else None
              end
          | _, _ => None
          end
        else None
    end.

(** [pattern4] with [replacement4]: [it(], a run without an opening brace,
    the brace, a run without a closing brace that ends where
    [const mockFetch = vi.fn(...);] starts, then whitespace and
    [renderWithProviders].  The run is tried from its longest form down. *)
Definition pattern4 : matcher :=
  fun s =>
    if prefixb (lit "it(") s then
      let r2 := skipn 3 s in
      let run := take_while not_open r2 in
      match run, skipn (length run) r2 with
      | _ :: _, _ :: r4 =>
          search_down
            (fun k =>
               let t := skipn k r4 in
               if prefixb const_mock t then
                 match call_end (skipn (length const_mock) t) with
                 | Some j =>
                     let r := skipn (length const_mock + j) t in
                     let ws := take_while is_space r in
                     match ws with
                     | [] => None
                     | _ :: _ =>
                         if prefixb (lit "renderWithProviders")
                                    (skipn (length ws) r)
                         then
                           let g1 := 3 + length run + 1 + k
                                     + length const_mock + j in
                           Some (g1 + length ws + 19,
                                 firstn g1 s ++ NL :: wrap_line
                                   ++ ws ++ lit "renderWithProviders")
                         else None
                     end
                 | None => None
                 end
               else None)
            (length (take_while not_close r4))
      | _, _ => None
      end
    else None.

Definition rewrite (content : str) : str :=
  let content := re_sub pattern1 content in
  let content := re_sub pattern2 content in
  let content := re_sub pattern3 content in
  let content := re_sub pattern4 content in
  content.

(** The whole script, with the in-memory step as a parameter that may
    raise; the script runs it with [rewrite]. *)
Definition script_with (step : str -> result str) : M unit :=
  content <- read_file target ;;
  fixed <- lift (step content) ;;
  write_file target fixed ;;
  print Finished.

Definition script : M unit := script_with (fun c => Ok (rewrite c)).

End ResourceListMocks.

(** ** fix_resource_list_mocks_v2.py *)

Module ResourceListMocksV2.

Definition target : string :=
  "src/pages/ResourceListPage/ResourceListPage.test.tsx"%string.

Definition correct_mock_impl : str :=
  join_lines
    [lit "const mockFetch = vi.fn((input: unknown) => {";
     lit "        const url = getUrlFromFetchArg(input);";
     lit "        // Handle /control/collections (list all collections)";
     lit "        if (url.includes('/control/collections') && !url.match(/\/control\/collections\/[^?]/)) {";
     lit "          return Promise.resolve(createMockResponse({ content: [mockSchema], totalElements: 1, totalPages: 1, size: 1000, number: 0 }));";
     lit "        }";
     lit "        // Handle /control/collections/{id} (get single collection)";
     lit "        if (url.match(/\/control\/collections\/col-1/)) {";
     lit "          return Promise.resolve(createMockResponse(mockSchema));";
     lit "        }";
     lit "        // Handle /api/users (get resources)";
     lit "        if (url.includes('/api/users')) {";
     lit "          return Promise.resolve(createMockResponse(mockPaginatedResponse));";
     lit "        }";
     lit "        return Promise.reject(new Error('Unknown URL: ' + url));";
     lit "      });";
     lit "      wrapFetchMock(mockFetch);"].

Definition head : str := lit "const mockFetch = vi.fn((input: unknown) => {".
Definition tail : str := lit "wrapFetchMock(mockFetch);".

(** One or more characters other than a closing brace, then the brace, at
    the start of [s]: the length of the match. *)
Definition to_brace (s : str) : option nat :=
  let run := take_while ResourceListMocks.not_close s in
  match run, skipn (length run) s with
  | _ :: _, _ :: _ => Some (length run + 1)
  | _, _ => None
  end.

(** [pattern] with [correct_mock_impl]: the head, three runs up to a
    closing brace, [);], whitespace and [wrapFetchMock(mockFetch);]. *)
Definition pattern : matcher :=
  fun s =>
    if prefixb head s then
      let r0 := skipn (length head) s in
      match to_brace r0 with
      | Some k1 =>
          let r1 := skipn k1 r0 in
          match to_brace r1 with
          | Some k2 =>
              let r2 := skipn k2 r1 in
              match to_brace r2 with
              | Some k3 =>
                  let r3 := skipn k3 r2 in
                  if prefixb (lit ");") r3 then
                    let r := skipn 2 r3 in
                    let ws := take_while is_space r in
                    match ws with
                    | [] => None
                    | _ :: _ =>
                        if prefixb tail (skipn (length ws) r)
                        then Some (length head + k1 + k2 + k3 + 2
                                   + length ws + length tail,
                                   correct_mock_impl)
                        else None
                    end
                  else None
              | None => None
              end
          | None => None
          end
      | None => None
      end
    else None.

Definition rewrite (content : str) : str := re_sub pattern content.

Definition script_with (step : str -> result str) : M unit :=
  content <- read_file target ;;
  fixed <- lift (step content) ;;
  write_file target fixed ;;
  print Finished.

Definition script : M unit := script_with (fun c => Ok (rewrite c)).

End ResourceListMocksV2.

(** ** Statements about whole runs *)

(** A run that, with its target missing, prints something, leaves the
    files alone and ends normally. *)
Definition missing_file_handled (run : M unit) (filepath : string) : Prop :=
  forall w, files w filepath = None ->
    exists w', run w = (w', Ok tt) /\ files w' = files w /\
               length (console w) < length (console w').

(** A run in which no error reaches the top level. *)
Definition never_fails (run : M unit) : Prop :=
  forall w, exit_status (run w) = 0.

(** Appending to the console. *)
Definition said (w : world) (rs : list report) : world :=
  mkWorld (files w) (console w ++ rs).

(** The world after a successful write of [t] and the report of it. *)
Definition written (w : world) (filepath : string) (t : str) : world :=
  said (mkWorld (store filepath (mkFile t true true) (files w)) (console w))
       [Updated filepath].

(** A loop without a handler: when the per-file function raises at [p],
    behind paths it has dealt with, [main] ends there with that error and a
    non-zero status; the paths behind [p] are not looked at. *)
Definition propagates (f : string -> M bool)
           (main_on : list string -> M unit) : Prop :=
  forall done p rest w w1 c w2 e,
    for_each f done 0 (said w [Banner]) = (w1, Ok c) ->
    f p w1 = (w2, Raise e) ->
    main_on (done ++ p :: rest) w = (w2, Raise e) /\
    exit_status (main_on (done ++ p :: rest) w) = 1.

(** A script for one file, without a check or a handler: a target that is
    missing, cannot be read or cannot be written, and an error of the
    in-memory step, each end the run with the error, the world as it
    was. *)
Definition single_file_fatal (script_with : (str -> result str) -> M unit)
           (target : string) : Prop :=
  forall step w,
    (files w target = None ->
     script_with step w = (w, Raise FileNotFoundError)) /\
    (forall f, files w target = Some f -> readable f = false ->
               script_with step w = (w, Raise PermissionError)) /\
    (forall f e, files w target = Some f -> readable f = true ->
                 step (content f) = Raise e ->
                 script_with step w = (w, Raise e)) /\
    (forall f t, files w target = Some f -> readable f = true ->
                 step (content f) = Ok t -> writable f = false ->
                 script_with step w = (w, Raise PermissionError)).

(** ** Example worlds *)

Definition empty_world : world := mkWorld (fun _ => None) [].

Definition guarded_file : file :=
  mkFile (lit "wrapFetchMock(mockFetch); createTestWrapper(); cleanupAuthMocks = setupAuthMocks();")
         true true.

Definition guarded_world : world :=
  mkWorld (store "a.test.tsx" guarded_file (fun _ => None)) [].

(** The first file of fix_fetch_mocks exists but cannot be read. *)
Definition locked_world : world :=
  mkWorld (store "emf-ui/app/src/pages/CollectionsPage/CollectionsPage.test.tsx"
                 (mkFile [] false true) (fun _ => None)) [].

(** A mock block of the usual form: its opening brace is on the line that
    the rewrite replaces, so the count of the following lines ends at -1. *)
Definition unclosed_block : list str :=
  [lit "beforeEach(() => {";
   lit "  global.fetch = vi.fn().mockImplementation(() => {";
   lit "  wrapFetchMock(vi);";
   lit "    return Promise.resolve(response);";
   lit "  }) as typeof global.fetch;";
   lit "});";
   lit "it('renders', () => {});"].

(** A [createWrapper] whose body has an opening brace in a comment: the
    count of fix_tests never falls below zero. *)
Definition unclosed_wrapper : list str :=
  [lit "import { vi } from 'vitest';";
   lit "function createWrapper() {";
   lit "  // returns { wrapper";
   lit "  return makeWrapper();";
   lit "}";
   lit "describe('page', () => {";
   lit "  it('renders', () => {});";
   lit "});"].

(** The target of fix_resource_form_tests with nothing to rewrite in it. *)
Definition plain_file : file :=
  mkFile (join_lines [lit "describe('form', () => {";
                      lit "  it('renders', () => {});";
                      lit "});"]) true true.

Definition plain_world : world :=
  mkWorld (store ResourceFormTests.target plain_file (fun _ => None)) [].

(** A run that leaves every file outside [paths] as it was. *)
Definition touches_within {A} (paths : list string) (c : M A) : Prop :=
  forall w q, ~ In q paths -> files (fst (c w)) q = files w q.

(** A test file that fix_fetch_mocks rewrites. *)
Definition mocked_file : file :=
  mkFile (join_lines
            [lit "import { setupAuthMocks } from '../../test/testUtils';";
             lit "beforeEach(() => {";
             lit "    mockFetch.mockReset();";
             lit "});"]) true true.

Definition mocked_world : world :=
  mkWorld (store "emf-ui/app/src/pages/RolesPage/RolesPage.test.tsx"
                 mocked_file (fun _ => None)) [].

(** A test file that can be read but not written. *)
Definition read_only_file : file :=
  mkFile (lit "mockFetch.mockResolvedValue(createMockResponse(roles));")
         true false.

Definition read_only_world : world :=
  mkWorld (store "emf-ui/app/src/pages/RolesPage/RolesPage.test.tsx"
                 read_only_file (fun _ => None)) [].

(** How many of the printed lines say that a file was updated. *)
Definition is_updated (r : report) : bool :=
  match r with
  | Updated _ => true
  | _ => false
  end.

Definition count_updated (rs : list report) : nat :=
  length (filter is_updated rs).

(** A call that returns prints one line, which says "updated" exactly when
    the call returns true. *)
Definition one_report (f : string -> M bool) : Prop :=
  forall p w w' b, f p w = (w', Ok b) ->
    exists r, console w' = console w ++ [r] /\ is_updated r = b.

(** A test file that declares [cleanupAuthMocks] and never sets it. *)
Definition undeclared_file : file :=
  mkFile (join_lines
            [lit "let cleanupAuthMocks: () => void;";
             lit "beforeEach(() => {";
             lit "";
             lit "    mockFetch.mockReset();";
             lit "});"]) true true.

Definition undeclared_world : world :=
  mkWorld (store "emf-ui/app/src/pages/RolesPage/RolesPage.test.tsx"
                 undeclared_file (fun _ => None)) [].

(** What group 3 matches starts with a character that is neither whitespace
    nor the [c] of the inserted call. *)
Definition starts_plain (third : str -> option nat) : Prop :=
  forall s k, third s = Some k ->
    exists c0 r, s = c0 :: r /\ is_space c0 = false /\ c0 <> 99%N.

(** No literal of group 3 runs into a following [beforeEach(() => {] or
    starts like it. *)
Definition alts_apart (alts : list str) : bool :=
  forallb (fun a => negb (overlaps a SetupAuthMocks.before_each)
                    && negb (compat a SetupAuthMocks.before_each)) alts.

(** A test file that imports from vitest and has a top-level describe. *)
Definition vitest_file : file :=
  mkFile (join_lines
            [lit "import { describe, it } from 'vitest';";
             lit "describe('Page', () => {";
             lit "  it('renders', () => {});";
             lit "});"])
         true true.

Definition vitest_world : world :=
  mkWorld (store "src/pages/PluginsPage/PluginsPage.test.tsx" vitest_file
                 (fun _ => None)) [].

(** Every opening brace of [s] has a closing one somewhere behind it. *)
Fixpoint braces_closed (s : str) : bool :=
  match s with
  | [] => true
  | c :: r =>
      (if N.eqb c 123 then existsb (N.eqb 125) r else true)
      && braces_closed r
  end.

(** An import statement with [body] between its braces. *)
Definition import_stmt (ws body : str) : str :=
  lit "import" ++ ws ++ lit "{" ++ body ++ lit "}".

(** The number of characters [c] on the lines [ls]. *)
Definition braces (c : char) (ls : list str) : nat :=
  list_sum (map (count_char c) ls).

(** The inner loop of [ResourceFormTests.outer] under a name of its own:
    the lines from index [i] on, the two counters and [block_lines]. *)
Fixpoint inner (lines : list str) (brace_count : Z) (found_opening : bool)
         (block_lines : list str) {struct lines} : list str :=
  match lines with
  | [] => []
  | current :: rest'' =>
      let block_lines := block_lines ++ [current] in
      let opens := contains (lit "{") current in
      let brace_count :=
        if opens
        then (brace_count + Z.of_nat (count_char 123%N current))%Z
        else brace_count in
      let found_opening := opens || found_opening in
      let brace_count :=
        if contains (lit "}") current
        then (brace_count - Z.of_nat (count_char 125%N current))%Z
        else brace_count in
      if found_opening && Z.eqb brace_count 0
         && contains (lit "as typeof global.fetch") current
      then
        let indent := length current - length (lstrip current) in
        block_lines
          ++ [ResourceFormTests.spaces indent
                ++ lit "wrapFetchMock(mockFetch);";
              []]
          ++ ResourceFormTests.outer rest''
      else inner rest'' brace_count found_opening block_lines
  end.

(** The texts [fix_test_file] of fix_tests reacts to (the old imports and
    the two function declarations through [import], [createWrapper()] and
    [createTestWrapper]). *)
Definition fix_tests_markers : list str :=
  [lit "createTestWrapper"; lit "from 'vitest'"; lit "import";
   lit "createWrapper()"; lit "describe("; lit "  beforeEach(() => {";
   lit "  afterEach(() => {"].

(** A file with none of these texts. *)
Definition bare_file : file :=
  mkFile (join_lines [lit "const x = 1;"; lit "export default x;"]) true true.

Definition bare_world : world :=
  mkWorld (store "src/pages/PluginsPage/PluginsPage.test.tsx" bare_file
                 (fun _ => None)) [].



(** * Properties *)

(** ** Text lemmas *)

Lemma prefixb_spec (p s : str) :
  prefixb p s = true <-> exists x, s = p ++ x.
Proof.
  revert s. induction p as [|a p IH]; intros s; simpl.
  - split; [intros _; now exists s | reflexivity].
  - destruct s as [|b s].
    + split; [discriminate | intros [x H]; discriminate].
    + rewrite andb_true_iff, N.eqb_eq, IH. split.
      * intros [-> [x ->]]. now exists x.
      * intros [x H]. injection H as -> ->. split; [reflexivity | now exists x].
Qed.

Lemma prefixb_app (p x : str) : prefixb p (p ++ x) = true.
Proof. apply prefixb_spec. now exists x. Qed.

Lemma contains_spec (p s : str) :
  contains p s = true <-> exists a b, s = a ++ p ++ b.
Proof.
  induction s as [|c s IH]; simpl.
  - rewrite orb_false_r, prefixb_spec. split.
    + intros [x H]. now exists [], x.
    + intros [a [b H]]. destruct a; [now exists b | discriminate].
  - rewrite orb_true_iff, prefixb_spec, IH. split.
    + intros [[x H] | [a [b H]]].
      * now exists [], x.
      * exists (c :: a), b. now rewrite H.
    + intros [a [b H]]. destruct a as [|c' a].
      * left. now exists b.
      * right. injection H as _ H. now exists a, b.
Qed.

Lemma contains_app_l (p a b : str) :
  contains p a = true -> contains p (a ++ b) = true.
Proof.
  rewrite !contains_spec. intros [x [y ->]]. exists x, (y ++ b).
  now rewrite <- !app_assoc.
Qed.

Lemma contains_app_r (p a b : str) :
  contains p b = true -> contains p (a ++ b) = true.
Proof.
  rewrite !contains_spec. intros [x [y ->]]. exists (a ++ x), y.
  now rewrite <- !app_assoc.
Qed.

Lemma str_eqb_eq (a b : str) : str_eqb a b = true <-> a = b.
Proof.
  revert b. induction a as [|x a IH]; intros [|y b]; simpl;
    try (split; [reflexivity || discriminate | reflexivity || discriminate]).
  rewrite andb_true_iff, N.eqb_eq, IH. split.
  - now intros [-> ->].
  - intros H. injection H as -> ->. now split.
Qed.

Lemma str_eq_dec (a b : str) : {a = b} + {a <> b}.
Proof. apply list_eq_dec, N.eq_dec. Qed.

(** ** The scan of [re.sub] *)

Section ReSub.

Variable m : matcher.

Hypothesis m_pos : positive m.

Lemma sub_from_enough (fuel : nat) :
  forall s, length s <= fuel -> sub_from m fuel s = sub_from m (length s) s.
Proof.
  induction fuel as [fuel IH] using lt_wf_ind. intros s Hs.
  destruct s as [|c r]; [now destruct fuel|].
  destruct fuel as [|f]; [simpl in Hs; lia|].
  simpl. destruct (m (c :: r)) as [[n rep]|] eqn:E.
  - pose proof (m_pos _ _ _ E) as Hn.
    destruct n as [|k]; [lia|]. simpl skipn.
    assert (length (skipn k r) <= length r) by (rewrite length_skipn; lia).
    simpl in Hs.
    rewrite (IH f) by lia. rewrite (IH (length r)) by lia. reflexivity.
  - simpl in Hs. rewrite (IH f) by lia. reflexivity.
Qed.

Lemma re_sub_nil : re_sub m [] = [].
Proof. reflexivity. Qed.

Lemma re_sub_cons (c : char) (r : str) :
  re_sub m (c :: r) =
  match m (c :: r) with
  | Some (n, rep) => rep ++ re_sub m (skipn n (c :: r))
  | None => c :: re_sub m r
  end.
Proof.
  unfold re_sub. simpl. destruct (m (c :: r)) as [[n rep]|] eqn:E.
  - pose proof (m_pos _ _ _ E) as Hn.
    destruct n as [|k]; [lia|]. simpl skipn.
    rewrite sub_from_enough by (rewrite length_skipn; lia). reflexivity.
  - reflexivity.
Qed.

(** Induction along the scan. *)
Lemma re_sub_scan (P : str -> str -> Prop) :
  P [] [] ->
  (forall c r, m (c :: r) = None ->
               P r (re_sub m r) -> P (c :: r) (c :: re_sub m r)) ->
  (forall c r n rep, m (c :: r) = Some (n, rep) ->
               P (skipn n (c :: r)) (re_sub m (skipn n (c :: r))) ->
               P (c :: r) (rep ++ re_sub m (skipn n (c :: r)))) ->
  forall s, P s (re_sub m s).
Proof.
  intros Hnil Hnone Hsome s.
  remember (length s) as k eqn:Hk. revert s Hk.
  induction k as [k IH] using lt_wf_ind. intros s Hk.
  destruct s as [|c r]; [exact Hnil|].
  rewrite re_sub_cons. destruct (m (c :: r)) as [[n rep]|] eqn:E.
  - apply Hsome; [exact E|].
    pose proof (m_pos _ _ _ E) as Hn.
    apply (IH (length (skipn n (c :: r)))); [|reflexivity].
    rewrite length_skipn, Hk. simpl length. lia.
  - apply Hnone; [exact E|]. apply (IH (length r)); [|reflexivity].
    rewrite Hk. simpl length. lia.
Qed.

End ReSub.

Section Fixed.

Variable m : matcher.
Hypothesis m_pos : positive m.

Lemma clean_skipn (n : nat) (s : str) : clean m s -> clean m (skipn n s).
Proof.
  intros H a t E. apply (H (firstn n s ++ a) t).
  now rewrite <- app_assoc, <- E, firstn_skipn.
Qed.

Lemma clean_tail (c : char) (r : str) : clean m (c :: r) -> clean m r.
Proof. intros H a t E. apply (H (c :: a) t). now rewrite E. Qed.

Lemma absent_clean (s : str) : absent m s -> clean m s.
Proof. intros H a t E n rep Hm. rewrite (H a t E) in Hm. discriminate. Qed.

(** Where every position is inert the scan reproduces its input. *)
Lemma re_sub_clean (s : str) : clean m s -> re_sub m s = s.
Proof.
  apply (re_sub_scan m m_pos (fun s o => clean m s -> o = s)).
  - reflexivity.
  - intros c r _ IH H. f_equal. apply IH. now apply clean_tail with c.
  - intros c r n rep E IH H.
    rewrite IH by now apply clean_skipn.
    rewrite (H [] (c :: r) eq_refl n rep E). apply firstn_skipn.
Qed.

(** The scan either reproduces its input or emits a replacement. *)
Lemma re_sub_first (s : str) :
  re_sub m s = s \/
  exists a t n rep, s = a ++ t /\ m t = Some (n, rep) /\
                    re_sub m s = a ++ rep ++ re_sub m (skipn n t).
Proof.
  apply (re_sub_scan m m_pos (fun s o => o = s \/
    exists a t n rep, s = a ++ t /\ m t = Some (n, rep) /\
                      o = a ++ rep ++ re_sub m (skipn n t))).
  - now left.
  - intros c r _ [IH | (a & t & n & rep & E1 & E2 & E3)].
    + left. now rewrite IH.
    + right. exists (c :: a), t, n, rep. rewrite E3, E1. now repeat split.
  - intros c r n rep E _. right. exists [], (c :: r), n, rep. now repeat split.
Qed.

(** When every replacement that differs from its match carries [w], the
    output is the input or contains [w]. *)
Lemma re_sub_changed (w s : str) :
  (forall t n rep, m t = Some (n, rep) ->
                   rep = firstn n t \/ contains w rep = true) ->
  re_sub m s = s \/ contains w (re_sub m s) = true.
Proof.
  intros Hw.
  apply (re_sub_scan m m_pos (fun s o => o = s \/ contains w o = true)).
  - now left.
  - intros c r _ [IH | IH].
    + left. now rewrite IH.
    + right. now apply (contains_app_r w [c]).
  - intros c r n rep E [IH | IH].
    + destruct (Hw _ _ _ E) as [H | H].
      * left. rewrite IH, H. apply firstn_skipn.
      * right. now apply contains_app_l.
    + right. now apply contains_app_r.
Qed.

End Fixed.

(** Scanning with [m] leaves only inert positions for [m']. *)
Section Clean.

Variables m m' : matcher.
Hypothesis m_pos : positive m.
Hypothesis m_bnd : bounded m.
Hypothesis m'_pos : positive m'.

(** A match of [m'] that ends before a replacement of [m] starts was
    already a match of the text scanned. *)
Hypothesis local : forall t n rep u v n' rep',
  m t = Some (n, rep) -> m' (u ++ rep ++ v) = Some (n', rep') ->
  n' <= length u -> m' (u ++ t) = Some (n', rep').

(** A match of [m'] does not run into a replacement of [m]. *)
Hypothesis no_straddle : forall t n rep u v n' rep',
  m t = Some (n, rep) -> m' (u ++ rep ++ v) = Some (n', rep') ->
  n' <= length u \/ rep' = firstn n' (u ++ rep ++ v).

(** No match of [m'] starts inside a replacement of [m]. *)
Hypothesis no_inner : forall t n rep r1 r2 v,
  m t = Some (n, rep) -> rep = r1 ++ r2 -> r1 <> [] -> r2 <> [] ->
  inert m' (r2 ++ v).

Lemma ready_skipn (n : nat) (s : str) : ready m m' s -> ready m m' (skipn n s).
Proof.
  intros H a t E. apply (H (firstn n s ++ a) t).
  now rewrite <- app_assoc, <- E, firstn_skipn.
Qed.

Lemma re_sub_cleans (s : str) : ready m m' s -> clean m' (re_sub m s).
Proof.
  apply (re_sub_scan m m_pos (fun s o => ready m m' s -> clean m' o)).
  - intros H a t E. destruct a; [|discriminate]. simpl in E. subst t.
    apply (H [] [] eq_refl). destruct (m []) as [[n rep]|] eqn:Em; [|reflexivity].
    pose proof (m_pos _ _ _ Em). pose proof (m_bnd _ _ _ Em) as Hb.
    simpl in Hb. lia.
  - intros c r Em IH H a t E.
    assert (Hr : ready m m' r).
    { intros a0 t0 E0. apply (H (c :: a0) t0). now rewrite E0. }
    destruct a as [|c' a].
    + simpl in E. subst t.
      destruct (re_sub_first m m_pos r) as [Eq | (a & t & n & rep & E1 & E2 & E3)].
      * rewrite Eq. now apply (H [] (c :: r)).
      * rewrite E3. intros n' rep' Hm'.
        destruct (no_straddle t n rep (c :: a) _ n' rep' E2 Hm') as [Hle | Hin];
          [|exact Hin].
        pose proof (local t n rep (c :: a) _ n' rep' E2 Hm' Hle) as Hs.
        simpl in Hs. rewrite <- E1 in Hs.
        rewrite (H [] (c :: r) eq_refl Em n' rep' Hs).
        rewrite E1. change (c :: a ++ t) with ((c :: a) ++ t).
        change (c :: a ++ rep ++ re_sub m (skipn n t))
          with ((c :: a) ++ rep ++ re_sub m (skipn n t)).
        rewrite !firstn_app.
        replace (n' - length (c :: a)) with 0 by lia. simpl firstn at 2 4.
        reflexivity.
    + injection E as _ E. now apply (IH Hr a t).
  - intros c r n rep Em IH H a t E.
    pose proof (IH (ready_skipn n _ H)) as Hc.
    apply app_eq_app in E. destruct E as [l [[E1 E2] | [E1 E2]]].
    + destruct l as [|x l].
      * simpl in E2. subst t.
        now apply (Hc [] (re_sub m (skipn n (c :: r)))).
      * destruct a as [|y a].
        -- simpl in E1. subst t. rewrite <- E1. intros n' rep' Hm'.
           destruct (no_straddle (c :: r) n rep [] _ n' rep' Em Hm') as [Hle | Hin];
             [|exact Hin].
           pose proof (m'_pos _ _ _ Hm'). simpl in Hle. lia.
        -- subst t.
           apply (no_inner (c :: r) n rep (y :: a) (x :: l) _ Em E1);
             discriminate.
    + now apply (Hc l t).
Qed.

End Clean.

(** ** Prefixes, runs and overlaps *)

Lemma prefixb_compat (a b x : str) :
  prefixb a (b ++ x) = true -> compat a b = true.
Proof.
  revert b. induction a as [|c a IH]; intros [|d b]; simpl; try reflexivity.
  rewrite andb_true_iff. intros [-> H]. now rewrite (IH b H).
Qed.

Lemma prefixb_app_short (p u x : str) :
  prefixb p (u ++ x) = true -> length u < length p ->
  prefixb (skipn (length u) p) x = true /\ firstn (length u) p = u.
Proof.
  revert p. induction u as [|c u IH]; intros p H Hl.
  - now split.
  - destruct p as [|d p]; [simpl in Hl; lia|]. simpl in H, Hl.
    apply andb_true_iff in H. destruct H as [Hc H].
    apply N.eqb_eq in Hc. subst d.
    destruct (IH p H ltac:(lia)) as [H1 H2]. simpl. now rewrite H2.
Qed.

Lemma prefixb_app_long (p u x : str) :
  prefixb p (u ++ x) = true -> length p <= length u -> prefixb p u = true.
Proof.
  revert u. induction p as [|d p IH]; intros u H Hl; [reflexivity|].
  destruct u as [|c u]; [simpl in Hl; lia|]. simpl in *.
  apply andb_true_iff in H. destruct H as [-> H]. apply (IH u H). lia.
Qed.

Lemma prefixb_length (p s : str) : prefixb p s = true -> length p <= length s.
Proof.
  rewrite prefixb_spec. intros [x ->]. rewrite length_app. lia.
Qed.

Lemma prefixb_skipn (p s : str) :
  prefixb p s = true -> s = p ++ skipn (length p) s.
Proof.
  rewrite prefixb_spec. intros [x ->].
  now rewrite skipn_app, skipn_all, Nat.sub_diag.
Qed.

Lemma take_while_app (f : char -> bool) (a b : str) :
  take_while f (a ++ b) =
  if forallb f a then a ++ take_while f b else take_while f a.
Proof.
  induction a as [|c a IH]; simpl; [reflexivity|].
  destruct (f c); simpl; [|reflexivity]. rewrite IH. now destruct (forallb f a).
Qed.

Lemma take_while_all (f : char -> bool) (s : str) :
  forallb f (take_while f s) = true.
Proof.
  induction s as [|c s IH]; simpl; [reflexivity|].
  destruct (f c) eqn:E; simpl; [now rewrite E|reflexivity].
Qed.

Lemma take_while_id (f : char -> bool) (s : str) :
  forallb f s = true -> take_while f s = s.
Proof.
  induction s as [|c s IH]; simpl; [reflexivity|].
  destruct (f c); simpl; [intros H; now rewrite IH|discriminate].
Qed.

Lemma take_while_prefix (f : char -> bool) (s : str) :
  s = take_while f s ++ skipn (length (take_while f s)) s.
Proof.
  induction s as [|c s IH]; simpl; [reflexivity|].
  destruct (f c); simpl; [now rewrite <- IH|reflexivity].
Qed.

Lemma take_while_stop (f : char -> bool) (s : str) :
  match skipn (length (take_while f s)) s with
  | [] => True
  | c :: _ => f c = false
  end.
Proof.
  induction s as [|c s IH]; simpl; [exact I|].
  destruct (f c) eqn:E; simpl; [exact IH|exact E].
Qed.

Lemma take_while_short (f : char -> bool) (s : str) :
  forallb f s = false -> length (take_while f s) < length s.
Proof.
  induction s as [|c s IH]; simpl; [discriminate|].
  destruct (f c); simpl; [intros H; apply IH in H; lia|lia].
Qed.

(** A run of [f]-characters that is a prefix of [p] is no longer than the
    [f]-run at the head of [p]. *)
Lemma firstn_run (f : char -> bool) (p : str) (k : nat) :
  forallb f (firstn k p) = true -> k <= length p ->
  k <= length (take_while f p).
Proof.
  revert k. induction p as [|c p IH]; intros [|k]; simpl; try lia.
  destruct (f c); simpl; [|discriminate]. intros H Hk.
  apply IH in H; lia.
Qed.

Lemma overlaps_false (p q : str) (k : nat) :
  overlaps p q = false -> 1 <= k < length p -> compat (skipn k p) q = false.
Proof.
  intros H Hk. destruct (compat (skipn k p) q) eqn:E; [|reflexivity].
  assert (overlaps p q = true); [|congruence].
  apply existsb_exists. exists k. split; [apply in_seq; lia|exact E].
Qed.

Lemma starts_in_false (from : nat) (p c : str) (k : nat) :
  starts_in from p c = false -> from <= k < length c ->
  compat p (skipn k c) = false.
Proof.
  intros H Hk. destruct (compat p (skipn k c)) eqn:E; [|reflexivity].
  assert (starts_in from p c = true); [|congruence].
  apply existsb_exists. exists k. split; [apply in_seq; lia|exact E].
Qed.

Lemma continues_false (p b : str) (k : nat) :
  continues p b = false -> 1 <= k <= length (take_while is_ident p) ->
  compat (skipn k p) b = false.
Proof.
  intros H Hk. destruct (compat (skipn k p) b) eqn:E; [|reflexivity].
  assert (continues p b = true); [|congruence].
  apply existsb_exists. exists k. split; [apply in_seq; lia|exact E].
Qed.

Lemma prefixb_forallb (f : char -> bool) (p l : str) :
  prefixb p l = true -> forallb f l = true -> forallb f p = true.
Proof.
  rewrite prefixb_spec. intros [x ->]. rewrite forallb_app, andb_true_iff.
  tauto.
Qed.

(** After a run of identifier characters followed by [b], a head with a
    non-identifier character cannot start. *)
Lemma run_blocks (p l b x : str) :
  forallb is_ident p = false -> forallb is_ident l = true -> l <> [] ->
  continues p b = false -> prefixb p (l ++ b ++ x) = false.
Proof.
  intros Hp Hl Hne Hc. destruct (prefixb p (l ++ b ++ x)) eqn:E; [|reflexivity].
  destruct (le_lt_dec (length p) (length l)) as [Hle | Hlt].
  - apply prefixb_app_long in E; [|exact Hle].
    rewrite (prefixb_forallb _ _ _ E Hl) in Hp. discriminate.
  - destruct (prefixb_app_short _ _ _ E Hlt) as [E1 E2].
    apply prefixb_compat in E1.
    rewrite continues_false in E1; [discriminate|exact Hc|].
    split.
    + destruct l; [congruence|simpl; lia].
    + apply firstn_run; [now rewrite E2|lia].
Qed.

Lemma free_of_suffix (p name : str) (segs : list seg) :
  free_of p segs = true -> forallb is_ident p = false ->
  forallb is_ident name = true ->
  forall r1 r2 v, text name segs = r1 ++ r2 -> r2 <> [] ->
                  prefixb p (r2 ++ v) = false.
Proof.
  intros Hf Hp Hn. induction segs as [|sg rest IH]; intros r1 r2 v E Hr2.
  - simpl in E. symmetry in E. apply app_eq_nil in E. tauto.
  - destruct sg as [c|]; simpl in Hf, E; apply andb_true_iff in Hf;
      destruct Hf as [Hf1 Hf2]; apply app_eq_app in E;
      destruct E as [l [[E1 E2] | [E1 E2]]];
      try (now apply (IH Hf2 l r2 v)).
    + destruct l as [|x l]; [now apply (IH Hf2 [] r2 v)|].
      destruct (prefixb p (r2 ++ v)) eqn:Ep; [|reflexivity].
      rewrite E2, <- app_assoc in Ep. apply prefixb_compat in Ep.
      apply negb_true_iff in Hf1.
      assert (Hs : skipn (length r1) c = x :: l).
      { rewrite E1, skipn_app, skipn_all, Nat.sub_diag. reflexivity. }
      rewrite <- Hs, (starts_in_false 0) in Ep; [discriminate|exact Hf1|].
      rewrite E1, length_app. simpl. lia.
    + destruct l as [|x l]; [now apply (IH Hf2 [] r2 v)|].
      destruct rest as [|[[|b c]|] rest']; try discriminate.
      apply negb_true_iff in Hf1. rewrite E2.
      change (text name (Fix (b :: c) :: rest'))
        with ((b :: c) ++ text name rest').
      rewrite <- !app_assoc. apply (run_blocks p (x :: l) (b :: c)).
      * exact Hp.
      * rewrite E1, forallb_app, andb_true_iff in Hn. tauto.
      * discriminate.
      * exact Hf1.
Qed.

(** ** The call patterns of fix_mock_responses.py *)

Import MockResponses.

Lemma is_name_ident (name : str) :
  is_name name = true -> forallb is_ident name = true.
Proof. unfold is_name. rewrite andb_true_iff. tauto. Qed.

Lemma is_name_nonempty (name : str) : is_name name = true -> name <> [].
Proof. intros H ->. discriminate. Qed.

Lemma match_call_inv (h s name : str) :
  match_call h s = Some name ->
  prefixb h s = true /\
  name = take_while is_ident (skipn (length h) s) /\
  is_name name = true /\
  prefixb (lit "))") (skipn (length name) (skipn (length h) s)) = true.
Proof.
  unfold match_call. destruct (prefixb h s); [|discriminate].
  pose proof (take_while_all is_ident (skipn (length h) s)) as Hall.
  destruct (take_while is_ident (skipn (length h) s)) as [|c r] eqn:E;
    [discriminate|].
  intros H.
  match type of H with
  | (if ?b then _ else _) = _ => destruct b eqn:Hb; [|discriminate]
  end.
  apply andb_true_iff in Hb. destruct Hb as [Hc Hp].
  injection H as <-. repeat split; try assumption.
  unfold is_name. now rewrite Hc, Hall.
Qed.

Lemma match_call_text (h s name : str) :
  match_call h s = Some name ->
  s = h ++ name ++ lit "))" ++ skipn (length h + length name + 2) s.
Proof.
  intros H. destruct (match_call_inv _ _ _ H) as (H1 & H2 & _ & H4).
  rewrite (prefixb_skipn _ _ H1) at 1. f_equal.
  rewrite (take_while_prefix is_ident (skipn (length h) s)) at 1.
  rewrite <- H2. f_equal.
  rewrite (prefixb_skipn _ _ H4) at 1. f_equal.
  rewrite !skipn_skipn. f_equal. simpl. lia.
Qed.

Lemma skipn_exact (a b : str) : skipn (length a) (a ++ b) = b.
Proof. now rewrite skipn_app, skipn_all, Nat.sub_diag. Qed.

Lemma firstn_exact (a b : str) : firstn (length a) (a ++ b) = a.
Proof.
  rewrite firstn_app, firstn_all, Nat.sub_diag. simpl. apply app_nil_r.
Qed.

Lemma match_call_intro (h name rest : str) :
  is_name name = true ->
  match_call h (h ++ name ++ lit "))" ++ rest) = Some name.
Proof.
  intros Hn. unfold match_call. rewrite prefixb_app. cbv zeta.
  rewrite skipn_exact, take_while_app, (is_name_ident _ Hn).
  change (take_while is_ident (lit "))" ++ rest)) with (@nil char).
  rewrite app_nil_r, skipn_exact, prefixb_app.
  destruct name as [|c r]; [discriminate|].
  unfold is_name in Hn. apply andb_true_iff in Hn. destruct Hn as [-> _].
  reflexivity.
Qed.

Lemma call_matcher_inv (h s : str) (n : nat) (rep : str) :
  call_matcher h s = Some (n, rep) ->
  exists name, match_call h s = Some name /\
               n = length h + length name + 2 /\
               rep = replace_call h (firstn n s) name.
Proof.
  unfold call_matcher. destruct (match_call h s) as [name|]; [|discriminate].
  intros H. injection H as <- <-. now exists name.
Qed.

Lemma call_matcher_positive (h : str) : positive (call_matcher h).
Proof.
  intros s n rep H. apply call_matcher_inv in H.
  destruct H as (name & _ & -> & _). lia.
Qed.

Lemma call_matcher_bounded (h : str) : bounded (call_matcher h).
Proof.
  intros s n rep H. apply call_matcher_inv in H.
  destruct H as (name & H & -> & _). apply match_call_text in H.
  apply (f_equal (@length char)) in H. rewrite !length_app in H.
  change (length (lit "))")) with 2 in H. lia.
Qed.

(** The matched text is the head, the name and the two parentheses. *)
Lemma match_call_firstn (h s name : str) :
  match_call h s = Some name ->
  firstn (length h + length name + 2) s = h ++ name ++ lit "))".
Proof.
  intros H. rewrite (match_call_text _ _ _ H) at 1.
  rewrite !app_assoc. rewrite firstn_app.
  rewrite firstn_all2 by (rewrite !length_app; simpl; lia).
  rewrite !length_app. simpl length.
  replace (length h + length name + 2 - (length h + length name + 2)) with 0
    by lia.
  simpl. now rewrite app_nil_r.
Qed.

Lemma call_matcher_local (h u x y : str) (n : nat) (rep : str) :
  call_matcher h (u ++ x) = Some (n, rep) -> n <= length u ->
  call_matcher h (u ++ y) = Some (n, rep).
Proof.
  intros H Hn. apply call_matcher_inv in H.
  destruct H as (name & H & -> & ->).
  pose proof (match_call_firstn _ _ _ H) as Hf.
  destruct (match_call_inv _ _ _ H) as (_ & _ & Hname & _).
  rewrite firstn_app in Hf.
  replace (length h + length name + 2 - length u) with 0 in Hf by lia.
  simpl in Hf. rewrite app_nil_r in Hf.
  assert (Hu : u ++ y = h ++ name ++ lit "))"
                        ++ (skipn (length h + length name + 2) u ++ y)).
  { rewrite <- (firstn_skipn (length h + length name + 2) u) at 1.
    rewrite Hf. now rewrite <- !app_assoc. }
  unfold call_matcher. rewrite Hu at 1. rewrite (match_call_intro _ _ _ Hname).
  do 3 f_equal. rewrite !firstn_app.
  replace (length h + length name + 2 - length u) with 0 by lia.
  reflexivity.
Qed.

Lemma skipn_plus (a b : str) (k : nat) :
  skipn (length a + k) (a ++ b) = skipn k b.
Proof.
  rewrite skipn_app, skipn_all2 by lia.
  now replace (length a + k - length a) with k by lia.
Qed.

Lemma skipn_within (a b : str) (k : nat) :
  k <= length a -> skipn k (a ++ b) = skipn k a ++ b.
Proof.
  intros H. rewrite skipn_app. now replace (k - length a) with 0 by lia.
Qed.

Lemma separated_inv (p q : str) :
  separated p q = true ->
  (p = q \/ compat p q = false) /\
  overlaps p q = false /\
  forallb is_ident q = false /\
  compat (lit "))") (skipn (length (take_while is_ident q)) q) = false /\
  compat (lit ")") q = false /\
  starts_in 1 p q = false /\
  forallb is_ident p = false /\
  free_of p shape_paginated = true /\
  free_of p shape_skipped = true.
Proof.
  unfold separated. rewrite !andb_true_iff, orb_true_iff, !negb_true_iff.
  rewrite str_eqb_eq. tauto.
Qed.

(** A replacement is the head followed by the wrapped or the untouched
    argument. *)
Lemma call_matcher_shape (q t : str) (n : nat) (rep : str) :
  call_matcher q t = Some (n, rep) ->
  exists name, is_name name = true /\
    ((skipped name = true /\ rep = q ++ text name shape_skipped) \/
     (skipped name = false /\ rep = q ++ text name shape_paginated)).
Proof.
  intros H. apply call_matcher_inv in H. destruct H as (name & H & -> & ->).
  exists name. destruct (match_call_inv _ _ _ H) as (_ & _ & Hn & _).
  split; [exact Hn|]. unfold replace_call.
  destruct (skipped name); [left | right]; split; try reflexivity.
  - rewrite (match_call_firstn _ _ _ H). reflexivity.
  - unfold paginated. rewrite <- !app_assoc. reflexivity.
Qed.

Lemma call_matcher_none (p s : str) :
  prefixb p s = false -> call_matcher p s = None.
Proof. intros H. unfold call_matcher, match_call. now rewrite H. Qed.

Section Calls.

(** [p] is the head scanned for, [q] the head whose replacements are in the
    text. *)
Variables p q : str.
Hypothesis sep : separated p q = true.

(** No match for [p] starts inside the head [q] followed by a text in
    which [p] cannot start. *)
Lemma calls_inside (name : str) (segs : list seg) (r1 r2 v : str) :
  free_of p segs = true -> is_name name = true ->
  q ++ text name segs = r1 ++ r2 -> r1 <> [] -> r2 <> [] ->
  call_matcher p (r2 ++ v) = None.
Proof.
  intros Hf Hn E Hr1 Hr2. apply call_matcher_none.
  destruct (separated_inv _ _ sep) as (_ & _ & _ & _ & _ & S6 & S7 & _).
  apply app_eq_app in E. destruct E as [l [[E1 E2] | [E1 E2]]].
  - destruct l as [|x l].
    + apply (free_of_suffix p name segs Hf S7 (is_name_ident _ Hn) [] r2);
        [now rewrite E2|exact Hr2].
    + destruct (prefixb p (r2 ++ v)) eqn:Ep; [|reflexivity].
      rewrite E2, <- app_assoc in Ep. apply prefixb_compat in Ep.
      assert (Hs' : skipn (length r1) q = x :: l)
        by (rewrite E1; apply skipn_exact).
      rewrite <- Hs', (starts_in_false 1) in Ep; [discriminate|exact S6|].
      rewrite E1, length_app. simpl. destruct r1; [congruence|simpl; lia].
  - apply (free_of_suffix p name segs Hf S7 (is_name_ident _ Hn) l r2);
      assumption.
Qed.

Lemma calls_no_inner (t : str) (n : nat) (rep r1 r2 v : str) :
  call_matcher q t = Some (n, rep) -> rep = r1 ++ r2 ->
  r1 <> [] -> r2 <> [] -> call_matcher p (r2 ++ v) = None.
Proof.
  intros Hm E Hr1 Hr2.
  destruct (separated_inv _ _ sep) as (_ & _ & _ & _ & _ & _ & _ & S8 & S9).
  destruct (call_matcher_shape _ _ _ _ Hm) as (name & Hn & Hs).
  destruct Hs as [[_ Hs] | [_ Hs]]; rewrite Hs in E.
  - now apply (calls_inside name shape_skipped r1 r2 v).
  - now apply (calls_inside name shape_paginated r1 r2 v).
Qed.

(** A match for [p] that starts before an occurrence of [q] ends before
    it. *)
Lemma calls_apart (u w : str) (n' : nat) (rep' : str) :
  u <> [] -> call_matcher p (u ++ q ++ w) = Some (n', rep') ->
  n' <= length u.
Proof.
  intros Hu Hm'.
  destruct (separated_inv _ _ sep) as (_ & S2 & S3 & S4 & S5 & _).
  apply call_matcher_inv in Hm'. destruct Hm' as (name' & H' & -> & _).
  destruct (match_call_inv _ _ _ H') as (Hpre & Hname & His & Hpar).
  destruct (le_lt_dec (length p) (length u)) as [Hle | Hlt].
  - rewrite (skipn_within u _ _ Hle) in Hname, Hpar.
    rewrite take_while_app in Hname.
    assert (Hlen : length (skipn (length p) u) = length u - length p)
      by apply length_skipn.
    destruct (forallb is_ident (skipn (length p) u)) eqn:Hall.
    + rewrite take_while_app, S3 in Hname. rewrite Hname, length_app in Hpar.
      rewrite skipn_plus, skipn_within in Hpar
        by (pose proof (take_while_short _ _ S3); lia).
      apply prefixb_compat in Hpar. congruence.
    + pose proof (take_while_short _ _ Hall) as Hshort.
      rewrite <- Hname in Hshort.
      destruct (le_lt_dec (length name' + 2) (length (skipn (length p) u)))
        as [Hok | Hbad]; [lia|].
      rewrite skipn_within in Hpar by lia.
      destruct (skipn (length name') (skipn (length p) u))
        as [|d [|d' ds]] eqn:Ed.
      * apply (f_equal (@length char)) in Ed. rewrite length_skipn in Ed.
        simpl in Ed. lia.
      * simpl in Hpar. apply andb_true_iff in Hpar. destruct Hpar as [_ Hpar].
        apply (prefixb_compat (lit ")")) in Hpar. congruence.
      * apply (f_equal (@length char)) in Ed. rewrite length_skipn in Ed.
        simpl in Ed. lia.
  - destruct (prefixb_app_short _ _ _ Hpre Hlt) as [H1 _].
    apply prefixb_compat in H1.
    rewrite (overlaps_false p q) in H1; [discriminate|exact S2|].
    destruct u; [congruence|simpl in *; lia].
Qed.

Lemma calls_no_straddle (t : str) (n : nat) (rep u v : str) (n' : nat)
      (rep' : str) :
  call_matcher q t = Some (n, rep) ->
  call_matcher p (u ++ rep ++ v) = Some (n', rep') ->
  n' <= length u \/ rep' = firstn n' (u ++ rep ++ v).
Proof.
  intros Hm Hm'.
  destruct (call_matcher_shape _ _ _ _ Hm) as (name & Hn & Hs).
  destruct u as [|c u].
  - right. destruct (separated_inv _ _ sep) as (S1 & _).
    apply call_matcher_inv in Hm'. destruct Hm' as (name' & H' & -> & ->).
    unfold replace_call. destruct (skipped name') eqn:Hsk; [reflexivity|].
    exfalso.
    destruct (match_call_inv _ _ _ H') as (Hpre & Hname & His & _).
    simpl app in Hpre, Hname.
    assert (Hw : exists w, rep = q ++ w)
      by (destruct Hs as [[_ ->] | [_ ->]]; eauto).
    destruct Hw as [w Hw]. rewrite Hw, <- app_assoc in Hpre.
    pose proof (prefixb_compat _ _ _ Hpre) as Hc.
    destruct S1 as [-> | S1]; [|congruence].
    rewrite Hw, <- app_assoc, skipn_exact in Hname.
    destruct Hs as [[Hk ->] | [_ ->]]; apply app_inv_head in Hw; subst w.
    + simpl text in Hname. rewrite <- app_assoc, take_while_app in Hname.
      rewrite (is_name_ident _ Hn) in Hname.
      change (take_while is_ident (lit "))" ++ [] ++ v)) with (@nil char)
        in Hname.
      rewrite app_nil_r in Hname. congruence.
    + simpl in Hname. subst name'. discriminate.
  - left. assert (Hw : exists w, rep = q ++ w)
      by (destruct Hs as [[_ ->] | [_ ->]]; eauto).
    destruct Hw as [w Hw]. rewrite Hw, <- app_assoc in Hm'.
    apply (calls_apart (c :: u) (w ++ v) n' rep'); [discriminate|exact Hm'].
Qed.

End Calls.

Lemma calls_clean (p q s : str) :
  separated p q = true ->
  ready (call_matcher q) (call_matcher p) s ->
  clean (call_matcher p) (re_sub (call_matcher q) s).
Proof.
  intros sep. apply re_sub_cleans.
  - apply call_matcher_positive.
  - apply call_matcher_bounded.
  - apply call_matcher_positive.
  - intros t n rep u v n' rep' _ H Hn.
    now apply (call_matcher_local p u (rep ++ v) t).
  - intros t n rep u v n' rep'. now apply calls_no_straddle.
  - intros t n rep r1 r2 v Hm E Hr1 Hr2 n' rep' H.
    rewrite (calls_no_inner p q sep t n rep r1 r2 v Hm E Hr1 Hr2) in H.
    discriminate.
Qed.

Lemma ready_same (m : matcher) (s : str) : ready m m s.
Proof. intros a t _ H n rep H'. congruence. Qed.

Lemma clean_ready (m m' : matcher) (s : str) : clean m' s -> ready m m' s.
Proof. intros H a t E _. now apply (H a t). Qed.

Lemma sep11 : separated head1 head1 = true.
Proof. vm_compute. reflexivity. Qed.

Lemma sep22 : separated head2 head2 = true.
Proof. vm_compute. reflexivity. Qed.

Lemma sep12 : separated head1 head2 = true.
Proof. vm_compute. reflexivity. Qed.

(** After the rewrite no call site is left that either rule would change. *)
Lemma wrap_clean (content : str) :
  clean pattern1 (wrap_array_in_paginated_response content) /\
  clean pattern2 (wrap_array_in_paginated_response content).
Proof.
  unfold wrap_array_in_paginated_response, pattern1, pattern2. split.
  - apply (calls_clean head1 head2 _ sep12), clean_ready.
    apply (calls_clean head1 head1 _ sep11), ready_same.
  - apply (calls_clean head2 head2 _ sep22), ready_same.
Qed.

Lemma wrap_idempotent (content : str) :
  wrap_array_in_paginated_response
    (wrap_array_in_paginated_response content) =
  wrap_array_in_paginated_response content.
Proof.
  destruct (wrap_clean content) as [H1 H2].
  unfold wrap_array_in_paginated_response at 1.
  rewrite (re_sub_clean pattern1 (call_matcher_positive head1) _ H1).
  apply (re_sub_clean pattern2 (call_matcher_positive head2) _ H2).
Qed.

(** ** Scanning past a prefix *)

Section Pass.

Variable m : matcher.
Hypothesis m_pos : positive m.

(** When no match that starts in [a] runs into [t], the scan of [a ++ t]
    ends with the scan of [t]. *)
Lemma re_sub_prefix (a t : str) :
  (forall a1 a2 n rep, a = a1 ++ a2 -> a2 <> [] ->
                       m (a2 ++ t) = Some (n, rep) -> n <= length a2) ->
  exists a', re_sub m (a ++ t) = a' ++ re_sub m t.
Proof.
  remember (length a) as k eqn:Hk. revert a Hk.
  induction k as [k IH] using lt_wf_ind. intros a Hk H.
  destruct a as [|c r]; [now exists []|].
  simpl app. rewrite (re_sub_cons m m_pos).
  change (c :: r ++ t) with ((c :: r) ++ t).
  destruct (m ((c :: r) ++ t)) as [[n rep]|] eqn:E.
  - pose proof (H [] (c :: r) n rep eq_refl ltac:(discriminate) E) as Hn.
    pose proof (m_pos _ _ _ E) as Hn1.
    rewrite skipn_within by exact Hn.
    destruct (IH (length (skipn n (c :: r)))
                 ltac:(rewrite length_skipn, Hk; simpl length; lia)
                 (skipn n (c :: r)) eq_refl) as [a' Ha'].
    + intros a1 a2 n0 rep0 E0. apply (H (firstn n (c :: r) ++ a1)).
      now rewrite <- app_assoc, <- E0, firstn_skipn.
    + exists (rep ++ a'). now rewrite Ha', app_assoc.
  - destruct (IH (length r) ltac:(rewrite Hk; simpl; lia) r eq_refl)
      as [a' Ha'].
    + intros a1 a2 n0 rep0 E0. apply (H (c :: a1)). now rewrite E0.
    + exists (c :: a'). now rewrite Ha'.
Qed.

(** A block in which no match starts is copied. *)
Lemma re_sub_block (b x : str) :
  (forall b1 b2, b = b1 ++ b2 -> b2 <> [] -> m (b2 ++ x) = None) ->
  re_sub m (b ++ x) = b ++ re_sub m x.
Proof.
  induction b as [|c b IH]; intros H; [reflexivity|].
  simpl app. rewrite (re_sub_cons m m_pos).
  change (c :: b ++ x) with ((c :: b) ++ x).
  rewrite (H [] (c :: b) eq_refl) by discriminate.
  rewrite IH; [reflexivity|].
  intros b1 b2 E. apply (H (c :: b1)). now rewrite E.
Qed.

(** At a match the replacement is emitted and the scan resumes behind it. *)
Lemma re_sub_match (t x : str) (rep : str) :
  t <> [] -> m (t ++ x) = Some (length t, rep) ->
  re_sub m (t ++ x) = rep ++ re_sub m x.
Proof.
  intros Ht E. destruct t as [|c t]; [congruence|].
  simpl app. rewrite (re_sub_cons m m_pos).
  change (c :: t ++ x) with ((c :: t) ++ x). rewrite E.
  now rewrite skipn_exact.
Qed.

End Pass.

(** ** A call site in its context *)

Lemma call_matcher_at (h name rest : str) :
  is_name name = true ->
  call_matcher h ((h ++ name ++ lit "))") ++ rest) =
  Some (length (h ++ name ++ lit "))"),
        replace_call h (h ++ name ++ lit "))") name).
Proof.
  intros Hn. unfold call_matcher. rewrite <- !app_assoc.
  rewrite (match_call_intro _ _ _ Hn).
  assert (Hl : length h + length name + 2 = length (h ++ name ++ lit "))"))
    by (rewrite !length_app; simpl; lia).
  rewrite Hl. do 3 f_equal.
  rewrite !app_assoc. rewrite <- (app_assoc h). apply firstn_exact.
Qed.

Lemma text_skipped (name : str) : text name shape_skipped = name ++ lit "))".
Proof. reflexivity. Qed.

Lemma text_paginated (name : str) :
  text name shape_paginated = paginated name ++ lit "))".
Proof. unfold paginated. rewrite <- !app_assoc. reflexivity. Qed.

(** The scan for [h] replaces a call site of [h] and resumes behind it. *)
Lemma scan_replaces (h pre name post : str) :
  separated h h = true -> is_name name = true -> skipped name = false ->
  exists pre',
    re_sub (call_matcher h) (pre ++ (h ++ name ++ lit "))") ++ post) =
    pre' ++ (h ++ paginated name ++ lit "))")
         ++ re_sub (call_matcher h) post.
Proof.
  intros sep Hn Hs.
  destruct (re_sub_prefix (call_matcher h) (call_matcher_positive h) pre
              ((h ++ name ++ lit "))") ++ post)) as [pre' Hpre].
  - intros a1 a2 n rep _ Ha H. rewrite <- app_assoc in H.
    exact (calls_apart h h sep a2 _ n rep Ha H).
  - exists pre'. rewrite Hpre. f_equal.
    rewrite (re_sub_match (call_matcher h) (call_matcher_positive h) _ _
               (replace_call h (h ++ name ++ lit "))") name)).
    + unfold replace_call. now rewrite Hs.
    + destruct h; [destruct name; discriminate|discriminate].
    + now apply call_matcher_at.
Qed.

(** The scan for [p] copies a text made of the other head [q] and a shape in
    which [p] cannot start. *)
Lemma scan_keeps (p q pre name post : str) (segs : list seg) :
  separated p q = true -> compat p q = false ->
  free_of p segs = true -> is_name name = true -> q <> [] ->
  exists pre',
    re_sub (call_matcher p) (pre ++ (q ++ text name segs) ++ post) =
    pre' ++ (q ++ text name segs) ++ re_sub (call_matcher p) post.
Proof.
  intros sep Hc Hf Hn Hq.
  destruct (re_sub_prefix (call_matcher p) (call_matcher_positive p) pre
              ((q ++ text name segs) ++ post)) as [pre' Hpre].
  - intros a1 a2 n rep _ Ha H. rewrite <- app_assoc in H.
    exact (calls_apart p q sep a2 _ n rep Ha H).
  - exists pre'. rewrite Hpre. f_equal.
    apply (re_sub_block (call_matcher p) (call_matcher_positive p)).
    intros b1 b2 E Hb2. destruct b1 as [|c b1].
    + simpl in E. subst b2. apply call_matcher_none.
      destruct (prefixb p ((q ++ text name segs) ++ post)) eqn:Ep;
        [|reflexivity].
      rewrite <- app_assoc in Ep. apply prefixb_compat in Ep. congruence.
    + apply (calls_inside p q sep name segs (c :: b1) b2 post Hf Hn E);
        [discriminate|exact Hb2].
Qed.

Lemma sep21 : separated head2 head1 = true.
Proof. vm_compute. reflexivity. Qed.

Lemma wrap_call_site (head pre name post : str) :
  head = head1 \/ head = head2 ->
  is_name name = true -> skipped name = false ->
  exists pre',
    wrap_array_in_paginated_response
      (pre ++ (head ++ name ++ lit "))") ++ post) =
    pre' ++ (head ++ paginated name ++ lit "))")
         ++ wrap_array_in_paginated_response post.
Proof.
  intros [-> | ->] Hn Hs; unfold wrap_array_in_paginated_response,
    pattern1, pattern2.
  - destruct (scan_replaces head1 pre name post sep11 Hn Hs) as [pre1 H1].
    rewrite H1, <- text_paginated.
    apply (scan_keeps head2 head1 pre1 name _ shape_paginated sep21);
      try reflexivity; [exact Hn|discriminate].
  - destruct (scan_keeps head1 head2 pre name post shape_skipped sep12
                eq_refl eq_refl Hn ltac:(discriminate)) as [pre1 H1].
    rewrite text_skipped in H1. rewrite H1.
    apply (scan_replaces head2 pre1 name _ sep22 Hn Hs).
Qed.

(** C6: a call site [createMockResponse(name)] inside
    [mockFetch.mockResolvedValue(...)] or [Promise.resolve(...)] whose
    argument is an identifier the callback does not skip comes out as
    [createMockResponse({ content: name, totalElements: name.length,
    totalPages: 1, size: 1000, number: 0 })], and rewriting the output again
    changes nothing. *)
Theorem C6_call_site_paginated (head pre name post : str) :
  head = head1 \/ head = head2 ->
  is_name name = true -> skipped name = false ->
  exists pre',
    let out :=
      pre' ++ head ++ lit "{ content: " ++ name ++ lit ", totalElements: "
           ++ name ++ lit ".length, totalPages: 1, size: 1000, number: 0 }"
           ++ lit "))" ++ wrap_array_in_paginated_response post in
    wrap_array_in_paginated_response (pre ++ head ++ name ++ lit "))" ++ post)
    = out /\
    wrap_array_in_paginated_response out = out.
Proof.
  intros Hh Hn Hs.
  destruct (wrap_call_site head pre name post Hh Hn Hs) as [pre' H].
  exists pre'. cbv zeta. unfold paginated in H. rewrite <- !app_assoc in H.
  split; [exact H|]. rewrite <- H. apply wrap_idempotent.
Qed.

Lemma C6_witness :
  exists pre',
    let out :=
      pre' ++ head1 ++ lit "{ content: " ++ lit "items"
           ++ lit ", totalElements: " ++ lit "items"
           ++ lit ".length, totalPages: 1, size: 1000, number: 0 }"
           ++ lit "))" ++ wrap_array_in_paginated_response (lit ";") in
    wrap_array_in_paginated_response
      (lit "await " ++ head1 ++ lit "items" ++ lit "))" ++ lit ";") = out /\
    wrap_array_in_paginated_response out = out.
Proof.
  apply (C6_call_site_paginated head1 (lit "await ") (lit "items") (lit ";"));
    [left; reflexivity | reflexivity | reflexivity].
Defined.

(** * The scripts as programs *)

Lemma bind_ok {A B} (c : M A) (k : A -> M B) (w w' : world) (a : A) :
  c w = (w', Ok a) -> bind c k w = k a w'.
Proof. intros H. unfold bind. now rewrite H. Qed.

Lemma bind_raise {A B} (c : M A) (k : A -> M B) (w w' : world) (e : exn) :
  c w = (w', Raise e) -> bind c k w = (w', Raise e).
Proof. intros H. unfold bind. now rewrite H. Qed.

Lemma exists_some (w : world) (filepath : string) (f : file) :
  files w filepath = Some f -> path_exists filepath w = (w, Ok true).
Proof. intros H. unfold path_exists. now rewrite H. Qed.

Lemma exists_none (w : world) (filepath : string) :
  files w filepath = None -> path_exists filepath w = (w, Ok false).
Proof. intros H. unfold path_exists. now rewrite H. Qed.

Lemma read_ok (w : world) (filepath : string) (f : file) :
  files w filepath = Some f -> readable f = true ->
  read_file filepath w = (w, Ok (content f)).
Proof. intros H Hr. unfold read_file. now rewrite H, Hr. Qed.

Lemma read_missing (w : world) (filepath : string) :
  files w filepath = None -> read_file filepath w = (w, Raise FileNotFoundError).
Proof. intros H. unfold read_file. now rewrite H. Qed.

Lemma print_said (r : report) (w : world) : print r w = (said w [r], Ok tt).
Proof. reflexivity. Qed.

Lemma said_said (w : world) (a b : list report) :
  said (said w a) b = said w (a ++ b).
Proof. unfold said. simpl. now rewrite app_assoc. Qed.

(** One step of a run whose first command ends normally. *)
Ltac run_ok H := rewrite (bind_ok _ _ _ _ _ H); cbn beta iota.

(** C3: a file whose content already holds the guard string is skipped:
    [update_test_file] of fix_fetch_mocks ([wrapFetchMock]), [fix_test_file]
    of fix_tests ([createTestWrapper]) and [fix_test_file] of
    fix_setup_auth_mocks ([cleanupAuthMocks = setupAuthMocks()]) report it
    as already done, run no substitution and write nothing. *)
Theorem C3_guard_present_skips (w : world) (filepath : string) (f : file) :
  files w filepath = Some f -> readable f = true ->
  (contains FetchMocks.wrapFetchMock (content f) = true ->
   FetchMocks.rewrite (content f) = inl FetchMocks.AlreadyUpdated /\
   FetchMocks.update_test_file filepath w
   = (said w [Already filepath], Ok false)) /\
  (contains (lit "createTestWrapper") (content f) = true ->
   FixTests.rewrite (content f) = None /\
   FixTests.fix_test_file filepath w = (said w [Already filepath], Ok tt)) /\
  (contains (lit "cleanupAuthMocks = setupAuthMocks()") (content f) = true ->
   SetupAuthMocks.rewrite (content f) = inl SetupAuthMocks.AlreadyFixed /\
   SetupAuthMocks.fix_test_file filepath w
   = (said w [Already filepath], Ok false)).
Proof.
  intros Hf Hr.
  pose proof (exists_some _ _ _ Hf) as He.
  pose proof (read_ok _ _ _ Hf Hr) as Hread.
  repeat split.
  - unfold FetchMocks.rewrite. now rewrite H.
  - unfold FetchMocks.update_test_file, FetchMocks.update_test_file_with.
    run_ok He. cbn [negb]. run_ok Hread. unfold lift at 1.
    unfold bind at 1. unfold FetchMocks.rewrite. rewrite H.
    run_ok (print_said (Already filepath) w). reflexivity.
  - unfold FixTests.rewrite. now rewrite H.
  - unfold FixTests.fix_test_file, FixTests.fix_test_file_with.
    run_ok Hread. unfold lift at 1. unfold bind at 1.
    unfold FixTests.rewrite. rewrite H. reflexivity.
  - unfold SetupAuthMocks.rewrite. now rewrite H.
  - unfold SetupAuthMocks.fix_test_file, SetupAuthMocks.fix_test_file_with.
    run_ok He. cbn [negb]. run_ok Hread. unfold lift at 1.
    unfold bind at 1. unfold SetupAuthMocks.rewrite. rewrite H.
    run_ok (print_said (Already filepath) w). reflexivity.
Qed.

Lemma C3_witness :
  FetchMocks.update_test_file "a.test.tsx" guarded_world
  = (said guarded_world [Already "a.test.tsx"%string], Ok false) /\
  FixTests.fix_test_file "a.test.tsx" guarded_world
  = (said guarded_world [Already "a.test.tsx"%string], Ok tt) /\
  SetupAuthMocks.fix_test_file "a.test.tsx" guarded_world
  = (said guarded_world [Already "a.test.tsx"%string], Ok false).
Proof.
  destruct (C3_guard_present_skips guarded_world "a.test.tsx" guarded_file
              eq_refl eq_refl) as (H1 & H2 & H3).
  split; [|split].
  - apply H1. reflexivity.
  - apply H2. reflexivity.
  - apply H3. reflexivity.
Defined.

Lemma for_each_cons (f : string -> M bool) (p : string) (rest : list string)
      (count : nat) (w w' : world) (b : bool) :
  f p w = (w', Ok b) ->
  for_each f (p :: rest) count w
  = for_each f rest (if b then S count else count) w'.
Proof. intros H. simpl. now rewrite (bind_ok _ _ _ _ _ H). Qed.

(** The claim of C4 fails for fix_resource_form_tests: with its target
    missing the script ends in an uncaught [FileNotFoundError] and prints
    nothing. *)
Lemma C4_counterexample :
  ~ missing_file_handled ResourceFormTests.script ResourceFormTests.target.
Proof.
  intros H. destruct (H empty_world eq_refl) as (w' & E & _).
  unfold ResourceFormTests.script, ResourceFormTests.script_with in E.
  rewrite (bind_raise _ _ _ _ _ (read_missing empty_world _ eq_refl)) in E.
  discriminate E.
Qed.


(** The claim of C8 fails for fix_fetch_mocks: a listed file that exists but
    cannot be read raises out of [update_test_file] and [main], and the
    process ends with a non-zero status. *)
Lemma C8_counterexample : ~ never_fails FetchMocks.main.
Proof.
  intros H. specialize (H locked_world). vm_compute in H. discriminate H.
Qed.

Lemma batch_with_cons (fix_one : string -> M unit) (p : string)
      (rest : list string) (w : world) :
  exists w', FixTests.batch_with fix_one (p :: rest) w
             = FixTests.batch_with fix_one rest w'.
Proof.
  simpl. unfold bind at 1, try_except.
  destruct (fix_one p w) as [w1 [[]|e]]; [now exists w1|].
  eexists. unfold bind, print. simpl. reflexivity.
Qed.

Lemma batch_with_ok (fix_one : string -> M unit) (paths : list string) :
  forall w, exists w', FixTests.batch_with fix_one paths w = (w', Ok tt).
Proof.
  induction paths as [|p rest IH]; intros w; [now exists w|].
  destruct (batch_with_cons fix_one p rest w) as [w1 H1].
  destruct (IH w1) as [w' H']. exists w'. now rewrite H1.
Qed.




(** C10: in [fix_test_file] of fix_setup_auth_mocks the result is that of
    the first pattern when it changes the content; only when pattern 1
    changes nothing is it that of pattern 2, and only when patterns 1 and 2
    change nothing is it that of pattern 3.  So the inserted line comes from
    one pattern only. *)
Theorem C10_ordered_fallback (content : str) :
  let r1 := re_sub SetupAuthMocks.pattern1 content in
  let r2 := re_sub SetupAuthMocks.pattern2 content in
  let r3 := re_sub SetupAuthMocks.pattern3 content in
  (r1 <> content /\ SetupAuthMocks.insert_setup content = r1) \/
  (r1 = content /\ r2 <> content /\
   SetupAuthMocks.insert_setup content = r2) \/
  (r1 = content /\ r2 = content /\
   SetupAuthMocks.insert_setup content = r3).
Proof.
  cbv zeta. unfold SetupAuthMocks.insert_setup. cbv zeta.
  destruct (str_eqb (re_sub SetupAuthMocks.pattern1 content) content) eqn:E1.
  - apply str_eqb_eq in E1. rewrite !E1. right.
    destruct (str_eqb (re_sub SetupAuthMocks.pattern2 content) content) eqn:E2.
    + apply str_eqb_eq in E2. rewrite !E2. right. now repeat split.
    + left. split; [reflexivity|]. split; [|reflexivity].
      intros H. apply str_eqb_eq in H. congruence.
  - rewrite E1. left. split; [|reflexivity].
    intros H. apply str_eqb_eq in H. congruence.
Qed.

(** C7 fails on the code: the block of [unclosed_block] never brings the
    count back to zero, and its lines and every line behind them are
    missing from what fix_resource_form_tests writes; in the same way
    fix_tests drops every line behind a [createWrapper] whose count never
    falls below zero. *)
Theorem C7_block_lines_lost :
  ResourceFormTests.outer unclosed_block
  = [lit "beforeEach(() => {";
     lit "  const mockFetch = vi.fn().mockImplementation(() => {"] /\
  ResourceFormTests.fix_content (join_lines unclosed_block)
  = join_lines
      [lit "beforeEach(() => {";
       lit "  const mockFetch = vi.fn().mockImplementation(() => {"] /\
  FixTests.fix_content (join_lines unclosed_wrapper)
  = join_lines
      [lit "import { vi } from 'vitest';";
       lit "import { createTestWrapper, setupAuthMocks } from '../../test/testUtils';"].
Proof. vm_compute. repeat split. Qed.

(** ** fix_fetch_mocks.py: the rewrite *)

Lemma literal_positive (old new : str) : old <> [] -> positive (literal old new).
Proof.
  intros Ho s n rep. unfold literal. destruct (prefixb old s); [|discriminate].
  intros H. injection H as <- _. destruct old; [congruence|simpl; lia].
Qed.

Lemma replace_contains (old new w s : str) :
  old <> [] -> contains w new = true -> contains old s = true ->
  contains w (replace old new s) = true.
Proof.
  intros Ho Hw. unfold replace.
  apply (re_sub_scan (literal old new) (literal_positive old new Ho)
           (fun s o => contains old s = true -> contains w o = true)).
  - simpl. rewrite orb_false_r. destruct old; [congruence|discriminate].
  - intros c r Hn IH H. simpl in H. unfold literal in Hn.
    destruct (prefixb old (c :: r)); [discriminate|]. simpl in H.
    now apply (contains_app_r w [c]), IH.
  - intros c r n rep Hs _ _. unfold literal in Hs.
    destruct (prefixb old (c :: r)); [|discriminate].
    injection Hs as _ <-. now apply contains_app_l.
Qed.

Lemma prefixb_firstn (p s : str) :
  prefixb p s = true -> firstn (length p) s = p.
Proof. rewrite prefixb_spec. intros [x ->]. apply firstn_exact. Qed.

(** The matched import statement holds [setupAuthMocks]. *)
Lemma match_import_contains (s : str) (n : nat) :
  FetchMocks.match_import s = Some n ->
  1 <= n /\ contains FetchMocks.setupAuthMocks (firstn n s) = true.
Proof.
  unfold FetchMocks.match_import. cbv zeta.
  destruct (prefixb (lit "import") s) eqn:Hp; [|discriminate].
  apply prefixb_skipn in Hp. change (length (lit "import")) with 6 in Hp.
  remember (skipn 6 s) as r eqn:Er.
  pose proof (take_while_prefix is_space r) as Hws.
  remember (take_while is_space r) as ws eqn:Ews.
  remember (skipn (length ws) r) as r1 eqn:Er1.
  destruct ws as [|w0 ws]; [discriminate|].
  destruct r1 as [|c r2]; [discriminate|].
  destruct (N.eqb c 123); [|discriminate].
  pose proof (take_while_prefix FetchMocks.not_brace r2) as Hb.
  remember (take_while FetchMocks.not_brace r2) as body eqn:Ebody.
  remember (skipn (length body) r2) as r3 eqn:Er3.
  destruct r3 as [|c' r3]; [discriminate|].
  destruct (contains FetchMocks.setupAuthMocks body) eqn:Hc; [|discriminate].
  intros H. injection H as <-. split; [lia|].
  clear Er Ews Er1 Ebody Er3. subst r2 r s.
  replace (lit "import" ++ (w0 :: ws) ++ c :: body ++ c' :: r3)
    with ((lit "import" ++ (w0 :: ws) ++ [c]) ++ body ++ c' :: r3)
    by (now rewrite <- !app_assoc).
  assert (Hl : length (lit "import" ++ (w0 :: ws) ++ [c]) = 8 + length ws).
  { rewrite !length_app. change (length (lit "import")) with 6.
    simpl length. lia. }
  rewrite firstn_app, Hl.
  rewrite firstn_all2 by (rewrite Hl; lia).
  apply contains_app_r. rewrite firstn_app. apply contains_app_l.
  rewrite firstn_all2 by lia. exact Hc.
Qed.

Lemma import_pattern_positive : positive FetchMocks.import_pattern.
Proof.
  intros s n rep. unfold FetchMocks.import_pattern.
  destruct (FetchMocks.match_import s) as [k|] eqn:E; [|discriminate].
  intros H. injection H as <- _. now apply match_import_contains in E.
Qed.

Lemma pattern_inv (t : str) (n : nat) (rep : str) :
  FetchMocks.pattern t = Some (n, rep) ->
  n = length FetchMocks.reset_call /\
  prefixb FetchMocks.reset_call t = true /\
  FetchMocks.followed_by_wrap (skipn (length FetchMocks.reset_call) t) = false /\
  rep = FetchMocks.reset_call ++ NL :: lit "    wrapFetchMock(mockFetch);".
Proof.
  unfold FetchMocks.pattern.
  destruct (prefixb FetchMocks.reset_call t) eqn:Hp; [|discriminate].
  destruct (FetchMocks.followed_by_wrap _) eqn:Hf; [discriminate|].
  simpl andb. cbv iota. intros H.
  unfold FetchMocks.add_wrap_after_reset in H.
  rewrite (prefixb_firstn _ _ Hp) in H. injection H as <- <-.
  repeat split.
Qed.

Lemma pattern_positive : positive FetchMocks.pattern.
Proof.
  intros s n rep H. apply pattern_inv in H. destruct H as (-> & _).
  vm_compute. lia.
Qed.

(** A changed content holds [wrapFetchMock]. *)
Lemma rewrite_changed (content c : str) :
  FetchMocks.rewrite content = inr c ->
  c = content \/ contains FetchMocks.wrapFetchMock c = true.
Proof.
  unfold FetchMocks.rewrite.
  destruct (contains FetchMocks.wrapFetchMock content); [discriminate|].
  destruct (negb (contains FetchMocks.mockFetch content)); [discriminate|].
  destruct (negb (contains FetchMocks.setupAuthMocks content));
    [discriminate|].
  intros H. injection H as <-.
  destruct (re_sub_changed FetchMocks.pattern pattern_positive
              FetchMocks.wrapFetchMock
              (re_sub FetchMocks.import_pattern content)) as [H2 | H2].
  - intros t n rep H. apply pattern_inv in H. destruct H as (_ & _ & _ & ->).
    right. apply contains_app_r. vm_compute. reflexivity.
  - rewrite H2.
    apply (re_sub_changed FetchMocks.import_pattern import_pattern_positive).
    intros t n rep. unfold FetchMocks.import_pattern.
    destruct (FetchMocks.match_import t) as [k|] eqn:E; [|discriminate].
    intros H. injection H as <- <-. unfold FetchMocks.add_wrap_to_import.
    destruct (contains FetchMocks.wrapFetchMock (firstn k t)); [now left|].
    right. simpl negb. cbv iota. apply replace_contains.
    + discriminate.
    + vm_compute. reflexivity.
    + now apply match_import_contains in E.
  - now right.
Qed.

Lemma transform_idempotent (content : str) :
  FetchMocks.transform (FetchMocks.transform content)
  = FetchMocks.transform content.
Proof.
  destruct (FetchMocks.rewrite content) as [r | c] eqn:E.
  - assert (Ht : FetchMocks.transform content = content)
      by (unfold FetchMocks.transform; now rewrite E).
    now rewrite !Ht.
  - assert (Ht : FetchMocks.transform content = c)
      by (unfold FetchMocks.transform; now rewrite E).
    rewrite Ht. destruct (rewrite_changed _ _ E) as [-> | H]; [exact Ht|].
    unfold FetchMocks.transform, FetchMocks.rewrite. rewrite H. reflexivity.
Qed.

(** ** The rule after [mockFetch.mockReset();] on its own *)

Lemma drop_while_app_stop (f : char -> bool) (a x : str) (c : char) :
  f c = false -> drop_while f (a ++ c :: x) = drop_while f a ++ c :: x.
Proof.
  intros Hc. induction a as [|d a IH]; simpl; [now rewrite Hc|].
  now destruct (f d).
Qed.

Lemma prefixb_app_eq (w b x : str) :
  length w <= length b -> prefixb w (b ++ x) = prefixb w b.
Proof.
  revert b. induction w as [|d w IH]; intros b H; [reflexivity|].
  destruct b as [|e b]; [simpl in H; lia|]. simpl in *.
  rewrite IH by lia. reflexivity.
Qed.

(** A text that lacks [c] cannot run over a [c]. *)
Lemma prefixb_blocked (w b x : str) (c : char) :
  forallb (fun d => negb (N.eqb d c)) w = true -> length b < length w ->
  prefixb w (b ++ c :: x) = false.
Proof.
  revert b. induction w as [|d w IH]; intros b Hw Hl; [simpl in Hl; lia|].
  simpl in Hw. apply andb_true_iff in Hw. destruct Hw as [Hd Hw].
  destruct b as [|e b]; simpl.
  - apply negb_true_iff in Hd. now rewrite Hd.
  - simpl in Hl. rewrite IH by (assumption || lia). apply andb_false_r.
Qed.

(** The lookahead does not see past the [m] of a following reset call. *)
Lemma followed_by_wrap_context (a x y : str) :
  FetchMocks.followed_by_wrap (a ++ 109%N :: x)
  = FetchMocks.followed_by_wrap (a ++ 109%N :: y).
Proof.
  unfold FetchMocks.followed_by_wrap.
  rewrite !(drop_while_app_stop is_space a _ 109%N) by reflexivity.
  set (b := drop_while is_space a).
  destruct (le_lt_dec (length FetchMocks.wrapFetchMock) (length b)) as [H | H].
  - now rewrite !prefixb_app_eq.
  - rewrite !prefixb_blocked; try reflexivity; exact H.
Qed.

Lemma pattern_intro (s : str) :
  prefixb FetchMocks.reset_call s = true ->
  FetchMocks.followed_by_wrap (skipn (length FetchMocks.reset_call) s) = false ->
  FetchMocks.pattern s
  = Some (length FetchMocks.reset_call,
          FetchMocks.reset_call ++ NL :: lit "    wrapFetchMock(mockFetch);").
Proof.
  intros Hp Hf. unfold FetchMocks.pattern. rewrite Hp, Hf. simpl andb.
  cbv iota. unfold FetchMocks.add_wrap_after_reset.
  now rewrite (prefixb_firstn _ _ Hp).
Qed.

Lemma pattern_bounded : bounded FetchMocks.pattern.
Proof.
  intros s n rep H. apply pattern_inv in H. destruct H as (-> & Hp & _).
  now apply prefixb_length.
Qed.

Lemma reset_overlaps :
  overlaps FetchMocks.reset_call FetchMocks.reset_call = false.
Proof. vm_compute. reflexivity. Qed.

(** A reset call that starts before another one ends before it. *)
Lemma pattern_apart (u x : str) (n : nat) (rep : str) :
  u <> [] ->
  FetchMocks.pattern (u ++ FetchMocks.reset_call ++ x) = Some (n, rep) ->
  n <= length u.
Proof.
  intros Hu H. apply pattern_inv in H. destruct H as (-> & Hp & _).
  destruct (le_lt_dec (length FetchMocks.reset_call) (length u)) as [Hle | Hlt];
    [exact Hle|].
  destruct (prefixb_app_short _ _ _ Hp Hlt) as [H1 _].
  apply prefixb_compat in H1.
  rewrite (overlaps_false _ _ _ reset_overlaps) in H1; [discriminate|].
  destruct u; [congruence|simpl in *; lia].
Qed.

Lemma pattern_clean (s : str) :
  clean FetchMocks.pattern (re_sub FetchMocks.pattern s).
Proof.
  apply re_sub_cleans;
    [exact pattern_positive | exact pattern_bounded | exact pattern_positive
    | | | | apply ready_same].
  - intros t n rep u v n' rep' Ht H Hn.
    apply pattern_inv in Ht. destruct Ht as (_ & Hpt & _ & ->).
    apply pattern_inv in H. destruct H as (-> & Hp & Hf & ->).
    apply prefixb_skipn in Hpt.
    apply pattern_intro.
    + rewrite prefixb_app_eq by exact Hn.
      now apply (prefixb_app_long _ _ _ Hp).
    + rewrite skipn_within in Hf |- * by exact Hn.
      rewrite <- Hf, Hpt. rewrite <- !app_assoc.
      apply followed_by_wrap_context.
  - intros t n rep u v n' rep' Ht H.
    apply pattern_inv in Ht. destruct Ht as (_ & _ & _ & ->).
    destruct u as [|c u].
    + apply pattern_inv in H. destruct H as (_ & _ & Hf & _).
      vm_compute in Hf. discriminate Hf.
    + left. rewrite <- app_assoc in H.
      refine (pattern_apart (c :: u) _ n' rep' _ H). discriminate.
  - intros t n rep r1 r2 v Ht E Hr1 Hr2 n' rep' H.
    apply pattern_inv in Ht. destruct Ht as (_ & _ & _ & ->).
    apply pattern_inv in H. destruct H as (_ & Hp & _).
    apply app_eq_app in E. destruct E as [l [[E1 E2] | [E1 E2]]].
    + destruct l as [|x l].
      * rewrite app_nil_r in E1. simpl in E2. subst r2.
        simpl in Hp. discriminate Hp.
      * rewrite E2, <- app_assoc in Hp. apply prefixb_compat in Hp.
        assert (Hs' : skipn (length r1) FetchMocks.reset_call = x :: l)
          by (rewrite E1; apply skipn_exact).
        rewrite <- Hs', (starts_in_false 1) in Hp;
          [discriminate|vm_compute; reflexivity|].
        rewrite E1, length_app. simpl. destruct r1; [congruence|simpl; lia].
    + assert (Hfree : prefixb FetchMocks.reset_call (r2 ++ v) = false).
      { apply (free_of_suffix FetchMocks.reset_call []
                 [Fix (NL :: lit "    wrapFetchMock(mockFetch);")]
                 eq_refl eq_refl eq_refl l r2 v); [|exact Hr2].
        rewrite <- E2. reflexivity. }
      congruence.
Qed.

Lemma pattern_idempotent (s : str) :
  re_sub FetchMocks.pattern (re_sub FetchMocks.pattern s)
  = re_sub FetchMocks.pattern s.
Proof. apply (re_sub_clean _ pattern_positive), pattern_clean. Qed.

Lemma reset_in_context (pre post : str) :
  FetchMocks.followed_by_wrap post = false ->
  exists pre',
    re_sub FetchMocks.pattern (pre ++ FetchMocks.reset_call ++ post)
    = pre' ++ (FetchMocks.reset_call
               ++ NL :: lit "    wrapFetchMock(mockFetch);")
           ++ re_sub FetchMocks.pattern post.
Proof.
  intros Hf.
  destruct (re_sub_prefix FetchMocks.pattern pattern_positive pre
              (FetchMocks.reset_call ++ post)) as [pre' Hpre].
  - intros a1 a2 n rep _ Ha H. exact (pattern_apart a2 post n rep Ha H).
  - exists pre'. rewrite Hpre. f_equal.
    apply (re_sub_match FetchMocks.pattern pattern_positive);
      [discriminate|].
    apply pattern_intro; [apply prefixb_app|now rewrite skipn_exact].
Qed.


(** C1: rewriting twice gives what rewriting once gives: for the pagination
    wrapping of fix_mock_responses, for the content fix_fetch_mocks leaves
    in a file, and for its substitution after [mockFetch.mockReset();] taken
    alone. *)
Theorem C1_rewrite_idempotent :
  (forall content,
     wrap_array_in_paginated_response
       (wrap_array_in_paginated_response content)
     = wrap_array_in_paginated_response content) /\
  (forall content,
     FetchMocks.transform (FetchMocks.transform content)
     = FetchMocks.transform content) /\
  (forall content,
     re_sub FetchMocks.pattern (re_sub FetchMocks.pattern content)
     = re_sub FetchMocks.pattern content).
Proof.
  split; [exact wrap_idempotent|].
  split; [exact transform_idempotent | exact pattern_idempotent].
Qed.

Lemma no_call_site_absent (head content : str) :
  (forall a name b, is_name name = true ->
                    content <> a ++ head ++ name ++ lit "))" ++ b) ->
  absent (call_matcher head) content.
Proof.
  intros H a t E. destruct (call_matcher head t) as [[n rep]|] eqn:Em;
    [|reflexivity].
  apply call_matcher_inv in Em. destruct Em as (name & Hm & _ & _).
  destruct (match_call_inv _ _ _ Hm) as (_ & _ & Hn & _).
  apply match_call_text in Hm. rewrite Hm in E. now apply H in E.
Qed.

(** C2: a content with no call site of the two matched shapes comes out of
    [wrap_array_in_paginated_response] unchanged, and a content without
    [mockFetch] is left as it is by fix_fetch_mocks, which then writes
    nothing. *)
Theorem C2_no_trigger_no_change (body : str) :
  ((forall head a name b,
      head = head1 \/ head = head2 -> is_name name = true ->
      body <> a ++ head ++ name ++ lit "))" ++ b) ->
   wrap_array_in_paginated_response body = body) /\
  (contains FetchMocks.mockFetch body = false ->
   FetchMocks.transform body = body /\
   forall w filepath, files w filepath = Some (mkFile body true true) ->
     files (fst (FetchMocks.update_test_file filepath w)) = files w).
Proof.
  split.
  - intros H. unfold wrap_array_in_paginated_response, pattern1, pattern2.
    rewrite (re_sub_clean (call_matcher head1) (call_matcher_positive head1)).
    + apply (re_sub_clean (call_matcher head2) (call_matcher_positive head2)).
      apply absent_clean, no_call_site_absent. intros a name b.
      apply H. now right.
    + apply absent_clean, no_call_site_absent. intros a name b.
      apply H. now left.
  - intros H.
    assert (Hr : FetchMocks.rewrite body = inl FetchMocks.AlreadyUpdated \/
                 FetchMocks.rewrite body = inl FetchMocks.NoMockFetch).
    { unfold FetchMocks.rewrite. rewrite H.
      destruct (contains FetchMocks.wrapFetchMock body); [now left|].
      now right. }
    split.
    + unfold FetchMocks.transform. now destruct Hr as [-> | ->].
    + intros w filepath Hf.
      unfold FetchMocks.update_test_file, FetchMocks.update_test_file_with.
      run_ok (exists_some _ _ _ Hf). cbn [negb].
      run_ok (read_ok _ _ _ Hf eq_refl). unfold lift at 1. unfold bind at 1.
      cbn [content]. destruct Hr as [-> | ->]; reflexivity.
Qed.

Lemma C2_witness :
  wrap_array_in_paginated_response (lit "expect(x);") = lit "expect(x);" /\
  FetchMocks.transform (lit "expect(x);") = lit "expect(x);".
Proof.
  destruct (C2_no_trigger_no_change (lit "expect(x);")) as [H1 H2].
  split.
  - apply H1. intros head a name b Hh _ E.
    apply (f_equal (@length char)) in E. rewrite !length_app in E.
    change (length (lit "expect(x);")) with 10 in E.
    destruct Hh as [-> | ->];
      [change (length head1) with 47 in E | change (length head2) with 35 in E];
      lia.
  - apply H2. reflexivity.
Defined.

(** * Further properties of the scripts *)

(** ** Lines *)

Lemma split_lines_aux_nonempty (cur s : str) : split_lines_aux cur s <> [].
Proof.
  revert cur. induction s as [|c r IH]; intros cur; simpl; [discriminate|].
  destruct (N.eqb c NL); [discriminate|apply IH].
Qed.

Lemma join_split_aux (cur s : str) :
  join_lines (split_lines_aux cur s) = rev cur ++ s.
Proof.
  revert cur. induction s as [|c r IH]; intros cur.
  - simpl. now rewrite app_nil_r.
  - cbn [split_lines_aux]. destruct (N.eqb c NL) eqn:E.
    + apply N.eqb_eq in E. subst c.
      pose proof (split_lines_aux_nonempty [] r) as Hne.
      pose proof (IH []) as H0. change (rev [] ++ r) with r in H0.
      destruct (split_lines_aux [] r) as [|l ls]; [congruence|].
      change (join_lines (rev cur :: l :: ls))
        with (rev cur ++ NL :: join_lines (l :: ls)).
      now rewrite H0.
    + rewrite IH. simpl rev. now rewrite <- app_assoc.
Qed.

(** ['\n'.join(s.split('\n')) == s] *)
Lemma join_split (s : str) : join_lines (split_lines s) = s.
Proof. apply (join_split_aux [] s). Qed.

Lemma join_lines_in (l : str) (ls : list str) :
  In l ls -> exists a b, join_lines ls = a ++ l ++ b.
Proof.
  induction ls as [|x xs IH]; intros H; [destruct H|].
  destruct H as [-> | H].
  - destruct xs as [|y ys].
    + exists [], []. simpl. now rewrite app_nil_r.
    + exists [], (NL :: join_lines (y :: ys)). reflexivity.
  - destruct (IH H) as (a & b & E). destruct xs as [|y ys]; [destruct H|].
    exists (x ++ NL :: a), b.
    change (join_lines (x :: y :: ys)) with (x ++ NL :: join_lines (y :: ys)).
    rewrite E. now rewrite <- app_assoc.
Qed.

(** What a line holds, the text holds. *)
Lemma contains_line (p s l : str) :
  In l (split_lines s) -> contains p l = true -> contains p s = true.
Proof.
  intros Hin Hc. apply join_lines_in in Hin. destruct Hin as (a & b & E).
  rewrite join_split in E. rewrite E.
  now apply contains_app_r, contains_app_l.
Qed.

(** ** fix_resource_form_tests.py without its trigger *)

Lemma outer_quiet (lines : list str) :
  Forall (fun l =>
            contains (lit "global.fetch = vi.fn().mockImplementation") l
            = false) lines ->
  ResourceFormTests.outer lines = lines.
Proof.
  induction 1 as [|line rest H _ IH]; [reflexivity|].
  cbn [ResourceFormTests.outer]. rewrite H. now rewrite IH.
Qed.

Lemma write_ok (w : world) (filepath : string) (f : file) (t : str) :
  files w filepath = Some f -> writable f = true ->
  write_file filepath t w
  = (mkWorld (store filepath (mkFile t (readable f) true) (files w))
             (console w), Ok tt).
Proof. intros H Hw. unfold write_file. now rewrite H, Hw. Qed.

Lemma write_denied (w : world) (filepath : string) (f : file) (t : str) :
  files w filepath = Some f -> writable f = false ->
  write_file filepath t w = (w, Raise PermissionError).
Proof. intros H Hw. unfold write_file. now rewrite H, Hw. Qed.

Lemma store_same (filepath : string) (f : file) (d : fs) :
  store filepath f d filepath = Some f.
Proof. unfold store. now rewrite String.eqb_refl. Qed.

Lemma store_other (filepath q : string) (f : file) (d : fs) :
  q <> filepath -> store filepath f d q = d q.
Proof.
  intros H. unfold store. apply String.eqb_neq in H. now rewrite H.
Qed.

Lemma quiet_lines (p s : str) :
  contains p s = false ->
  Forall (fun l => contains p l = false) (split_lines s).
Proof.
  intros H. apply Forall_forall. intros l Hin.
  destruct (contains p l) eqn:E; [|reflexivity].
  rewrite (contains_line p s l Hin E) in H. discriminate.
Qed.

(** X1: without the text [global.fetch = vi.fn().mockImplementation] in its
    target, fix_resource_form_tests computes the content it read, writes it
    back, and leaves every other file alone. *)
Theorem X1_resource_form_without_trigger (w : world) (f : file) :
  files w ResourceFormTests.target = Some f ->
  readable f = true -> writable f = true ->
  contains (lit "global.fetch = vi.fn().mockImplementation") (content f)
  = false ->
  ResourceFormTests.fix_content (content f) = content f /\
  exists w',
    ResourceFormTests.script w = (w', Ok tt) /\
    files w' ResourceFormTests.target = Some f /\
    (forall q, q <> ResourceFormTests.target -> files w' q = files w q) /\
    console w' = console w ++ [Finished].
Proof.
  intros Hf Hr Hw Hc.
  assert (Hfix : ResourceFormTests.fix_content (content f) = content f).
  { unfold ResourceFormTests.fix_content.
    rewrite (outer_quiet _ (quiet_lines _ _ Hc)). apply join_split. }
  split; [exact Hfix|].
  eexists. split.
  - unfold ResourceFormTests.script, ResourceFormTests.script_with.
    run_ok (read_ok _ _ _ Hf Hr). unfold lift at 1. unfold bind at 1.
    rewrite Hfix. run_ok (write_ok _ _ _ (content f) Hf Hw).
    rewrite print_said. reflexivity.
  - cbn [files console said]. split; [|split].
    + rewrite store_same, Hr. destruct f as [c r wr]. simpl in *.
      now subst.
    + intros q Hq. now apply store_other.
    + reflexivity.
Qed.

Lemma X1_witness :
  ResourceFormTests.fix_content (content plain_file) = content plain_file /\
  exists w',
    ResourceFormTests.script plain_world = (w', Ok tt) /\
    files w' ResourceFormTests.target = Some plain_file /\
    (forall q, q <> ResourceFormTests.target ->
               files w' q = files plain_world q) /\
    console w' = console plain_world ++ [Finished].
Proof.
  apply (X1_resource_form_without_trigger plain_world plain_file);
    reflexivity.
Defined.

(** ** Which files a run can touch *)

Lemma touches_bind {A B} (paths : list string) (c : M A) (k : A -> M B) :
  touches_within paths c -> (forall a, touches_within paths (k a)) ->
  touches_within paths (bind c k).
Proof.
  intros Hc Hk w q Hq. unfold bind. specialize (Hc w q Hq).
  destruct (c w) as [w1 [a|e]]; simpl in *.
  - now rewrite (Hk a w1 q Hq).
  - exact Hc.
Qed.

Lemma touches_try {A} (paths : list string) (c : M A) (h : exn -> M A) :
  touches_within paths c -> (forall e, touches_within paths (h e)) ->
  touches_within paths (try_except c h).
Proof.
  intros Hc Hh w q Hq. unfold try_except. specialize (Hc w q Hq).
  destruct (c w) as [w1 [a|e]]; simpl in *.
  - exact Hc.
  - now rewrite (Hh e w1 q Hq).
Qed.

Lemma touches_ret {A} (paths : list string) (a : A) :
  touches_within paths (ret a).
Proof. intros w q _. reflexivity. Qed.

Lemma touches_lift {A} (paths : list string) (r : result A) :
  touches_within paths (lift r).
Proof. intros w q _. reflexivity. Qed.

Lemma touches_print (paths : list string) (r : report) :
  touches_within paths (print r).
Proof. intros w q _. reflexivity. Qed.

Lemma touches_exists (paths : list string) (p : string) :
  touches_within paths (path_exists p).
Proof. intros w q _. reflexivity. Qed.

Lemma touches_read (paths : list string) (p : string) :
  touches_within paths (read_file p).
Proof.
  intros w q _. unfold read_file.
  destruct (files w p) as [f|]; [destruct (readable f)|]; reflexivity.
Qed.

Lemma touches_write (paths : list string) (p : string) (t : str) :
  In p paths -> touches_within paths (write_file p t).
Proof.
  intros Hp w q Hq. unfold write_file.
  assert (q <> p) by (intros ->; contradiction).
  destruct (files w p) as [f|]; [destruct (writable f)|]; simpl;
    try reflexivity; now apply store_other.
Qed.

Lemma touches_more {A} (ps qs : list string) (c : M A) :
  incl ps qs -> touches_within ps c -> touches_within qs c.
Proof. intros Hi Hc w q Hq. apply Hc. intros H. apply Hq, Hi, H. Qed.

Ltac touches :=
  repeat first
    [ apply touches_bind; [|intros ?]
    | apply touches_ret | apply touches_lift | apply touches_print
    | apply touches_exists | apply touches_read
    | apply touches_write; now left
    | match goal with |- touches_within _ (if ?b then _ else _) =>
        destruct b end
    | match goal with |- touches_within _ (match ?x with _ => _ end) =>
        destruct x end ].

Lemma touches_for_each (f : string -> M bool) (paths : list string) :
  (forall p, touches_within [p] (f p)) ->
  forall count, touches_within paths (for_each f paths count).
Proof.
  intros Hf. induction paths as [|p rest IH]; intros count; simpl.
  - apply touches_ret.
  - apply touches_bind.
    + apply (touches_more [p]); [|apply Hf].
      intros x [-> | []]. now left.
    + intros b. apply (touches_more rest); [|apply IH].
      intros x Hx. now right.
Qed.

(** X2: whatever the in-memory step returns or raises, a per-file function
    changes no file but the one it was given, and a run over a list of paths
    changes no file outside the list. *)
Theorem X2_only_listed_files_touched :
  (forall step p, touches_within [p]
                    (FetchMocks.update_test_file_with step p)) /\
  (forall step p, touches_within [p]
                    (MockResponses.update_test_file_with step p)) /\
  (forall step p, touches_within [p]
                    (SetupAuthMocks.fix_test_file_with step p)) /\
  (forall step p, touches_within [p] (FixTests.fix_test_file_with step p)) /\
  (forall step, touches_within [ResourceFormTests.target]
                  (ResourceFormTests.script_with step)) /\
  (forall paths, touches_within paths (FetchMocks.main_on paths)) /\
  (forall paths, touches_within paths (MockResponses.main_on paths)) /\
  (forall paths, touches_within paths (SetupAuthMocks.main_on paths)) /\
  (forall paths, touches_within paths (FixTests.batch paths)).
Proof.
  assert (H1 : forall step p, touches_within [p]
                 (FetchMocks.update_test_file_with step p))
    by (intros; unfold FetchMocks.update_test_file_with; touches).
  assert (H2 : forall step p, touches_within [p]
                 (MockResponses.update_test_file_with step p))
    by (intros; unfold MockResponses.update_test_file_with; touches).
  assert (H3 : forall step p, touches_within [p]
                 (SetupAuthMocks.fix_test_file_with step p))
    by (intros; unfold SetupAuthMocks.fix_test_file_with; touches).
  assert (H4 : forall step p, touches_within [p]
                 (FixTests.fix_test_file_with step p))
    by (intros; unfold FixTests.fix_test_file_with; touches).
  repeat split; try assumption.
  - intros. unfold ResourceFormTests.script_with. touches.
  - intros. unfold FetchMocks.main_on. touches.
    apply touches_for_each. intros. apply H1.
  - intros. unfold MockResponses.main_on. touches.
    apply touches_for_each. intros. apply H2.
  - intros. unfold SetupAuthMocks.main_on. touches.
    apply touches_for_each. intros. apply H3.
  - intros paths. unfold FixTests.batch.
    induction paths as [|p rest IH]; simpl; [apply touches_ret|].
    apply touches_bind.
    + apply (touches_more [p]); [intros x [-> | []]; now left|].
      apply touches_try; [apply H4|]. intros e. touches.
    + intros _. apply (touches_more rest); [|exact IH].
      intros x Hx. now right.
Qed.

(** ** What one call does to its file *)

Lemma str_eqb_refl (a : str) : str_eqb a a = true.
Proof. now apply str_eqb_eq. Qed.

Lemma str_eqb_neq (a b : str) : a <> b -> str_eqb a b = false.
Proof.
  intros H. destruct (str_eqb a b) eqn:E; [|reflexivity].
  apply str_eqb_eq in E. contradiction.
Qed.

Lemma mock_update_run (w : world) (p : string) (f : file) :
  files w p = Some f -> readable f = true ->
  MockResponses.update_test_file p w =
  if str_eqb (wrap_array_in_paginated_response (content f)) (content f)
  then (said w [NoChanges p], Ok false)
  else if writable f
       then (written w p (wrap_array_in_paginated_response (content f)),
             Ok true)
       else (w, Raise PermissionError).
Proof.
  intros Hf Hr.
  unfold MockResponses.update_test_file, MockResponses.update_test_file_with.
  run_ok (exists_some _ _ _ Hf). cbn [negb]. run_ok (read_ok _ _ _ Hf Hr).
  unfold lift at 1. unfold bind at 1.
  destruct (str_eqb _ (content f)); cbn [negb].
  - run_ok (print_said (NoChanges p) w). reflexivity.
  - destruct (writable f) eqn:Hw.
    + run_ok (write_ok _ _ _ (wrap_array_in_paginated_response (content f))
                Hf Hw).
      rewrite Hr. unfold bind, print, ret, written, said. reflexivity.
    + now rewrite (bind_raise _ _ _ _ _ (write_denied _ _ _ _ Hf Hw)).
Qed.

Lemma fetch_update_run (w : world) (p : string) (f : file) :
  files w p = Some f -> readable f = true ->
  FetchMocks.update_test_file p w =
  match FetchMocks.rewrite (content f) with
  | inl FetchMocks.AlreadyUpdated => (said w [Already p], Ok false)
  | inl FetchMocks.NoMockFetch => (said w [NoMockFetchFound p], Ok false)
  | inl FetchMocks.NoSetupAuthMocks =>
      (said w [NoSetupAuthMocksImport p], Ok false)
  | inr c =>
      if str_eqb c (content f) then (said w [NoChanges p], Ok false)
      else if writable f then (written w p c, Ok true)
           else (w, Raise PermissionError)
  end.
Proof.
  intros Hf Hr.
  unfold FetchMocks.update_test_file, FetchMocks.update_test_file_with.
  run_ok (exists_some _ _ _ Hf). cbn [negb]. run_ok (read_ok _ _ _ Hf Hr).
  unfold lift at 1. unfold bind at 1.
  destruct (FetchMocks.rewrite (content f)) as [[]|c].
  - run_ok (print_said (Already p) w). reflexivity.
  - run_ok (print_said (NoMockFetchFound p) w). reflexivity.
  - run_ok (print_said (NoSetupAuthMocksImport p) w). reflexivity.
  - destruct (str_eqb c (content f)); cbn [negb].
    + run_ok (print_said (NoChanges p) w). reflexivity.
    + destruct (writable f) eqn:Hw.
      * run_ok (write_ok _ _ _ c Hf Hw).
        rewrite Hr. unfold bind, print, ret, written, said. reflexivity.
      * now rewrite (bind_raise _ _ _ _ _ (write_denied _ _ _ _ Hf Hw)).
Qed.

(** X3: run on a file it can read and write, [update_test_file] of
    fix_mock_responses ends normally, and a second run on the result finds
    nothing to change and reports that. *)
Theorem X3_mock_responses_second_run (w : world) (p : string) (f : file) :
  files w p = Some f -> readable f = true -> writable f = true ->
  exists w1 b,
    MockResponses.update_test_file p w = (w1, Ok b) /\
    MockResponses.update_test_file p w1 = (said w1 [NoChanges p], Ok false).
Proof.
  intros Hf Hr Hw. rewrite (mock_update_run w p f Hf Hr), Hw.
  destruct (str_eqb _ (content f)) eqn:E.
  - exists (said w [NoChanges p]), false. split; [reflexivity|].
    rewrite (mock_update_run (said w [NoChanges p]) p f Hf Hr). now rewrite E.
  - eexists. exists true. split; [reflexivity|].
    rewrite (mock_update_run _ p
               (mkFile (wrap_array_in_paginated_response (content f))
                       true true)); [|apply store_same|reflexivity].
    cbn [content]. now rewrite wrap_idempotent, str_eqb_refl.
Qed.

Lemma X3_witness :
  exists w1 b,
    MockResponses.update_test_file
      "emf-ui/app/src/pages/RolesPage/RolesPage.test.tsx" mocked_world
    = (w1, Ok b) /\
    MockResponses.update_test_file
      "emf-ui/app/src/pages/RolesPage/RolesPage.test.tsx" w1
    = (said w1 [NoChanges
                  "emf-ui/app/src/pages/RolesPage/RolesPage.test.tsx"%string],
       Ok false).
Proof.
  apply (X3_mock_responses_second_run mocked_world _ mocked_file);
    reflexivity.
Defined.

(** X4: when [update_test_file] of fix_fetch_mocks has something to change in a
    file it can read and write, it writes the new content and returns true;
    the new content holds [wrapFetchMock], and a second run reports the file
    as already updated and returns false. *)
Theorem X4_fetch_mocks_second_run (w : world) (p : string) (f : file) :
  files w p = Some f -> readable f = true -> writable f = true ->
  FetchMocks.transform (content f) <> content f ->
  let w1 := written w p (FetchMocks.transform (content f)) in
  FetchMocks.update_test_file p w = (w1, Ok true) /\
  contains FetchMocks.wrapFetchMock (FetchMocks.transform (content f)) = true /\
  FetchMocks.update_test_file p w1 = (said w1 [Already p], Ok false).
Proof.
  intros Hf Hr Hw Hc. cbv zeta.
  rewrite (fetch_update_run w p f Hf Hr). unfold FetchMocks.transform in *.
  destruct (FetchMocks.rewrite (content f)) as [r|c] eqn:E; [congruence|].
  rewrite (str_eqb_neq _ _ Hc), Hw.
  destruct (rewrite_changed _ _ E) as [-> | Hin]; [congruence|].
  split; [reflexivity|]. split; [exact Hin|].
  rewrite (fetch_update_run _ p (mkFile c true true));
    [|apply store_same|reflexivity].
  cbn [content]. unfold FetchMocks.rewrite. now rewrite Hin.
Qed.

Lemma mocked_changes :
  FetchMocks.transform (content mocked_file) <> content mocked_file.
Proof. intros H. apply str_eqb_eq in H. vm_compute in H. discriminate H. Qed.

Lemma X4_witness :
  let p := "emf-ui/app/src/pages/RolesPage/RolesPage.test.tsx"%string in
  let w1 := written mocked_world p
              (FetchMocks.transform (content mocked_file)) in
  FetchMocks.update_test_file p mocked_world = (w1, Ok true) /\
  contains FetchMocks.wrapFetchMock
           (FetchMocks.transform (content mocked_file)) = true /\
  FetchMocks.update_test_file p w1 = (said w1 [Already p], Ok false).
Proof.
  apply (X4_fetch_mocks_second_run mocked_world _ mocked_file);
    [reflexivity | reflexivity | reflexivity | exact mocked_changes].
Defined.

(** X5: on a file that can be read but not written: fix_mock_responses and
    fix_fetch_mocks raise [PermissionError] only when they have something to
    write, and then leave the world as it was; fix_tests (unless the file
    holds [createTestWrapper]) and fix_resource_form_tests always try to
    write and so always raise; the loop of fix_tests catches and reports
    it. *)
Theorem X5_read_only_file (w : world) (p : string) (f : file) :
  files w p = Some f -> readable f = true -> writable f = false ->
  (MockResponses.update_test_file p w =
   if str_eqb (wrap_array_in_paginated_response (content f)) (content f)
   then (said w [NoChanges p], Ok false)
   else (w, Raise PermissionError)) /\
  (FetchMocks.transform (content f) <> content f ->
   FetchMocks.update_test_file p w = (w, Raise PermissionError)) /\
  (contains (lit "createTestWrapper") (content f) = false ->
   FixTests.fix_test_file p w = (w, Raise PermissionError) /\
   FixTests.batch [p] w
   = (said w [ErrorFixing p PermissionError; Traceback PermissionError],
      Ok tt)) /\
  (p = ResourceFormTests.target ->
   ResourceFormTests.script w = (w, Raise PermissionError)).
Proof.
  intros Hf Hr Hw.
  split; [|split; [|split]].
  - rewrite (mock_update_run w p f Hf Hr), Hw. reflexivity.
  - intros Hc. rewrite (fetch_update_run w p f Hf Hr).
    unfold FetchMocks.transform in Hc.
    destruct (FetchMocks.rewrite (content f)) as [r|c]; [congruence|].
    now rewrite (str_eqb_neq _ _ Hc), Hw.
  - intros Hg.
    assert (H1 : FixTests.fix_test_file p w = (w, Raise PermissionError)).
    { unfold FixTests.fix_test_file, FixTests.fix_test_file_with.
      run_ok (read_ok _ _ _ Hf Hr). unfold lift at 1. unfold bind at 1.
      unfold FixTests.rewrite. rewrite Hg.
      now rewrite (bind_raise _ _ _ _ _ (write_denied _ _ _ _ Hf Hw)). }
    split; [exact H1|].
    unfold FixTests.batch. simpl FixTests.batch_with.
    unfold bind at 1, try_except.
    change (FixTests.fix_test_file_with (fun c => Ok (FixTests.rewrite c)))
      with FixTests.fix_test_file.
    rewrite H1. unfold bind, print, said, ret. simpl.
    rewrite <- app_assoc. reflexivity.
  - intros ->. unfold ResourceFormTests.script, ResourceFormTests.script_with.
    run_ok (read_ok _ _ _ Hf Hr). unfold lift at 1. unfold bind at 1.
    now rewrite (bind_raise _ _ _ _ _ (write_denied _ _ _ _ Hf Hw)).
Qed.

Lemma X5_witness :
  MockResponses.update_test_file
    "emf-ui/app/src/pages/RolesPage/RolesPage.test.tsx" read_only_world
  = (read_only_world, Raise PermissionError).
Proof.
  exact (proj1 (X5_read_only_file read_only_world
                  "emf-ui/app/src/pages/RolesPage/RolesPage.test.tsx"
                  read_only_file eq_refl eq_refl eq_refl)).
Defined.

(** ** The summary line *)

Lemma setup_update_run (w : world) (p : string) (f : file) :
  files w p = Some f -> readable f = true ->
  SetupAuthMocks.fix_test_file p w =
  match SetupAuthMocks.rewrite (content f) with
  | inl SetupAuthMocks.AlreadyFixed => (said w [Already p], Ok false)
  | inl SetupAuthMocks.NoCleanupDeclaration =>
      (said w [NoDeclaration p], Ok false)
  | inr c =>
      if str_eqb c (content f) then (said w [NoChanges p], Ok false)
      else if writable f then (written w p c, Ok true)
           else (w, Raise PermissionError)
  end.
Proof.
  intros Hf Hr.
  unfold SetupAuthMocks.fix_test_file, SetupAuthMocks.fix_test_file_with.
  run_ok (exists_some _ _ _ Hf). cbn [negb]. run_ok (read_ok _ _ _ Hf Hr).
  unfold lift at 1. unfold bind at 1.
  destruct (SetupAuthMocks.rewrite (content f)) as [[]|c].
  - run_ok (print_said (Already p) w). reflexivity.
  - run_ok (print_said (NoDeclaration p) w). reflexivity.
  - destruct (str_eqb c (content f)); cbn [negb].
    + run_ok (print_said (NoChanges p) w). reflexivity.
    + destruct (writable f) eqn:Hw.
      * run_ok (write_ok _ _ _ c Hf Hw).
        rewrite Hr. unfold bind, print, ret, written, said. reflexivity.
      * now rewrite (bind_raise _ _ _ _ _ (write_denied _ _ _ _ Hf Hw)).
Qed.

Ltac one_line :=
  match goal with
  | H : (_, _) = (_, Ok _) |- _ =>
      injection H as <- <-; eexists; split; reflexivity
  | H : (_, Raise _) = (_, Ok _) |- _ => discriminate H
  end.

Lemma fetch_missing (w : world) (p : string) :
  files w p = None ->
  FetchMocks.update_test_file p w = (said w [NotFound p], Ok false).
Proof.
  intros Hf.
  unfold FetchMocks.update_test_file, FetchMocks.update_test_file_with.
  run_ok (exists_none _ _ Hf). cbn [negb].
  run_ok (print_said (NotFound p) w). reflexivity.
Qed.

Lemma mock_missing (w : world) (p : string) :
  files w p = None ->
  MockResponses.update_test_file p w = (said w [NotFound p], Ok false).
Proof.
  intros Hf.
  unfold MockResponses.update_test_file, MockResponses.update_test_file_with.
  run_ok (exists_none _ _ Hf). cbn [negb].
  run_ok (print_said (NotFound p) w). reflexivity.
Qed.

Lemma setup_missing (w : world) (p : string) :
  files w p = None ->
  SetupAuthMocks.fix_test_file p w = (said w [NotFound p], Ok false).
Proof.
  intros Hf.
  unfold SetupAuthMocks.fix_test_file, SetupAuthMocks.fix_test_file_with.
  run_ok (exists_none _ _ Hf). cbn [negb].
  run_ok (print_said (NotFound p) w). reflexivity.
Qed.

Lemma read_denied (w : world) (p : string) (f : file) :
  files w p = Some f -> readable f = false ->
  read_file p w = (w, Raise PermissionError).
Proof. intros Hf Hr. unfold read_file. now rewrite Hf, Hr. Qed.

Lemma fetch_unreadable (w : world) (p : string) (f : file) :
  files w p = Some f -> readable f = false ->
  FetchMocks.update_test_file p w = (w, Raise PermissionError).
Proof.
  intros Hf Hr.
  unfold FetchMocks.update_test_file, FetchMocks.update_test_file_with.
  run_ok (exists_some _ _ _ Hf). cbn [negb].
  now rewrite (bind_raise _ _ _ _ _ (read_denied _ _ _ Hf Hr)).
Qed.

Lemma mock_unreadable (w : world) (p : string) (f : file) :
  files w p = Some f -> readable f = false ->
  MockResponses.update_test_file p w = (w, Raise PermissionError).
Proof.
  intros Hf Hr.
  unfold MockResponses.update_test_file, MockResponses.update_test_file_with.
  run_ok (exists_some _ _ _ Hf). cbn [negb].
  now rewrite (bind_raise _ _ _ _ _ (read_denied _ _ _ Hf Hr)).
Qed.

Lemma setup_unreadable (w : world) (p : string) (f : file) :
  files w p = Some f -> readable f = false ->
  SetupAuthMocks.fix_test_file p w = (w, Raise PermissionError).
Proof.
  intros Hf Hr.
  unfold SetupAuthMocks.fix_test_file, SetupAuthMocks.fix_test_file_with.
  run_ok (exists_some _ _ _ Hf). cbn [negb].
  now rewrite (bind_raise _ _ _ _ _ (read_denied _ _ _ Hf Hr)).
Qed.

Lemma fetch_one_report : one_report FetchMocks.update_test_file.
Proof.
  intros p w w' b H. destruct (files w p) as [f|] eqn:Hf.
  - destruct (readable f) eqn:Hr.
    + rewrite (fetch_update_run w p f Hf Hr) in H.
      destruct (FetchMocks.rewrite (content f)) as [[]|c]; try one_line.
      destruct (str_eqb c (content f)); [one_line|].
      destruct (writable f); one_line.
    + rewrite (fetch_unreadable w p f Hf Hr) in H. one_line.
  - rewrite (fetch_missing w p Hf) in H. one_line.
Qed.

Lemma mock_one_report : one_report MockResponses.update_test_file.
Proof.
  intros p w w' b H. destruct (files w p) as [f|] eqn:Hf.
  - destruct (readable f) eqn:Hr.
    + rewrite (mock_update_run w p f Hf Hr) in H.
      destruct (str_eqb _ (content f)); [one_line|].
      destruct (writable f); one_line.
    + rewrite (mock_unreadable w p f Hf Hr) in H. one_line.
  - rewrite (mock_missing w p Hf) in H. one_line.
Qed.

Lemma setup_one_report : one_report SetupAuthMocks.fix_test_file.
Proof.
  intros p w w' b H. destruct (files w p) as [f|] eqn:Hf.
  - destruct (readable f) eqn:Hr.
    + rewrite (setup_update_run w p f Hf Hr) in H.
      destruct (SetupAuthMocks.rewrite (content f)) as [[]|c]; try one_line.
      destruct (str_eqb c (content f)); [one_line|].
      destruct (writable f); one_line.
    + rewrite (setup_unreadable w p f Hf Hr) in H. one_line.
  - rewrite (setup_missing w p Hf) in H. one_line.
Qed.

Lemma for_each_counts (f : string -> M bool) :
  one_report f ->
  forall paths count w w' n,
    for_each f paths count w = (w', Ok n) ->
    exists rs, console w' = console w ++ rs /\
               length rs = length paths /\
               n = count + count_updated rs.
Proof.
  intros Hf. induction paths as [|p rest IH]; intros count w w' n H.
  - injection H as <- <-. exists []. rewrite app_nil_r.
    repeat split. unfold count_updated. simpl. lia.
  - simpl in H. unfold bind at 1 in H.
    destruct (f p w) as [w1 [b|e]] eqn:E; [|discriminate H].
    destruct (Hf _ _ _ _ E) as (r & Hc & Hb).
    destruct (IH _ _ _ _ H) as (rs & Hc' & Hl & Hn).
    exists (r :: rs). rewrite Hc', Hc, <- app_assoc. split; [reflexivity|].
    split; [simpl; lia|].
    unfold count_updated in *. simpl. rewrite Hb.
    destruct b; simpl; lia.
Qed.

Lemma main_counts (f : string -> M bool) (paths : list string)
      (w w' : world) :
  one_report f ->
  (print Banner ;; n <- for_each f paths 0 ;; print (Summary n)) w
  = (w', Ok tt) ->
  exists rs, console w' = console w ++ [Banner] ++ rs
                                    ++ [Summary (count_updated rs)] /\
             length rs = length paths.
Proof.
  intros Hf H. rewrite (bind_ok _ _ _ _ _ (print_said Banner w)) in H.
  unfold bind at 1 in H.
  destruct (for_each f paths 0 (said w [Banner])) as [w1 [n|e]] eqn:E;
    [|discriminate H].
  destruct (for_each_counts f Hf _ _ _ _ _ E) as (rs & Hc & Hl & Hn).
  rewrite print_said in H. injection H as <-.
  exists rs. split; [|exact Hl]. cbn [console said] in *.
  rewrite Hc, Hn. now rewrite <- !app_assoc.
Qed.

(** X6: when [main] of fix_fetch_mocks, fix_mock_responses or
    fix_setup_auth_mocks returns, it has printed the banner, one line for
    each listed path and the summary, and the count in the summary is the
    number of those lines that report an update. *)
Theorem X6_summary_counts_updates (paths : list string) (w w' : world) :
  (FetchMocks.main_on paths w = (w', Ok tt) ->
   exists rs, console w' = console w ++ [Banner] ++ rs
                                     ++ [Summary (count_updated rs)] /\
              length rs = length paths) /\
  (MockResponses.main_on paths w = (w', Ok tt) ->
   exists rs, console w' = console w ++ [Banner] ++ rs
                                     ++ [Summary (count_updated rs)] /\
              length rs = length paths) /\
  (SetupAuthMocks.main_on paths w = (w', Ok tt) ->
   exists rs, console w' = console w ++ [Banner] ++ rs
                                     ++ [Summary (count_updated rs)] /\
              length rs = length paths).
Proof.
  split; [|split]; intros H.
  - exact (main_counts _ _ _ _ fetch_one_report H).
  - exact (main_counts _ _ _ _ mock_one_report H).
  - exact (main_counts _ _ _ _ setup_one_report H).
Qed.

Lemma X6_witness :
  exists rs,
    console (fst (FetchMocks.main_on
                    ["emf-ui/app/src/pages/RolesPage/RolesPage.test.tsx"%string]
                    mocked_world))
    = console mocked_world ++ [Banner] ++ rs ++ [Summary (count_updated rs)] /\
    length rs = 1.
Proof.
  apply (proj1 (X6_summary_counts_updates
                  ["emf-ui/app/src/pages/RolesPage/RolesPage.test.tsx"%string]
                  mocked_world
                  (fst (FetchMocks.main_on
                          ["emf-ui/app/src/pages/RolesPage/RolesPage.test.tsx"%string]
                          mocked_world)))).
  vm_compute. reflexivity.
Defined.

(** ** Call sites the callback skips *)

Lemma scan_skips (h pre name post : str) :
  separated h h = true -> is_name name = true -> skipped name = true ->
  exists pre',
    re_sub (call_matcher h) (pre ++ (h ++ name ++ lit "))") ++ post) =
    pre' ++ (h ++ name ++ lit "))") ++ re_sub (call_matcher h) post.
Proof.
  intros sep Hn Hs.
  destruct (re_sub_prefix (call_matcher h) (call_matcher_positive h) pre
              ((h ++ name ++ lit "))") ++ post)) as [pre' Hpre].
  - intros a1 a2 n rep _ Ha H. rewrite <- app_assoc in H.
    exact (calls_apart h h sep a2 _ n rep Ha H).
  - exists pre'. rewrite Hpre. f_equal.
    rewrite (re_sub_match (call_matcher h) (call_matcher_positive h) _ _
               (replace_call h (h ++ name ++ lit "))") name)).
    + unfold replace_call. now rewrite Hs.
    + destruct h; [destruct name; discriminate|discriminate].
    + now apply call_matcher_at.
Qed.

(** X7: a call site whose argument is [null] or [undefined] goes through
    [wrap_array_in_paginated_response] as it is, and the rewrite goes on
    behind it. *)
Theorem X7_null_undefined_kept (head pre name post : str) :
  head = head1 \/ head = head2 ->
  name = lit "null" \/ name = lit "undefined" ->
  exists pre',
    wrap_array_in_paginated_response (pre ++ head ++ name ++ lit "))" ++ post)
    = pre' ++ head ++ name ++ lit "))"
           ++ wrap_array_in_paginated_response post.
Proof.
  intros Hh Hname.
  assert (Hn : is_name name = true) by (destruct Hname as [-> | ->]; reflexivity).
  assert (Hs : skipped name = true) by (destruct Hname as [-> | ->]; reflexivity).
  replace (pre ++ head ++ name ++ lit "))" ++ post)
    with (pre ++ (head ++ name ++ lit "))") ++ post)
    by (now rewrite <- !app_assoc).
  unfold wrap_array_in_paginated_response, pattern1, pattern2.
  destruct Hh as [-> | ->].
  - destruct (scan_skips head1 pre name post sep11 Hn Hs) as [pre1 H1].
    rewrite H1, <- text_skipped.
    destruct (scan_keeps head2 head1 pre1 name
                (re_sub (call_matcher head1) post) shape_skipped sep21
                eq_refl eq_refl Hn ltac:(discriminate)) as [pre2 H2].
    exists pre2. rewrite H2, text_skipped. now rewrite <- !app_assoc.
  - destruct (scan_keeps head1 head2 pre name post shape_skipped sep12
                eq_refl eq_refl Hn ltac:(discriminate)) as [pre1 H1].
    rewrite text_skipped in H1. rewrite H1.
    destruct (scan_skips head2 pre1 name
                (re_sub (call_matcher head1) post) sep22 Hn Hs) as [pre2 H2].
    exists pre2. rewrite H2. now rewrite <- !app_assoc.
Qed.

Lemma X7_witness :
  exists pre',
    wrap_array_in_paginated_response
      (lit "await " ++ head1 ++ lit "null" ++ lit "))" ++ lit ";")
    = pre' ++ head1 ++ lit "null" ++ lit "))"
           ++ wrap_array_in_paginated_response (lit ";").
Proof.
  apply (X7_null_undefined_kept head1 (lit "await ") (lit "null") (lit ";"));
    left; reflexivity.
Defined.

(** ** fix_setup_auth_mocks.py: the three patterns *)

Lemma before_each_inv (third : str -> option nat) (s : str) (n : nat)
      (rep : str) :
  SetupAuthMocks.before_each_matcher third s = Some (n, rep) ->
  let r := skipn (length SetupAuthMocks.before_each) s in
  let ws := take_while is_space r in
  let after := skipn (length ws) r in
  exists g2 k,
    prefixb SetupAuthMocks.before_each s = true /\
    SetupAuthMocks.last_newline ws = Some g2 /\
    third after = Some k /\
    n = length SetupAuthMocks.before_each + length ws + k /\
    rep = SetupAuthMocks.before_each ++ g2 ++ SetupAuthMocks.setup_call
            ++ g2 ++ firstn k after.
Proof.
  unfold SetupAuthMocks.before_each_matcher. cbv zeta.
  destruct (prefixb SetupAuthMocks.before_each s); [|discriminate].
  destruct (SetupAuthMocks.last_newline _) as [g2|]; [|discriminate].
  destruct (third _) as [k|]; [|discriminate].
  intros H. injection H as <- <-. exists g2, k. repeat split.
Qed.

Lemma before_each_positive (third : str -> option nat) :
  positive (SetupAuthMocks.before_each_matcher third).
Proof.
  intros s n rep H. apply before_each_inv in H.
  destruct H as (g2 & k & _ & _ & _ & -> & _).
  change (length SetupAuthMocks.before_each) with 18. lia.
Qed.

Lemma before_each_guarded (third : str -> option nat) (t : str) (n : nat)
      (rep : str) :
  SetupAuthMocks.before_each_matcher third t = Some (n, rep) ->
  contains (lit "cleanupAuthMocks = setupAuthMocks()") rep = true.
Proof.
  intros H. apply before_each_inv in H.
  destruct H as (g2 & k & _ & _ & _ & _ & ->).
  apply contains_app_r, contains_app_r, contains_app_l.
  vm_compute. reflexivity.
Qed.

(** A content that [fix_test_file] changes holds the guard string. *)
Lemma setup_changed (content0 : str) :
  SetupAuthMocks.insert_setup content0 = content0 \/
  contains (lit "cleanupAuthMocks = setupAuthMocks()")
           (SetupAuthMocks.insert_setup content0) = true.
Proof.
  assert (H : forall third s,
             re_sub (SetupAuthMocks.before_each_matcher third) s = s \/
             contains (lit "cleanupAuthMocks = setupAuthMocks()")
               (re_sub (SetupAuthMocks.before_each_matcher third) s) = true).
  { intros third s. apply re_sub_changed; [apply before_each_positive|].
    intros t n rep Hm. right. exact (before_each_guarded _ _ _ _ Hm). }
  unfold SetupAuthMocks.insert_setup. cbv zeta.
  destruct (str_eqb (re_sub SetupAuthMocks.pattern1 content0) content0) eqn:E1.
  - apply str_eqb_eq in E1. rewrite !E1.
    destruct (str_eqb (re_sub SetupAuthMocks.pattern2 content0) content0)
      eqn:E2.
    + apply str_eqb_eq in E2. rewrite !E2. apply H.
    + apply H.
  - rewrite E1. apply H.
Qed.

(** X8: when [fix_test_file] of fix_setup_auth_mocks has inserted its line into
    a file it can read and write, a second run reports the file as already
    fixed and returns false. *)
Theorem X8_setup_auth_second_run (w : world) (p : string) (f : file) :
  files w p = Some f -> readable f = true -> writable f = true ->
  contains (lit "cleanupAuthMocks = setupAuthMocks()") (content f) = false ->
  contains (lit "let cleanupAuthMocks") (content f) = true ->
  SetupAuthMocks.insert_setup (content f) <> content f ->
  let w1 := written w p (SetupAuthMocks.insert_setup (content f)) in
  SetupAuthMocks.fix_test_file p w = (w1, Ok true) /\
  SetupAuthMocks.fix_test_file p w1 = (said w1 [Already p], Ok false).
Proof.
  intros Hf Hr Hw Hg Hd Hc. cbv zeta.
  rewrite (setup_update_run w p f Hf Hr). unfold SetupAuthMocks.rewrite.
  rewrite Hg, Hd. cbn [negb]. rewrite (str_eqb_neq _ _ Hc), Hw.
  split; [reflexivity|].
  rewrite (setup_update_run _ p
             (mkFile (SetupAuthMocks.insert_setup (content f)) true true));
    [|apply store_same|reflexivity].
  cbn [content]. unfold SetupAuthMocks.rewrite.
  destruct (setup_changed (content f)) as [H | H]; [contradiction|].
  now rewrite H.
Qed.

Lemma undeclared_changes :
  SetupAuthMocks.insert_setup (content undeclared_file)
  <> content undeclared_file.
Proof. intros H. apply str_eqb_eq in H. vm_compute in H. discriminate H. Qed.

Lemma X8_witness :
  let p := "emf-ui/app/src/pages/RolesPage/RolesPage.test.tsx"%string in
  let w1 := written undeclared_world p
              (SetupAuthMocks.insert_setup (content undeclared_file)) in
  SetupAuthMocks.fix_test_file p undeclared_world = (w1, Ok true) /\
  SetupAuthMocks.fix_test_file p w1 = (said w1 [Already p], Ok false).
Proof.
  apply (X8_setup_auth_second_run undeclared_world _ undeclared_file);
    [reflexivity | reflexivity | reflexivity | reflexivity | reflexivity
    | exact undeclared_changes].
Defined.

(** When every replacement differs from what it replaces, an unchanged
    output means that the pattern matched nowhere. *)
Lemma re_sub_fixed_absent (m : matcher) :
  positive m -> m [] = None ->
  (forall t n rep y, m t = Some (n, rep) -> rep ++ y <> t) ->
  forall s, re_sub m s = s -> absent m s.
Proof.
  intros Hpos Hnil Hdiff.
  apply (re_sub_scan m Hpos (fun s o => o = s -> absent m s)).
  - intros _ a t E. symmetry in E. apply app_eq_nil in E.
    destruct E as [_ ->]. exact Hnil.
  - intros c r Hn IH E a t Ea. injection E as E.
    destruct a as [|c' a].
    + simpl in Ea. now subst t.
    + injection Ea as _ Ea. exact (IH E a t Ea).
  - intros c r n rep Hm _ E. exfalso. exact (Hdiff _ _ _ _ Hm E).
Qed.

Lemma last_newline_suffix (ws g : str) :
  SetupAuthMocks.last_newline ws = Some g ->
  exists a r, ws = a ++ g /\ g = NL :: r.
Proof.
  revert g. induction ws as [|c ws IH]; intros g H; [discriminate|].
  simpl in H. destruct (SetupAuthMocks.last_newline ws) as [g'|].
  - injection H as <-. destruct (IH g' eq_refl) as (a & r & -> & ->).
    now exists (c :: a), r.
  - destruct (N.eqb c NL) eqn:E; [|discriminate].
    injection H as <-. apply N.eqb_eq in E. subst c. now exists [], ws.
Qed.

Lemma app_meets (l1 y w z : str) (c : char) :
  l1 ++ c :: y = w ++ z -> length l1 < length w -> In c w.
Proof.
  revert w. induction l1 as [|x l1 IH]; intros [|x' w] E Hl;
    try (simpl in Hl; lia).
  - injection E as -> _. now left.
  - injection E as _ E. right. apply (IH w E). simpl in Hl. lia.
Qed.

Lemma forallb_in (f : char -> bool) (l : str) (c : char) :
  forallb f l = true -> In c l -> f c = true.
Proof. intros H Hin. rewrite forallb_forall in H. now apply H. Qed.

(** A match of a [beforeEach] pattern is never replaced by itself. *)
Lemma before_each_changes (third : str -> option nat) :
  starts_plain third ->
  forall t n rep y,
    SetupAuthMocks.before_each_matcher third t = Some (n, rep) ->
    rep ++ y <> t.
Proof.
  intros Hplain t n rep y Hm E. apply before_each_inv in Hm. cbv zeta in Hm.
  destruct Hm as (g2 & k & Hp & Hl & Ht & _ & ->).
  apply prefixb_skipn in Hp.
  remember (skipn (length SetupAuthMocks.before_each) t) as r eqn:Er in *.
  pose proof (take_while_prefix is_space r) as Hws.
  pose proof (take_while_all is_space r) as Hall.
  remember (take_while is_space r) as ws eqn:Ews in *.
  remember (skipn (length ws) r) as after eqn:Ea in *.
  destruct (Hplain _ _ Ht) as (c0 & r0 & Hc0 & Hsp & Hne).
  destruct (last_newline_suffix _ _ Hl) as (a & g & Ha & Hg).
  rewrite Hp in E. rewrite <- !app_assoc in E.
  apply app_inv_head in E. rewrite Hws in E.
  destruct a as [|a0 a].
  - simpl in Ha. rewrite Ha in E. apply app_inv_head in E.
    rewrite Hc0 in E. injection E as E _. congruence.
  - assert (Hin : In 99%N ws).
    { apply (app_meets g2 _ ws after 99%N E).
      rewrite Ha, length_app. simpl. lia. }
    pose proof (forallb_in _ _ _ Hall Hin) as H99. discriminate H99.
Qed.

Lemma alternatives_inv (alts : list str) (s : str) (k : nat) :
  SetupAuthMocks.alternatives alts s = Some k ->
  exists a, In a alts /\ prefixb a s = true /\ k = length a.
Proof.
  induction alts as [|a alts IH]; [discriminate|]. simpl.
  destruct (prefixb a s) eqn:E.
  - intros H. injection H as <-. exists a. repeat split; [now left|exact E].
  - intros H. destruct (IH H) as (b & Hb & Hp & Hk). exists b.
    repeat split; [now right|exact Hp|exact Hk].
Qed.

Lemma pattern2_plain :
  starts_plain
    (SetupAuthMocks.alternatives
       [lit "vi.clearAllMocks();"; lit "global.fetch = vi.fn();"]).
Proof.
  intros s k H. apply alternatives_inv in H.
  destruct H as (a & Ha & Hp & _). apply prefixb_spec in Hp.
  destruct Hp as [x ->].
  destruct Ha as [<- | [<- | []]]; eexists; eexists;
    (split; [reflexivity|split; [reflexivity|discriminate]]).
Qed.

Lemma pattern3_needs_pattern2 (t : str) (n : nat) (rep : str) :
  SetupAuthMocks.pattern3 t = Some (n, rep) ->
  SetupAuthMocks.pattern2 t <> None.
Proof.
  intros H. apply before_each_inv in H. cbv zeta in H.
  destruct H as (g2 & k & Hp & Hl & Ht & _ & _).
  unfold SetupAuthMocks.pattern2, SetupAuthMocks.before_each_matcher.
  cbv zeta. rewrite Hp, Hl.
  unfold SetupAuthMocks.clear_then_msw in Ht.
  destruct (prefixb (lit "vi.clearAllMocks();") _) eqn:E; [|discriminate].
  cbn [SetupAuthMocks.alternatives]. rewrite E. discriminate.
Qed.

(** X9: the third pattern of [fix_test_file] never applies: where it matches,
    the second pattern matches too and changes the content, so a content the
    second pattern leaves alone is left alone by the third.  The result of
    the three steps is that of pattern 1 when it changes the content and
    that of pattern 2 otherwise. *)
Theorem X9_third_pattern_never_applies (content0 : str) :
  (re_sub SetupAuthMocks.pattern2 content0 = content0 ->
   re_sub SetupAuthMocks.pattern3 content0 = content0) /\
  SetupAuthMocks.insert_setup content0
  = if str_eqb (re_sub SetupAuthMocks.pattern1 content0) content0
    then re_sub SetupAuthMocks.pattern2 content0
    else re_sub SetupAuthMocks.pattern1 content0.
Proof.
  assert (H : re_sub SetupAuthMocks.pattern2 content0 = content0 ->
              re_sub SetupAuthMocks.pattern3 content0 = content0).
  { intros H2.
    apply (re_sub_clean _ (before_each_positive _)), absent_clean.
    intros a t E.
    destruct (SetupAuthMocks.pattern3 t) as [[n rep]|] eqn:E3;
      [|exact E3].
    exfalso. apply (pattern3_needs_pattern2 _ _ _ E3).
    apply (re_sub_fixed_absent SetupAuthMocks.pattern2
             (before_each_positive _) eq_refl
             (before_each_changes _ pattern2_plain) content0 H2 a t E). }
  split; [exact H|].
  unfold SetupAuthMocks.insert_setup. cbv zeta.
  destruct (str_eqb (re_sub SetupAuthMocks.pattern1 content0) content0) eqn:E1.
  - apply str_eqb_eq in E1. rewrite !E1.
    destruct (str_eqb (re_sub SetupAuthMocks.pattern2 content0) content0)
      eqn:E2; [|reflexivity].
    apply str_eqb_eq in E2. rewrite E2. now apply H.
  - now rewrite E1.
Qed.

(** ** The inserted line in its context *)

Lemma before_each_overlaps :
  overlaps SetupAuthMocks.before_each SetupAuthMocks.before_each = false.
Proof. vm_compute. reflexivity. Qed.

Lemma alts_apart_in (alts : list str) (a : str) :
  alts_apart alts = true -> In a alts ->
  overlaps a SetupAuthMocks.before_each = false /\
  compat a SetupAuthMocks.before_each = false.
Proof.
  intros H Hin. unfold alts_apart in H. rewrite forallb_forall in H.
  specialize (H a Hin). apply andb_true_iff in H.
  rewrite !negb_true_iff in H. exact H.
Qed.

(** A [beforeEach] match that starts before another [beforeEach(() => {]
    ends before it. *)
Lemma before_each_apart (alts : list str) (a2 x : str) (n : nat) (rep : str) :
  alts_apart alts = true -> a2 <> [] ->
  SetupAuthMocks.before_each_matcher (SetupAuthMocks.alternatives alts)
    (a2 ++ SetupAuthMocks.before_each ++ x) = Some (n, rep) ->
  n <= length a2.
Proof.
  intros Halts Ha2 H. apply before_each_inv in H. cbv zeta in H.
  destruct H as (g2 & k & Hp & _ & Ht & -> & _).
  apply alternatives_inv in Ht. destruct Ht as (a & Hin & Hpa & ->).
  destruct (alts_apart_in _ _ Halts Hin) as [Ho Hc].
  destruct (le_lt_dec (length SetupAuthMocks.before_each) (length a2))
    as [Hle | Hlt].
  - rewrite (skipn_within a2 _ _ Hle) in Hpa |- *.
    set (d0 := skipn (length SetupAuthMocks.before_each) a2) in *.
    assert (Hd0 : length d0 = length a2 - length SetupAuthMocks.before_each)
      by apply length_skipn.
    rewrite take_while_app in Hpa |- *.
    destruct (forallb is_space d0) eqn:Hall.
    + change (take_while is_space (SetupAuthMocks.before_each ++ x))
        with (@nil char) in Hpa.
      rewrite app_nil_r, skipn_exact in Hpa.
      apply prefixb_compat in Hpa. congruence.
    + pose proof (take_while_short _ _ Hall) as Hshort.
      rewrite skipn_within in Hpa by lia.
      set (ws := take_while is_space d0) in *.
      assert (Hd : length (skipn (length ws) d0) = length d0 - length ws)
        by apply length_skipn.
      destruct (le_lt_dec (length a) (length (skipn (length ws) d0)))
        as [Hok | Hbad]; [lia|].
      destruct (prefixb_app_short _ _ _ Hpa Hbad) as [H1 _].
      apply prefixb_compat in H1.
      rewrite (overlaps_false a _ _ Ho) in H1; [discriminate|lia].
  - destruct (prefixb_app_short _ _ _ Hp Hlt) as [H1 _].
    apply prefixb_compat in H1.
    rewrite (overlaps_false _ _ _ before_each_overlaps) in H1;
      [discriminate|].
    destruct a2; [congruence|simpl in *; lia].
Qed.

Lemma last_newline_space (ws g2 : str) :
  forallb is_space ws = true -> SetupAuthMocks.last_newline ws = Some g2 ->
  forallb is_space g2 = true.
Proof.
  intros H Hl. destruct (last_newline_suffix _ _ Hl) as (a & r & -> & _).
  rewrite forallb_app in H. apply andb_true_iff in H. tauto.
Qed.

Lemma insert_in_context (alts : list str) (third_lit pre ws g2 post : str)
      (c : char) (r : str) :
  alts_apart alts = true ->
  third_lit = c :: r -> is_space c = false ->
  SetupAuthMocks.alternatives alts (third_lit ++ post)
  = Some (length third_lit) ->
  forallb is_space ws = true -> SetupAuthMocks.last_newline ws = Some g2 ->
  exists pre',
    re_sub (SetupAuthMocks.before_each_matcher
              (SetupAuthMocks.alternatives alts))
           (pre ++ (SetupAuthMocks.before_each ++ ws ++ third_lit) ++ post)
    = pre' ++ (SetupAuthMocks.before_each ++ g2 ++ SetupAuthMocks.setup_call
                 ++ g2 ++ third_lit)
           ++ re_sub (SetupAuthMocks.before_each_matcher
                        (SetupAuthMocks.alternatives alts)) post.
Proof.
  intros Halts Hlit Hc Hfirst Hws Hl.
  set (m := SetupAuthMocks.before_each_matcher
              (SetupAuthMocks.alternatives alts)).
  destruct (re_sub_prefix m (before_each_positive _) pre
              ((SetupAuthMocks.before_each ++ ws ++ third_lit) ++ post))
    as [pre' Hpre].
  - intros a1 a2 n rep _ Ha H. rewrite <- app_assoc in H.
    exact (before_each_apart alts a2 _ n rep Halts Ha H).
  - exists pre'. rewrite Hpre. f_equal.
    apply (re_sub_match m (before_each_positive _)); [discriminate|].
    unfold m, SetupAuthMocks.before_each_matcher. cbv zeta.
    rewrite <- !app_assoc. rewrite prefixb_app, skipn_exact.
    assert (Htw : take_while is_space (ws ++ third_lit ++ post) = ws).
    { rewrite take_while_app, Hws, Hlit. simpl. rewrite Hc.
      apply app_nil_r. }
    rewrite Htw, skipn_exact, Hl, Hfirst.
    rewrite firstn_exact. do 2 f_equal.
    rewrite !length_app. lia.
Qed.

(** X10: where [beforeEach(() => {] is followed, after whitespace that holds a
    newline, by [mockFetch.mockReset();] (pattern 1) or by
    [vi.clearAllMocks();] or [global.fetch = vi.fn();] (pattern 2), the
    substitution puts [cleanupAuthMocks = setupAuthMocks();] in front of
    that statement, each of the two behind the last newline of the
    whitespace and what follows it; the whitespace in front of that newline
    is dropped. *)
Theorem X10_setup_line_inserted (pre ws g2 post : str) :
  forallb is_space ws = true -> SetupAuthMocks.last_newline ws = Some g2 ->
  (exists pre',
     re_sub SetupAuthMocks.pattern1
       (pre ++ lit "beforeEach(() => {" ++ ws
            ++ lit "mockFetch.mockReset();" ++ post)
     = pre' ++ lit "beforeEach(() => {" ++ g2
            ++ lit "cleanupAuthMocks = setupAuthMocks();" ++ g2
            ++ lit "mockFetch.mockReset();"
            ++ re_sub SetupAuthMocks.pattern1 post) /\
  (exists pre',
     re_sub SetupAuthMocks.pattern2
       (pre ++ lit "beforeEach(() => {" ++ ws
            ++ lit "vi.clearAllMocks();" ++ post)
     = pre' ++ lit "beforeEach(() => {" ++ g2
            ++ lit "cleanupAuthMocks = setupAuthMocks();" ++ g2
            ++ lit "vi.clearAllMocks();"
            ++ re_sub SetupAuthMocks.pattern2 post) /\
  (exists pre',
     re_sub SetupAuthMocks.pattern2
       (pre ++ lit "beforeEach(() => {" ++ ws
            ++ lit "global.fetch = vi.fn();" ++ post)
     = pre' ++ lit "beforeEach(() => {" ++ g2
            ++ lit "cleanupAuthMocks = setupAuthMocks();" ++ g2
            ++ lit "global.fetch = vi.fn();"
            ++ re_sub SetupAuthMocks.pattern2 post).
Proof.
  intros Hws Hl.
  assert (H : forall alts third_lit c r,
    alts_apart alts = true -> third_lit = c :: r -> is_space c = false ->
    SetupAuthMocks.alternatives alts (third_lit ++ post)
    = Some (length third_lit) ->
    exists pre',
      re_sub (SetupAuthMocks.before_each_matcher
                (SetupAuthMocks.alternatives alts))
        (pre ++ SetupAuthMocks.before_each ++ ws ++ third_lit ++ post)
      = pre' ++ SetupAuthMocks.before_each ++ g2
             ++ SetupAuthMocks.setup_call ++ g2 ++ third_lit
             ++ re_sub (SetupAuthMocks.before_each_matcher
                          (SetupAuthMocks.alternatives alts)) post).
  { intros alts third_lit c r H1 H2 H3 H4.
    destruct (insert_in_context alts third_lit pre ws g2 post c r
                H1 H2 H3 H4 Hws Hl) as [pre' E].
    exists pre'. rewrite <- !app_assoc in E. exact E. }
  split; [|split].
  - apply (H [lit "mockFetch.mockReset();"] (lit "mockFetch.mockReset();")
             109%N (lit "ockFetch.mockReset();")); reflexivity.
  - apply (H [lit "vi.clearAllMocks();"; lit "global.fetch = vi.fn();"]
             (lit "vi.clearAllMocks();") 118%N (lit "i.clearAllMocks();"));
      reflexivity.
  - apply (H [lit "vi.clearAllMocks();"; lit "global.fetch = vi.fn();"]
             (lit "global.fetch = vi.fn();") 103%N
             (lit "lobal.fetch = vi.fn();")); reflexivity.
Qed.

Lemma X10_witness :
  exists pre',
    re_sub SetupAuthMocks.pattern1
      (lit "describe('x', () => {" ++ lit "beforeEach(() => {"
         ++ [32%N; NL; NL; 32%N; 32%N]
         ++ lit "mockFetch.mockReset();" ++ lit " });")
    = pre' ++ lit "beforeEach(() => {" ++ [NL; 32%N; 32%N]
           ++ lit "cleanupAuthMocks = setupAuthMocks();" ++ [NL; 32%N; 32%N]
           ++ lit "mockFetch.mockReset();"
           ++ re_sub SetupAuthMocks.pattern1 (lit " });").
Proof.
  apply (proj1 (X10_setup_line_inserted (lit "describe('x', () => {")
                  [32%N; NL; NL; 32%N; 32%N] [NL; 32%N; 32%N] (lit " });")
                  eq_refl eq_refl)).
Defined.

(** ** fix_tests.py: the import line and the second run *)

Lemma prefixb_before_newline (p l rest : str) :
  forallb (fun c => negb (N.eqb c NL)) p = true ->
  prefixb p (l ++ NL :: rest) = true -> prefixb p l = true.
Proof.
  revert l. induction p as [|x p IH]; intros l Hp H; [reflexivity|].
  simpl in Hp. apply andb_true_iff in Hp. destruct Hp as [Hx Hp].
  destruct l as [|y l]; simpl in *.
  - apply andb_true_iff in H. destruct H as [H _]. rewrite H in Hx.
    discriminate.
  - apply andb_true_iff in H. destruct H as [H1 H2]. rewrite H1. simpl.
    now apply IH.
Qed.

Lemma contains_across (p l rest : str) :
  forallb (fun c => negb (N.eqb c NL)) p = true ->
  contains p (l ++ NL :: rest) = true ->
  contains p l = true \/ contains p rest = true.
Proof.
  intros Hp. induction l as [|c l IH]; intros H.
  - change ([] ++ NL :: rest) with (NL :: rest) in H.
    cbn [contains] in H. apply orb_true_iff in H. destruct H as [H|H].
    + left. apply (prefixb_before_newline p [] rest Hp) in H.
      simpl. now rewrite H.
    + now right.
  - change ((c :: l) ++ NL :: rest) with (c :: (l ++ NL :: rest)) in H.
    cbn [contains] in H. apply orb_true_iff in H. destruct H as [H|H].
    + left. apply (prefixb_before_newline p (c :: l) rest Hp) in H.
      cbn [contains]. now rewrite H.
    + destruct (IH H) as [H'|H']; [left|now right].
      cbn [contains]. rewrite H'. apply orb_true_r.
Qed.

Lemma contains_some_line_aux (p cur s : str) :
  forallb (fun c => negb (N.eqb c NL)) p = true ->
  contains p (rev cur ++ s) = true ->
  Exists (fun l => contains p l = true) (split_lines_aux cur s).
Proof.
  intros Hp. revert cur. induction s as [|c r IH]; intros cur H.
  - rewrite app_nil_r in H. now apply Exists_cons_hd.
  - cbn [split_lines_aux]. destruct (N.eqb c NL) eqn:E.
    + apply N.eqb_eq in E. subst c.
      destruct (contains_across p (rev cur) r Hp H) as [H'|H'].
      * now apply Exists_cons_hd.
      * apply Exists_cons_tl. now apply (IH []).
    + apply IH. simpl. now rewrite <- app_assoc.
Qed.

Lemma contains_some_line (p s : str) :
  forallb (fun c => negb (N.eqb c NL)) p = true ->
  contains p s = true ->
  Exists (fun l => contains p l = true) (split_lines s).
Proof. intros Hp H. now apply (contains_some_line_aux p [] s). Qed.

Lemma loop_adds_import (lines : list str) :
  Exists (fun l => contains (lit "from 'vitest'") l = true) lines ->
  forall st, FixTests.added_import st = false ->
  In (lit "import { createTestWrapper, setupAuthMocks } from '../../test/testUtils';")
     (FixTests.loop st lines).
Proof.
  induction lines as [|line rest IH]; intros H st Hst.
  - inversion H.
  - cbn [FixTests.loop]. rewrite Hst. cbn [negb]. rewrite andb_true_r.
    destruct (contains (lit "from 'vitest'") line) eqn:E.
    + right. now left.
    + assert (H' : Exists (fun l => contains (lit "from 'vitest'") l = true)
                          rest).
      { inversion H as [? ? Hh|? ? Ht]; subst; [|exact Ht].
        rewrite Hh in E. discriminate. }
      specialize (IH H').
      repeat match goal with
             | |- context [if ?b then _ else _] => destruct b
             end;
        repeat (try (apply IH; first [reflexivity | exact Hst]); right).
Qed.

Lemma fix_content_guarded (content0 : str) :
  contains (lit "from 'vitest'") content0 = true ->
  contains (lit "createTestWrapper") (FixTests.fix_content content0) = true.
Proof.
  intros H. apply contains_some_line in H; [|reflexivity].
  apply loop_adds_import with (st := FixTests.initial) in H; [|reflexivity].
  apply join_lines_in in H. destruct H as (a & b & E).
  unfold FixTests.fix_content. rewrite E.
  apply contains_app_r, contains_app_l. reflexivity.
Qed.

Lemma fix_tests_run (w : world) (p : string) (f : file) :
  files w p = Some f -> readable f = true ->
  FixTests.fix_test_file p w =
  match FixTests.rewrite (content f) with
  | None => (said w [Already p], Ok tt)
  | Some fixed =>
      if writable f then (written w p fixed, Ok tt)
      else (w, Raise PermissionError)
  end.
Proof.
  intros Hf Hr. unfold FixTests.fix_test_file, FixTests.fix_test_file_with.
  run_ok (read_ok _ _ _ Hf Hr). unfold lift at 1. unfold bind at 1.
  destruct (FixTests.rewrite (content f)) as [fixed|].
  - destruct (writable f) eqn:Hw.
    + run_ok (write_ok _ _ _ fixed Hf Hw). rewrite Hr. reflexivity.
    + now rewrite (bind_raise _ _ _ _ _ (write_denied _ _ _ _ Hf Hw)).
  - reflexivity.
Qed.

(** X11: a file with the text [from 'vitest'] is fixed at most once by
    fix_tests: [fix_test_file] ends normally on it, and a second run on the
    result finds [createTestWrapper], reports the file as already fixed and
    writes nothing. *)
Theorem X11_fix_tests_second_run (w : world) (p : string) (f : file) :
  files w p = Some f -> readable f = true -> writable f = true ->
  contains (lit "from 'vitest'") (content f) = true ->
  exists w1,
    FixTests.fix_test_file p w = (w1, Ok tt) /\
    FixTests.fix_test_file p w1 = (said w1 [Already p], Ok tt).
Proof.
  intros Hf Hr Hw Hv. rewrite (fix_tests_run w p f Hf Hr), Hw.
  unfold FixTests.rewrite at 1.
  destruct (contains (lit "createTestWrapper") (content f)) eqn:E.
  - exists (said w [Already p]). split; [reflexivity|].
    rewrite (fix_tests_run (said w [Already p]) p f Hf Hr).
    unfold FixTests.rewrite. now rewrite E.
  - eexists. split; [reflexivity|].
    rewrite (fix_tests_run _ p (mkFile (FixTests.fix_content (content f))
                                       true true));
      [|apply store_same|reflexivity].
    cbn [content]. unfold FixTests.rewrite.
    now rewrite (fix_content_guarded _ Hv).
Qed.

Lemma X11_witness :
  exists w1,
    FixTests.fix_test_file "src/pages/PluginsPage/PluginsPage.test.tsx"
                           vitest_world = (w1, Ok tt) /\
    FixTests.fix_test_file "src/pages/PluginsPage/PluginsPage.test.tsx" w1
    = (said w1 [Already "src/pages/PluginsPage/PluginsPage.test.tsx"%string],
       Ok tt).
Proof.
  apply (X11_fix_tests_second_run vitest_world _ vitest_file);
    reflexivity.
Defined.

(** ** fix_fetch_mocks.py: the import statement in its context *)

Lemma match_import_inv (s : str) (n : nat) :
  FetchMocks.match_import s = Some n ->
  exists ws body rest,
    s = lit "import" ++ ws ++ 123%N :: body ++ 125%N :: rest /\
    ws <> [] /\ forallb is_space ws = true /\
    forallb FetchMocks.not_brace body = true /\
    n = 6 + length ws + 1 + length body + 1.
Proof.
  unfold FetchMocks.match_import. cbv zeta.
  destruct (prefixb (lit "import") s) eqn:Hp; [|discriminate].
  apply prefixb_skipn in Hp. change (length (lit "import")) with 6 in Hp.
  remember (skipn 6 s) as r eqn:Er.
  pose proof (take_while_prefix is_space r) as Hws.
  pose proof (take_while_all is_space r) as Hsp.
  remember (take_while is_space r) as ws eqn:Ews.
  remember (skipn (length ws) r) as r1 eqn:Er1.
  destruct ws as [|w0 ws]; [discriminate|].
  destruct r1 as [|c r2]; [discriminate|].
  destruct (N.eqb c 123) eqn:Ec; [|discriminate].
  apply N.eqb_eq in Ec. subst c.
  pose proof (take_while_prefix FetchMocks.not_brace r2) as Hb.
  pose proof (take_while_all FetchMocks.not_brace r2) as Hnb.
  pose proof (take_while_stop FetchMocks.not_brace r2) as Hst.
  remember (take_while FetchMocks.not_brace r2) as body eqn:Ebody.
  remember (skipn (length body) r2) as r3 eqn:Er3.
  destruct r3 as [|c' r3]; [discriminate|].
  destruct (contains FetchMocks.setupAuthMocks body); [|discriminate].
  intros H. injection H as <-.
  unfold FetchMocks.not_brace in Hst. apply negb_false_iff, N.eqb_eq in Hst.
  subst c'. exists (w0 :: ws), body, r3.
  repeat split; try assumption; try discriminate.
  rewrite Hp, Hws, Hb at 1. reflexivity.
Qed.

Lemma match_import_intro (w0 : char) (ws body post : str) :
  forallb is_space (w0 :: ws) = true ->
  forallb FetchMocks.not_brace body = true ->
  contains FetchMocks.setupAuthMocks body = true ->
  FetchMocks.match_import (import_stmt (w0 :: ws) body ++ post)
  = Some (length (import_stmt (w0 :: ws) body)).
Proof.
  intros Hws Hb Hc. unfold FetchMocks.match_import, import_stmt.
  rewrite <- !app_assoc. rewrite prefixb_app. cbv zeta.
  change (skipn 6 (lit "import" ++ (w0 :: ws) ++ lit "{" ++ body ++ lit "}" ++ post))
    with ((w0 :: ws) ++ lit "{" ++ body ++ lit "}" ++ post).
  rewrite take_while_app, Hws.
  change (take_while is_space (lit "{" ++ body ++ lit "}" ++ post))
    with (@nil char).
  rewrite app_nil_r, skipn_exact.
  change (lit "{" ++ body ++ lit "}" ++ post)
    with (123%N :: body ++ 125%N :: post).
  cbn [app]. cbn [N.eqb Pos.eqb]. rewrite take_while_app, Hb.
  change (take_while FetchMocks.not_brace (125%N :: post)) with (@nil char).
  rewrite app_nil_r, skipn_exact, Hc. f_equal.
  repeat (rewrite ?length_app; simpl length). lia.
Qed.

Lemma braces_closed_app (a b : str) :
  braces_closed (a ++ b) = true -> braces_closed b = true.
Proof.
  induction a as [|c a IH]; intros H; [exact H|].
  simpl in H. apply andb_true_iff in H. now apply IH.
Qed.

Lemma braces_closed_open (x y : str) :
  braces_closed (x ++ 123%N :: y) = true -> existsb (N.eqb 125) y = true.
Proof.
  induction x as [|c x IH]; intros H; simpl in H;
    apply andb_true_iff in H; destruct H as [H1 H2].
  - exact H1.
  - now apply IH.
Qed.

(** Two ways to cut the same text: the longer first part extends the
    shorter one. *)
Lemma app_split (a b x y : str) :
  a ++ b = x ++ y -> length x <= length a ->
  exists l, a = x ++ l /\ l ++ b = y.
Proof.
  revert a. induction x as [|c x IH]; intros a E Hl.
  - now exists a.
  - destruct a as [|d a]; [simpl in Hl; lia|]. injection E as -> E.
    destruct (IH a E ltac:(simpl in Hl; lia)) as (l & -> & Hy).
    now exists l.
Qed.

(** An import that starts in front of another one has its opening brace in
    front of it, too. *)
Lemma import_head_before (a t ws y : str) :
  a <> [] -> prefixb (lit "import") t = true ->
  forallb is_space ws = true ->
  a ++ t = (lit "import" ++ ws ++ [123%N]) ++ y ->
  length (lit "import" ++ ws ++ [123%N]) <= length a.
Proof.
  intros Ha Ht Hws E.
  destruct (le_lt_dec (length (lit "import" ++ ws ++ [123%N])) (length a))
    as [Hl|Hl]; [exact Hl|exfalso].
  symmetry in E. destruct (app_split _ _ _ _ E ltac:(lia)) as (l & El & Et).
  apply prefixb_skipn in Ht. rewrite Ht in Et.
  destruct l as [|c l].
  { rewrite app_nil_r in El. rewrite El in Hl. lia. }
  injection Et as -> _. destruct a as [|d a]; [congruence|].
  injection El as _ El.
  pose proof (in_elt (105%N : char) a l) as Hin.
  rewrite <- El in Hin. simpl in Hin.
  repeat (destruct Hin as [Hin|Hin]; [discriminate|]).
  apply in_app_or in Hin. destruct Hin as [Hin|Hin].
  - apply (forallb_in _ _ _ Hws) in Hin. discriminate.
  - simpl in Hin. intuition discriminate.
Qed.

(** With the braces in front closed, an import statement that starts there
    also ends there. *)
Lemma import_closed (a t : str) (n : nat) :
  a <> [] -> braces_closed a = true -> prefixb (lit "import") t = true ->
  FetchMocks.match_import (a ++ t) = Some n -> n <= length a.
Proof.
  intros Ha Hc Ht H. apply match_import_inv in H.
  destruct H as (ws & body & rest & E & _ & Hws & Hb & ->).
  replace (lit "import" ++ ws ++ 123%N :: body ++ 125%N :: rest)
    with ((lit "import" ++ ws ++ [123%N]) ++ body ++ 125%N :: rest) in E
    by (now rewrite <- !app_assoc).
  pose proof (import_head_before a t ws _ Ha Ht Hws E) as Hl.
  destruct (app_split _ _ _ _ E Hl) as (a3 & -> & E3).
  replace ((lit "import" ++ ws ++ [123%N]) ++ a3)
    with ((lit "import" ++ ws) ++ 123%N :: a3) in Hc
    by (now rewrite <- !app_assoc).
  apply braces_closed_open in Hc. apply existsb_exists in Hc.
  destruct Hc as (c & Hin & Hc). apply N.eqb_eq in Hc. subst c.
  apply in_split in Hin. destruct Hin as (l1 & l2 & ->).
  rewrite <- app_assoc in E3. simpl in E3.
  assert (Hlen : length body <= length l1).
  { destruct (le_lt_dec (length body) (length l1)) as [Hk|Hk]; [exact Hk|].
    apply (app_meets _ _ _ _ _ E3) in Hk.
    apply (forallb_in _ _ _ Hb) in Hk. discriminate. }
  repeat (rewrite ?length_app; simpl length). lia.
Qed.

Lemma prefixb_app_firstn (p u x : str) (k : nat) :
  prefixb p (u ++ x) = true -> length p <= length u + k ->
  prefixb p (u ++ firstn k x) = true.
Proof.
  revert p. induction u as [|c u IH]; intros p H Hl.
  - simpl in *. apply prefixb_spec in H. destruct H as [y ->].
    rewrite firstn_app. apply prefixb_spec.
    exists (firstn (k - length p) y).
    now rewrite firstn_all2 by exact Hl.
  - destruct p as [|d p]; [reflexivity|]. simpl in *.
    apply andb_true_iff in H. destruct H as [-> H]. apply IH; [exact H|lia].
Qed.

Lemma prefixb_contains (p s : str) : prefixb p s = true -> contains p s = true.
Proof. intros H. destruct s; simpl; now rewrite H. Qed.

(** [replace] copies a block in which no occurrence of [old] starts. *)
Lemma replace_block (old new b x : str) :
  old <> [] ->
  contains old (b ++ firstn (length old - 1) x) = false ->
  replace old new (b ++ x) = b ++ replace old new x.
Proof.
  intros Ho H. unfold replace.
  apply (re_sub_block _ (literal_positive old new Ho)).
  intros b1 b2 -> Hb. unfold literal.
  destruct (prefixb old (b2 ++ x)) eqn:E; [|reflexivity].
  apply (prefixb_app_firstn _ _ _ (length old - 1)) in E.
  - rewrite <- app_assoc in H.
    rewrite (contains_app_r _ b1 _ (prefixb_contains _ _ E)) in H.
    discriminate.
  - destruct b2; [congruence|]. simpl. lia.
Qed.

Lemma replace_skip (o : char) (old new b x : str) :
  forallb (fun c => negb (N.eqb o c)) b = true ->
  replace (o :: old) new (b ++ x) = b ++ replace (o :: old) new x.
Proof.
  intros H. unfold replace.
  apply (re_sub_block _ (literal_positive (o :: old) new ltac:(discriminate))).
  intros b1 b2 -> Hb. rewrite forallb_app in H.
  apply andb_true_iff in H. destruct H as [_ H].
  destruct b2 as [|c b2]; [congruence|]. simpl in H.
  apply andb_true_iff in H. destruct H as [H _].
  apply negb_true_iff in H. unfold literal. simpl. now rewrite H.
Qed.

Lemma replace_here (old new x : str) :
  old <> [] -> replace old new (old ++ x) = new ++ replace old new x.
Proof.
  intros Ho. unfold replace.
  apply (re_sub_match _ (literal_positive old new Ho)); [exact Ho|].
  unfold literal. now rewrite prefixb_app.
Qed.

Lemma contains_before_brace (b : str) :
  contains FetchMocks.setupAuthMocks b = false ->
  contains FetchMocks.setupAuthMocks (b ++ lit "}") = false.
Proof.
  intros H. destruct (contains _ (b ++ lit "}")) eqn:E; [|reflexivity].
  apply contains_spec in E. destruct E as (x & y & E).
  destruct y as [|y0 yr].
  - rewrite app_nil_r in E.
    change FetchMocks.setupAuthMocks with (lit "setupAuthMock" ++ [115%N]) in E.
    rewrite app_assoc in E. apply app_inj_tail in E. destruct E as [_ E].
    discriminate.
  - destruct (exists_last (l := y0 :: yr) ltac:(discriminate))
      as (y' & z & Ey).
    rewrite Ey in E. rewrite !app_assoc in E. apply app_inj_tail in E.
    destruct E as [E _]. rewrite <- app_assoc in E.
    assert (contains FetchMocks.setupAuthMocks b = true)
      by (apply contains_spec; now exists x, y').
    congruence.
Qed.

Lemma is_space_not (o : char) (ws : str) :
  is_space o = false -> forallb is_space ws = true ->
  forallb (fun c => negb (N.eqb o c)) ws = true.
Proof.
  intros Ho H. apply forallb_forall. intros c Hin.
  apply (forallb_in _ _ _ H) in Hin. apply negb_true_iff.
  destruct (N.eqb o c) eqn:E; [|reflexivity].
  apply N.eqb_eq in E. congruence.
Qed.

(** What [add_wrap_to_import] makes of an import statement that names
    [setupAuthMocks] once. *)
Lemma add_wrap_import_stmt (ws b1 b2 : str) :
  forallb is_space ws = true ->
  contains FetchMocks.setupAuthMocks (b1 ++ lit "setupAuthMock") = false ->
  contains FetchMocks.setupAuthMocks b2 = false ->
  contains FetchMocks.wrapFetchMock
           (import_stmt ws (b1 ++ lit "setupAuthMocks" ++ b2)) = false ->
  FetchMocks.add_wrap_to_import
    (import_stmt ws (b1 ++ lit "setupAuthMocks" ++ b2))
  = import_stmt ws (b1 ++ lit "setupAuthMocks, wrapFetchMock" ++ b2).
Proof.
  intros Hws H1 H2 Hw. unfold FetchMocks.add_wrap_to_import.
  rewrite Hw. cbn [negb]. unfold import_stmt.
  replace (lit "import" ++ ws ++ lit "{" ++ (b1 ++ lit "setupAuthMocks" ++ b2)
             ++ lit "}")
    with ((lit "import" ++ ws ++ lit "{") ++ b1 ++ FetchMocks.setupAuthMocks
            ++ b2 ++ lit "}")
    by (now rewrite <- !app_assoc).
  change (replace FetchMocks.setupAuthMocks)
    with (replace (115%N :: lit "etupAuthMocks")).
  rewrite replace_skip.
  - rewrite replace_block; [|discriminate|exact H1].
    rewrite replace_here by discriminate.
    pose proof (replace_block FetchMocks.setupAuthMocks
                  (lit "setupAuthMocks, wrapFetchMock") (b2 ++ lit "}") []
                  ltac:(discriminate)) as Hb.
    rewrite firstn_nil, !app_nil_r in Hb.
    rewrite (Hb (contains_before_brace _ H2)).
    change (replace FetchMocks.setupAuthMocks
              (lit "setupAuthMocks, wrapFetchMock") []) with (@nil char).
    now rewrite <- !app_assoc.
  - rewrite !forallb_app. apply andb_true_iff. split; [reflexivity|].
    apply andb_true_iff. split; [|reflexivity].
    exact (is_space_not 115%N ws eq_refl Hws).
Qed.

(** X12: in a file without [wrapFetchMock] (the check [update_test_file]
    of fix_fetch_mocks makes first), an import statement that names
    [setupAuthMocks] once between its braces gets [, wrapFetchMock] behind
    that name and is otherwise kept, provided every opening brace in front
    of the statement is closed there; the text behind the statement is
    rewritten on its own. *)
Theorem X12_import_gains_wrap (pre ws b1 b2 post : str) :
  braces_closed pre = true ->
  1 <= length ws -> forallb is_space ws = true ->
  forallb FetchMocks.not_brace b1 = true ->
  forallb FetchMocks.not_brace b2 = true ->
  contains FetchMocks.setupAuthMocks (b1 ++ lit "setupAuthMock") = false ->
  contains FetchMocks.setupAuthMocks b2 = false ->
  contains FetchMocks.wrapFetchMock
    (pre ++ import_stmt ws (b1 ++ lit "setupAuthMocks" ++ b2) ++ post)
  = false ->
  exists pre',
    re_sub FetchMocks.import_pattern
      (pre ++ import_stmt ws (b1 ++ lit "setupAuthMocks" ++ b2) ++ post)
    = pre' ++ import_stmt ws (b1 ++ lit "setupAuthMocks, wrapFetchMock" ++ b2)
           ++ re_sub FetchMocks.import_pattern post.
Proof.
  intros Hpre Hl Hws Hb1 Hb2 H1 H2 Hw.
  destruct ws as [|w0 ws]; [simpl in Hl; lia|].
  remember (import_stmt (w0 :: ws) (b1 ++ lit "setupAuthMocks" ++ b2))
    as stmt eqn:Es.
  assert (Hm : FetchMocks.match_import (stmt ++ post) = Some (length stmt)).
  { rewrite Es. apply match_import_intro; [exact Hws| |].
    - rewrite !forallb_app, Hb1, Hb2. reflexivity.
    - apply contains_app_r, contains_app_l. reflexivity. }
  assert (Hs : contains FetchMocks.wrapFetchMock stmt = false).
  { destruct (contains FetchMocks.wrapFetchMock stmt) eqn:E; [|reflexivity].
    rewrite (contains_app_r _ pre _ (contains_app_l _ _ post E)) in Hw.
    discriminate. }
  destruct (re_sub_prefix FetchMocks.import_pattern import_pattern_positive
              pre (stmt ++ post)) as [pre' Hpre'].
  - intros a1 a2 n rep -> Ha H. unfold FetchMocks.import_pattern in H.
    destruct (FetchMocks.match_import (a2 ++ stmt ++ post)) as [k|] eqn:E;
      [|discriminate].
    injection H as <- _.
    apply (import_closed a2 (stmt ++ post) k Ha
             (braces_closed_app _ _ Hpre)); [|exact E].
    rewrite Es. reflexivity.
  - exists pre'. rewrite Hpre'. f_equal.
    rewrite (re_sub_match FetchMocks.import_pattern import_pattern_positive
               stmt post (FetchMocks.add_wrap_to_import stmt)).
    + f_equal. rewrite Es. rewrite Es in Hs.
      now apply add_wrap_import_stmt.
    + rewrite Es. discriminate.
    + unfold FetchMocks.import_pattern. rewrite Hm.
      now rewrite firstn_exact.
Qed.

Lemma X12_witness :
  exists pre',
    re_sub FetchMocks.import_pattern
      (lit "import { vi } from 'vitest'; "
         ++ import_stmt (lit " ")
              (lit " createTestWrapper, " ++ lit "setupAuthMocks" ++ lit " ")
         ++ lit " from '../../test/testUtils';")
    = pre' ++ import_stmt (lit " ")
                (lit " createTestWrapper, "
                   ++ lit "setupAuthMocks, wrapFetchMock" ++ lit " ")
           ++ re_sub FetchMocks.import_pattern
                (lit " from '../../test/testUtils';").
Proof.
  apply (X12_import_gains_wrap (lit "import { vi } from 'vitest'; ") (lit " ")
           (lit " createTestWrapper, ") (lit " ")
           (lit " from '../../test/testUtils';"));
    reflexivity.
Defined.

(** ** fix_resource_form_tests.py: a block that closes *)

Lemma count_char_absent (c : char) (l : str) :
  contains [c] l = false -> count_char c l = 0.
Proof.
  unfold count_char. induction l as [|a l IH]; [reflexivity|].
  cbn [contains prefixb filter]. intros H. apply orb_false_iff in H.
  destruct H as [H1 H2]. destruct (N.eqb c a); [discriminate|].
  now apply IH.
Qed.

Lemma count_char_present (c : char) (l : str) :
  contains [c] l = true -> 1 <= count_char c l.
Proof.
  unfold count_char. induction l as [|a l IH].
  - simpl. discriminate.
  - cbn [contains prefixb filter]. intros H.
    destruct (N.eqb c a); [simpl; lia|]. now apply IH.
Qed.

Lemma outer_inner (line next : str) (rest : list str) :
  contains (lit "global.fetch = vi.fn().mockImplementation") line = true ->
  contains (lit "wrapFetchMock(vi);") next = true ->
  ResourceFormTests.outer (line :: next :: rest)
  = replace (lit "global.fetch = vi.fn()") (lit "const mockFetch = vi.fn()")
            line
    :: inner rest 0%Z false [].
Proof.
  intros H1 H2. cbn [ResourceFormTests.outer]. rewrite H1, H2. reflexivity.
Qed.

Lemma outer_quiet_app (pre rest : list str) :
  Forall (fun l =>
            contains (lit "global.fetch = vi.fn().mockImplementation") l
            = false) pre ->
  ResourceFormTests.outer (pre ++ rest) = pre ++ ResourceFormTests.outer rest.
Proof.
  induction 1 as [|line pre H _ IH]; [reflexivity|].
  simpl app. cbn [ResourceFormTests.outer]. rewrite H. now rewrite IH.
Qed.

(** The counters of the inner loop behind one line. *)
Lemma inner_step (current : str) (rest : list str) (bc : Z) (fo : bool)
      (acc : list str) :
  contains (lit "as typeof global.fetch") current = false ->
  inner (current :: rest) bc fo acc
  = inner rest
          (bc + Z.of_nat (count_char 123%N current)
           - Z.of_nat (count_char 125%N current))%Z
          (contains (lit "{") current || fo) (acc ++ [current]).
Proof.
  intros H. cbn [inner]. cbv zeta. rewrite H, andb_false_r.
  f_equal.
  change (lit "{") with [123%N]. change (lit "}") with [125%N].
  destruct (contains [123%N] current) eqn:E1;
    destruct (contains [125%N] current) eqn:E2;
    rewrite ?(count_char_absent _ _ E1), ?(count_char_absent _ _ E2); lia.
Qed.

Lemma inner_end (current : str) (rest : list str) (bc : Z) (fo : bool)
      (acc : list str) :
  contains (lit "as typeof global.fetch") current = true ->
  (bc + Z.of_nat (count_char 123%N current)
   - Z.of_nat (count_char 125%N current) = 0)%Z ->
  contains (lit "{") current || fo = true ->
  inner (current :: rest) bc fo acc
  = acc ++ current
        :: (ResourceFormTests.spaces (length current - length (lstrip current))
              ++ lit "wrapFetchMock(mockFetch);")
        :: [] :: ResourceFormTests.outer rest.
Proof.
  intros H Hbc Hfo. cbn [inner]. cbv zeta. rewrite H, Hfo.
  assert (E : ((if contains (lit "}") current
                then ((if contains (lit "{") current
                       then bc + Z.of_nat (count_char 123%N current)
                       else bc) - Z.of_nat (count_char 125%N current))
                else if contains (lit "{") current
                     then bc + Z.of_nat (count_char 123%N current)
                     else bc) = 0)%Z).
  { change (lit "{") with [123%N]. change (lit "}") with [125%N].
    destruct (contains [123%N] current) eqn:E1;
      destruct (contains [125%N] current) eqn:E2;
      rewrite ?(count_char_absent _ _ E1), ?(count_char_absent _ _ E2) in Hbc;
      lia. }
  rewrite E. cbn [Z.eqb andb]. rewrite <- app_assoc. reflexivity.
Qed.

Lemma braces_cons (c : char) (l : str) (ls : list str) :
  braces c (l :: ls) = count_char c l + braces c ls.
Proof. reflexivity. Qed.

Lemma opening_found (fo : bool) (l : str) (ls : list str) :
  fo = true \/ 1 <= braces 123%N (l :: ls) ->
  (contains (lit "{") l || fo = true) \/ 1 <= braces 123%N ls.
Proof.
  intros [->|H]; [left; apply orb_true_r|]. rewrite braces_cons in H.
  change (lit "{") with [123%N].
  destruct (contains [123%N] l) eqn:E; [now left|].
  rewrite (count_char_absent _ _ E) in H. now right.
Qed.

(** The inner loop on lines whose braces balance at the first line with
    [as typeof global.fetch]: the lines are kept and the call is added
    behind them. *)
Lemma inner_closes (blk : list str) :
  forall (bc : Z) (fo : bool) (acc : list str) (cl : str) (rest : list str),
  Forall (fun l => contains (lit "as typeof global.fetch") l = false) blk ->
  contains (lit "as typeof global.fetch") cl = true ->
  (bc + Z.of_nat (braces 123%N (blk ++ [cl]))
   - Z.of_nat (braces 125%N (blk ++ [cl])) = 0)%Z ->
  fo = true \/ 1 <= braces 123%N (blk ++ [cl]) ->
  inner (blk ++ cl :: rest) bc fo acc
  = acc ++ blk ++ cl
        :: (ResourceFormTests.spaces (length cl - length (lstrip cl))
              ++ lit "wrapFetchMock(mockFetch);")
        :: [] :: ResourceFormTests.outer rest.
Proof.
  induction blk as [|current blk IH]; intros bc fo acc cl rest Hq Hc Hbc Hfo.
  - simpl app in *. rewrite !braces_cons in Hbc.
    change (braces 123%N []) with 0 in Hbc.
    change (braces 125%N []) with 0 in Hbc.
    apply inner_end; [exact Hc|lia|].
    apply opening_found in Hfo. destruct Hfo as [Hfo|Hfo]; [exact Hfo|].
    change (braces 123%N []) with 0 in Hfo. lia.
  - inversion Hq as [|? ? Hq1 Hq2]; subst.
    change ((current :: blk) ++ cl :: rest)
      with (current :: (blk ++ cl :: rest)).
    rewrite (inner_step _ _ _ _ _ Hq1).
    change ((current :: blk) ++ [cl]) with (current :: (blk ++ [cl])) in *.
    rewrite !braces_cons in Hbc.
    rewrite (IH _ _ _ cl rest Hq2 Hc);
      [now rewrite <- app_assoc|lia|now apply opening_found].
Qed.

Lemma lines_without (p : str) (ls : list str) :
  forallb (fun l => negb (contains p l)) ls = true ->
  Forall (fun l => contains p l = false) ls.
Proof.
  intros H. apply Forall_forall. intros l Hin.
  rewrite forallb_forall in H. apply negb_true_iff. now apply H.
Qed.

(** X13: fix_resource_form_tests on a block that closes.  Behind lines
    without the trigger, a line with
    [global.fetch = vi.fn().mockImplementation] followed by a line with
    [wrapFetchMock(vi);] is rewritten to [const mockFetch = ...], the
    [wrapFetchMock(vi);] line is dropped, and when the braces of the lines
    behind it balance at the first line with [as typeof global.fetch],
    these lines are kept, [wrapFetchMock(mockFetch);] with the indentation
    of that line and an empty line are added, and the loop goes on with the
    rest. *)
Theorem X13_closed_block_gets_wrap (pre blk rest : list str)
        (line next cl : str) :
  forallb (fun l =>
             negb (contains (lit "global.fetch = vi.fn().mockImplementation")
                            l)) pre = true ->
  contains (lit "global.fetch = vi.fn().mockImplementation") line = true ->
  contains (lit "wrapFetchMock(vi);") next = true ->
  forallb (fun l => negb (contains (lit "as typeof global.fetch") l)) blk
  = true ->
  contains (lit "as typeof global.fetch") cl = true ->
  1 <= braces 123%N (blk ++ [cl]) ->
  braces 123%N (blk ++ [cl]) = braces 125%N (blk ++ [cl]) ->
  ResourceFormTests.outer (pre ++ line :: next :: blk ++ cl :: rest)
  = pre ++ replace (lit "global.fetch = vi.fn()")
                   (lit "const mockFetch = vi.fn()") line
        :: blk ++ cl
        :: (ResourceFormTests.spaces (length cl - length (lstrip cl))
              ++ lit "wrapFetchMock(mockFetch);")
        :: [] :: ResourceFormTests.outer rest.
Proof.
  intros Hpre H1 H2 Hq Hc Ho Hb.
  apply lines_without in Hpre. apply lines_without in Hq.
  rewrite (outer_quiet_app _ _ Hpre). f_equal.
  rewrite (outer_inner _ _ _ H1 H2). f_equal.
  rewrite (inner_closes blk 0%Z false [] cl rest Hq Hc);
    [reflexivity|lia|now right].
Qed.

Lemma X13_witness :
  ResourceFormTests.outer
    ([lit "beforeEach(() => {"]
       ++ lit "  global.fetch = vi.fn().mockImplementation(() =>"
       :: lit "  wrapFetchMock(vi);"
       :: [lit "  {"; lit "    return Promise.resolve(response);"]
       ++ lit "  }) as typeof global.fetch;" :: [lit "});"])
  = [lit "beforeEach(() => {"]
      ++ replace (lit "global.fetch = vi.fn()")
                 (lit "const mockFetch = vi.fn()")
                 (lit "  global.fetch = vi.fn().mockImplementation(() =>")
      :: [lit "  {"; lit "    return Promise.resolve(response);"]
      ++ lit "  }) as typeof global.fetch;"
      :: (ResourceFormTests.spaces
            (length (lit "  }) as typeof global.fetch;")
             - length (lstrip (lit "  }) as typeof global.fetch;")))
            ++ lit "wrapFetchMock(mockFetch);")
      :: [] :: ResourceFormTests.outer [lit "});"].
Proof.
  apply (X13_closed_block_gets_wrap
           [lit "beforeEach(() => {"]
           [lit "  {"; lit "    return Promise.resolve(response);"]
           [lit "});"]
           (lit "  global.fetch = vi.fn().mockImplementation(() =>")
           (lit "  wrapFetchMock(vi);")
           (lit "  }) as typeof global.fetch;"));
    vm_compute; reflexivity.
Defined.

(** ** fix_mock_responses.py: which call sites are skipped *)

Lemma name_not_brace (name : str) :
  is_name name = true -> prefixb (lit "{") name = false.
Proof.
  unfold is_name. destruct name as [|c r]; [discriminate|].
  intros H. apply andb_true_iff in H. destruct H as [H _].
  change (prefixb (lit "{") (c :: r)) with (N.eqb 123 c && prefixb [] r).
  destruct (N.eqb 123 c) eqn:E; [|reflexivity].
  apply N.eqb_eq in E. subst c. discriminate.
Qed.

(** X14: the captured name of a call site is an identifier, so the test
    [array_name.startswith('{')] of [replace_simple] and [replace_promise]
    never holds: a matched call site is returned as it is exactly when its
    argument is [null] or [undefined], and gets the paginated object in
    every other case. *)
Theorem X14_only_null_undefined_skipped (h s : str) (n : nat) (rep : str) :
  call_matcher h s = Some (n, rep) ->
  exists name,
    is_name name = true /\
    firstn n s = h ++ name ++ lit "))" /\
    prefixb (lit "{") name = false /\
    rep = if str_eqb name (lit "null") || str_eqb name (lit "undefined")
          then h ++ name ++ lit "))"
          else h ++ paginated name ++ lit "))".
Proof.
  intros H. apply call_matcher_inv in H. destruct H as (name & H & -> & ->).
  exists name. destruct (match_call_inv _ _ _ H) as (_ & _ & Hn & _).
  pose proof (name_not_brace _ Hn) as Hb.
  rewrite (match_call_firstn _ _ _ H).
  repeat split; try assumption.
  unfold replace_call, skipped. rewrite Hb, orb_false_r. reflexivity.
Qed.

Lemma X14_witness :
  exists name,
    is_name name = true /\
    firstn 58 (head1 ++ lit "mockItems));") = head1 ++ name ++ lit "))" /\
    prefixb (lit "{") name = false /\
    head1 ++ paginated (lit "mockItems") ++ lit "))"
    = if str_eqb name (lit "null") || str_eqb name (lit "undefined")
      then head1 ++ name ++ lit "))"
      else head1 ++ paginated name ++ lit "))".
Proof.
  apply (X14_only_null_undefined_skipped head1
           (head1 ++ lit "mockItems));") 58
           (head1 ++ paginated (lit "mockItems") ++ lit "))")).
  vm_compute. reflexivity.
Defined.

(** ** fix_tests.py on a file without its markers *)

Lemma replace_absent (old new s : str) :
  old <> [] -> contains old s = false -> replace old new s = s.
Proof.
  intros Ho H.
  pose proof (replace_block old new s [] Ho) as Hb.
  rewrite firstn_nil, !app_nil_r in Hb. exact (Hb H).
Qed.

Lemma contains_inside (a b c s : str) :
  contains (a ++ b ++ c) s = true -> contains b s = true.
Proof.
  rewrite !contains_spec. intros (x & y & ->).
  exists (x ++ a), (c ++ y). now rewrite <- !app_assoc.
Qed.

Lemma markers_lines (ms : list str) (s : str) :
  forallb (fun m => negb (contains m s)) ms = true ->
  Forall (fun l => forallb (fun m => negb (contains m l)) ms = true)
         (split_lines s).
Proof.
  intros H. apply Forall_forall. intros l Hin. apply forallb_forall.
  intros m Hm. rewrite forallb_forall in H. specialize (H m Hm).
  apply negb_true_iff in H. apply negb_true_iff.
  destruct (contains m l) eqn:E; [|reflexivity].
  rewrite (contains_line m s l Hin E) in H. discriminate.
Qed.

Lemma loop_quiet (lines : list str) :
  Forall (fun l => forallb (fun m => negb (contains m l)) fix_tests_markers
                   = true) lines ->
  forall st, FixTests.in_create_wrapper st = false ->
  FixTests.loop st lines = lines.
Proof.
  induction 1 as [|line rest H _ IH]; intros st Hst; [reflexivity|].
  cbn [forallb fix_tests_markers] in H.
  repeat (apply andb_true_iff in H; destruct H as [?H H]).
  repeat match goal with
         | Hm : negb _ = true |- _ => apply negb_true_iff in Hm
         end.
  assert (Hf1 : contains (lit "function createWrapper()") line = false).
  { destruct (contains (lit "function createWrapper()") line) eqn:E;
      [|reflexivity].
    apply (contains_inside (lit "function ") (lit "createWrapper()") [])
      in E. congruence. }
  assert (Hf2 : contains (lit "function createTestWrapper()") line = false).
  { destruct (contains (lit "function createTestWrapper()") line) eqn:E;
      [|reflexivity].
    apply (contains_inside (lit "function ") (lit "createTestWrapper")
                           (lit "()")) in E. congruence. }
  cbn [FixTests.loop]. cbv zeta.
  rewrite (replace_absent _ _ line) by (discriminate || assumption).
  repeat match goal with
         | Hm : contains _ line = false |- _ => rewrite Hm
         end.
  rewrite Hst, andb_false_r. cbn [andb orb].
  f_equal. now apply IH.
Qed.

(** X15: a file with none of the texts [fix_test_file] of fix_tests reacts
    to ([createTestWrapper], [from 'vitest'], [import], [createWrapper()],
    [describe(] and the indented [beforeEach] and [afterEach] openers) is
    computed as it is, yet written back and reported as fixed. *)
Theorem X15_fix_tests_without_markers (w : world) (p : string) (f : file) :
  files w p = Some f -> readable f = true -> writable f = true ->
  forallb (fun m => negb (contains m (content f))) fix_tests_markers = true ->
  FixTests.fix_content (content f) = content f /\
  FixTests.fix_test_file p w = (written w p (content f), Ok tt).
Proof.
  intros Hf Hr Hw Hm.
  assert (Hfix : FixTests.fix_content (content f) = content f).
  { unfold FixTests.fix_content.
    rewrite (loop_quiet _ (markers_lines _ _ Hm) FixTests.initial eq_refl).
    apply join_split. }
  split; [exact Hfix|].
  rewrite (fix_tests_run w p f Hf Hr), Hw. unfold FixTests.rewrite.
  cbn [forallb fix_tests_markers] in Hm. apply andb_true_iff in Hm.
  destruct Hm as [Hg _]. apply negb_true_iff in Hg.
  now rewrite Hg, Hfix.
Qed.

Lemma X15_witness :
  FixTests.fix_content (content bare_file) = content bare_file /\
  FixTests.fix_test_file "src/pages/PluginsPage/PluginsPage.test.tsx"
                         bare_world
  = (written bare_world "src/pages/PluginsPage/PluginsPage.test.tsx"
             (content bare_file), Ok tt).
Proof.
  apply (X15_fix_tests_without_markers bare_world _ bare_file);
    vm_compute; reflexivity.
Defined.

(** ** Missing files and errors, script by script *)

(** C4, amended: in the scripts that work through a list of paths
    (fix_fetch_mocks, fix_mock_responses, fix_setup_auth_mocks, fix_tests) a
    path that does not exist is reported and skipped, no file is touched,
    and the loop goes on with the remaining paths.  The single-file scripts
    (fix_resource_form_tests, fix_resource_list_mocks,
    fix_resource_list_mocks_v2) open their target without a check: with the
    target missing, whatever their in-memory step is, the run ends with an
    uncaught [FileNotFoundError] and a non-zero status, the files and the
    console left as they were. *)
Theorem C4_missing_file_skipped (w : world) (filepath : string)
        (rest : list string) (count : nat) :
  files w filepath = None ->
  (FetchMocks.update_test_file filepath w
   = (said w [NotFound filepath], Ok false) /\
   for_each FetchMocks.update_test_file (filepath :: rest) count w
   = for_each FetchMocks.update_test_file rest count
       (said w [NotFound filepath])) /\
  (MockResponses.update_test_file filepath w
   = (said w [NotFound filepath], Ok false) /\
   for_each MockResponses.update_test_file (filepath :: rest) count w
   = for_each MockResponses.update_test_file rest count
       (said w [NotFound filepath])) /\
  (SetupAuthMocks.fix_test_file filepath w
   = (said w [NotFound filepath], Ok false) /\
   for_each SetupAuthMocks.fix_test_file (filepath :: rest) count w
   = for_each SetupAuthMocks.fix_test_file rest count
       (said w [NotFound filepath])) /\
  (FixTests.fix_test_file filepath w = (w, Raise FileNotFoundError) /\
   FixTests.batch (filepath :: rest) w
   = FixTests.batch rest
       (said w [ErrorFixing filepath FileNotFoundError;
                Traceback FileNotFoundError])) /\
  (filepath = ResourceFormTests.target ->
   (forall step, ResourceFormTests.script_with step w
                 = (w, Raise FileNotFoundError)) /\
   ResourceFormTests.script w = (w, Raise FileNotFoundError) /\
   exit_status (ResourceFormTests.script w) = 1) /\
  (filepath = ResourceListMocks.target ->
   (forall step, ResourceListMocks.script_with step w
                 = (w, Raise FileNotFoundError)) /\
   ResourceListMocks.script w = (w, Raise FileNotFoundError) /\
   exit_status (ResourceListMocks.script w) = 1) /\
  (filepath = ResourceListMocksV2.target ->
   (forall step, ResourceListMocksV2.script_with step w
                 = (w, Raise FileNotFoundError)) /\
   ResourceListMocksV2.script w = (w, Raise FileNotFoundError) /\
   exit_status (ResourceListMocksV2.script w) = 1).
Proof.
  intros Hf. pose proof (exists_none _ _ Hf) as He.
  pose proof (read_missing _ _ Hf) as Hread.
  assert (H1 : FetchMocks.update_test_file filepath w
               = (said w [NotFound filepath], Ok false)).
  { unfold FetchMocks.update_test_file, FetchMocks.update_test_file_with.
    run_ok He. cbn [negb].
    run_ok (print_said (NotFound filepath) w). reflexivity. }
  assert (H2 : MockResponses.update_test_file filepath w
               = (said w [NotFound filepath], Ok false)).
  { unfold MockResponses.update_test_file, MockResponses.update_test_file_with.
    run_ok He. cbn [negb].
    run_ok (print_said (NotFound filepath) w). reflexivity. }
  assert (H3 : SetupAuthMocks.fix_test_file filepath w
               = (said w [NotFound filepath], Ok false)).
  { unfold SetupAuthMocks.fix_test_file, SetupAuthMocks.fix_test_file_with.
    run_ok He. cbn [negb].
    run_ok (print_said (NotFound filepath) w). reflexivity. }
  assert (H4 : FixTests.fix_test_file filepath w
               = (w, Raise FileNotFoundError)).
  { unfold FixTests.fix_test_file, FixTests.fix_test_file_with.
    now rewrite (bind_raise _ _ _ _ _ Hread). }
  assert (H5 : forall step, ResourceFormTests.script_with step w
                            = (w, Raise FileNotFoundError)
               \/ filepath <> ResourceFormTests.target).
  { intros step.
    destruct (string_dec filepath ResourceFormTests.target) as [E|E];
      [left|now right].
    unfold ResourceFormTests.script_with. rewrite <- E.
    now rewrite (bind_raise _ _ _ _ _ Hread). }
  assert (H6 : forall step, ResourceListMocks.script_with step w
                            = (w, Raise FileNotFoundError)
               \/ filepath <> ResourceListMocks.target).
  { intros step.
    destruct (string_dec filepath ResourceListMocks.target) as [E|E];
      [left|now right].
    unfold ResourceListMocks.script_with. rewrite <- E.
    now rewrite (bind_raise _ _ _ _ _ Hread). }
  assert (H7 : forall step, ResourceListMocksV2.script_with step w
                            = (w, Raise FileNotFoundError)
               \/ filepath <> ResourceListMocksV2.target).
  { intros step.
    destruct (string_dec filepath ResourceListMocksV2.target) as [E|E];
      [left|now right].
    unfold ResourceListMocksV2.script_with. rewrite <- E.
    now rewrite (bind_raise _ _ _ _ _ Hread). }
  assert (Hs : forall (run : M unit),
             run w = (w, Raise FileNotFoundError) -> exit_status (run w) = 1)
    by (intros run E; now rewrite E).
  split; [split; [exact H1|now apply (for_each_cons _ _ _ _ _ _ false)]|].
  split; [split; [exact H2|now apply (for_each_cons _ _ _ _ _ _ false)]|].
  split; [split; [exact H3|now apply (for_each_cons _ _ _ _ _ _ false)]|].
  split; [split; [exact H4|]|].
  2:{ split; [|split]; intros E.
      - assert (Ha : forall step, ResourceFormTests.script_with step w
                                  = (w, Raise FileNotFoundError))
          by (intros step; destruct (H5 step) as [Hx|Hx]; congruence).
        split; [exact Ha|]. split; [apply Ha|apply Hs, Ha].
      - assert (Ha : forall step, ResourceListMocks.script_with step w
                                  = (w, Raise FileNotFoundError))
          by (intros step; destruct (H6 step) as [Hx|Hx]; congruence).
        split; [exact Ha|]. split; [apply Ha|apply Hs, Ha].
      - assert (Ha : forall step, ResourceListMocksV2.script_with step w
                                  = (w, Raise FileNotFoundError))
          by (intros step; destruct (H7 step) as [Hx|Hx]; congruence).
        split; [exact Ha|]. split; [apply Ha|apply Hs, Ha]. }
  unfold FixTests.batch. simpl FixTests.batch_with.
  unfold bind at 1, try_except.
  change (FixTests.fix_test_file_with (fun c => Ok (FixTests.rewrite c)))
    with FixTests.fix_test_file.
  rewrite H4. unfold bind, print, said. simpl. rewrite <- app_assoc.
  reflexivity.
Qed.

Lemma C4_witness :
  FetchMocks.update_test_file "gone.test.tsx" empty_world
  = (said empty_world [NotFound "gone.test.tsx"%string], Ok false) /\
  for_each FetchMocks.update_test_file ["gone.test.tsx"%string] 0 empty_world
  = for_each FetchMocks.update_test_file [] 0
      (said empty_world [NotFound "gone.test.tsx"%string]).
Proof.
  exact (proj1 (C4_missing_file_skipped empty_world "gone.test.tsx" [] 0
                  eq_refl)).
Defined.

Lemma batch_caught (fix_one : string -> M unit) (p : string)
      (rest : list string) (w w1 : world) (e : exn) :
  fix_one p w = (w1, Raise e) ->
  FixTests.batch_with fix_one (p :: rest) w
  = FixTests.batch_with fix_one rest
      (said w1 [ErrorFixing p e; Traceback e]).
Proof.
  intros H. simpl. unfold bind at 1, try_except. rewrite H.
  unfold bind, print, said. simpl. now rewrite <- app_assoc.
Qed.

Lemma lift_raise {A} (r : result A) (e : exn) (w : world) :
  r = Raise e -> lift r w = (w, Raise e).
Proof. now intros ->. Qed.

Lemma lift_ok {A} (r : result A) (a : A) (w : world) :
  r = Ok a -> lift r w = (w, Ok a).
Proof. now intros ->. Qed.

Lemma fix_tests_errors (step : str -> result (option str)) (p : string)
      (w : world) :
  (files w p = None ->
   FixTests.fix_test_file_with step p w = (w, Raise FileNotFoundError)) /\
  (forall f, files w p = Some f -> readable f = false ->
             FixTests.fix_test_file_with step p w
             = (w, Raise PermissionError)) /\
  (forall f e, files w p = Some f -> readable f = true ->
               step (content f) = Raise e ->
               FixTests.fix_test_file_with step p w = (w, Raise e)) /\
  (forall f t, files w p = Some f -> readable f = true ->
               step (content f) = Ok (Some t) -> writable f = false ->
               FixTests.fix_test_file_with step p w
               = (w, Raise PermissionError)).
Proof.
  unfold FixTests.fix_test_file_with. repeat split.
  - intros Hf. now rewrite (bind_raise _ _ _ _ _ (read_missing _ _ Hf)).
  - intros f Hf Hr.
    now rewrite (bind_raise _ _ _ _ _ (read_denied _ _ _ Hf Hr)).
  - intros f e Hf Hr Hs. run_ok (read_ok _ _ _ Hf Hr).
    now rewrite (bind_raise _ _ _ _ _ (lift_raise _ _ _ Hs)).
  - intros f t Hf Hr Hs Hw. run_ok (read_ok _ _ _ Hf Hr).
    run_ok (lift_ok _ _ w Hs).
    now rewrite (bind_raise _ _ _ _ _ (write_denied _ _ _ _ Hf Hw)).
Qed.

Lemma for_each_raise (f : string -> M bool) (done : list string) :
  forall (p : string) (rest : list string) (c0 c : nat) (w0 w1 w2 : world)
         (e : exn),
  for_each f done c0 w0 = (w1, Ok c) ->
  f p w1 = (w2, Raise e) ->
  for_each f (done ++ p :: rest) c0 w0 = (w2, Raise e).
Proof.
  induction done as [|q done IH]; intros p rest c0 c w0 w1 w2 e Hd Hp.
  - injection Hd as <- _. simpl. now rewrite (bind_raise _ _ _ _ _ Hp).
  - simpl in *. unfold bind at 1 in Hd. unfold bind at 1.
    destruct (f q w0) as [wq [b|x]]; [|discriminate Hd].
    now apply (IH p rest _ c wq w1).
Qed.

Lemma main_propagates (f : string -> M bool) :
  propagates f (fun paths => print Banner ;;
                             n <- for_each f paths 0 ;;
                             print (Summary n)).
Proof.
  intros done p rest w w1 c w2 e Hd Hp.
  assert (E : (print Banner ;; n <- for_each f (done ++ p :: rest) 0 ;;
               print (Summary n)) w = (w2, Raise e)).
  { run_ok (print_said Banner w).
    now rewrite (bind_raise _ _ _ _ _
                   (for_each_raise f done p rest 0 c _ w1 w2 e Hd Hp)). }
  split; [exact E|]. now rewrite E.
Qed.

Lemma single_file_script (target : string) :
  single_file_fatal
    (fun step => content <- read_file target ;;
                 fixed <- lift (step content) ;;
                 write_file target fixed ;;
                 print Finished)
    target.
Proof.
  intros step w. repeat split.
  - intros Hf. now rewrite (bind_raise _ _ _ _ _ (read_missing _ _ Hf)).
  - intros f Hf Hr.
    now rewrite (bind_raise _ _ _ _ _ (read_denied _ _ _ Hf Hr)).
  - intros f e Hf Hr Hs. run_ok (read_ok _ _ _ Hf Hr).
    now rewrite (bind_raise _ _ _ _ _ (lift_raise _ _ _ Hs)).
  - intros f t Hf Hr Hs Hw. run_ok (read_ok _ _ _ Hf Hr).
    run_ok (lift_ok _ _ w Hs).
    now rewrite (bind_raise _ _ _ _ _ (write_denied _ _ _ _ Hf Hw)).
Qed.

(** C8, amended: in fix_tests every error of one file (a missing,
    unreadable or unwritable file, an error of the in-memory step, or
    whatever else the per-file function raises) is caught inside the loop
    and reported with the path and a traceback, the loop goes on with the
    next path, and the run ends with status 0.  The other scripts have no
    handler.  In fix_fetch_mocks, fix_mock_responses and
    fix_setup_auth_mocks an error of a listed file, such as a file that
    cannot be read, ends [main] at that file with the error and a non-zero
    status, the paths behind it not looked at; the three single-file
    scripts end with the error on a target that is missing, cannot be read
    or cannot be written, and on an error of the in-memory step. *)
Theorem C8_fix_tests_errors_local :
  (forall fix_one p rest w w1 e,
     fix_one p w = (w1, Raise e) ->
     FixTests.batch_with fix_one (p :: rest) w
     = FixTests.batch_with fix_one rest
         (said w1 [ErrorFixing p e; Traceback e])) /\
  (forall step p w,
     (files w p = None ->
      FixTests.fix_test_file_with step p w = (w, Raise FileNotFoundError)) /\
     (forall f, files w p = Some f -> readable f = false ->
                FixTests.fix_test_file_with step p w
                = (w, Raise PermissionError)) /\
     (forall f e, files w p = Some f -> readable f = true ->
                  step (content f) = Raise e ->
                  FixTests.fix_test_file_with step p w = (w, Raise e)) /\
     (forall f t, files w p = Some f -> readable f = true ->
                  step (content f) = Ok (Some t) -> writable f = false ->
                  FixTests.fix_test_file_with step p w
                  = (w, Raise PermissionError))) /\
  (forall fix_one paths, never_fails (FixTests.batch_with fix_one paths)) /\
  never_fails FixTests.script /\
  propagates FetchMocks.update_test_file FetchMocks.main_on /\
  propagates MockResponses.update_test_file MockResponses.main_on /\
  propagates SetupAuthMocks.fix_test_file SetupAuthMocks.main_on /\
  (forall p w f,
     files w p = Some f -> readable f = false ->
     FetchMocks.update_test_file p w = (w, Raise PermissionError) /\
     MockResponses.update_test_file p w = (w, Raise PermissionError) /\
     SetupAuthMocks.fix_test_file p w = (w, Raise PermissionError)) /\
  single_file_fatal ResourceFormTests.script_with ResourceFormTests.target /\
  single_file_fatal ResourceListMocks.script_with ResourceListMocks.target /\
  single_file_fatal ResourceListMocksV2.script_with
                    ResourceListMocksV2.target.
Proof.
  assert (H : forall fix_one paths,
             never_fails (FixTests.batch_with fix_one paths)).
  { intros fix_one paths w. destruct (batch_with_ok fix_one paths w) as [w' E].
    now rewrite E. }
  split; [exact batch_caught|]. split; [exact fix_tests_errors|].
  split; [exact H|]. split; [apply H|].
  split; [exact (main_propagates FetchMocks.update_test_file)|].
  split; [exact (main_propagates MockResponses.update_test_file)|].
  split; [exact (main_propagates SetupAuthMocks.fix_test_file)|].
  split.
  { intros p w f Hf Hr. split; [now apply (fetch_unreadable w p f)|].
    split; [now apply (mock_unreadable w p f)|].
    now apply (setup_unreadable w p f). }
  split; [exact (single_file_script ResourceFormTests.target)|].
  split; [exact (single_file_script ResourceListMocks.target)|].
  exact (single_file_script ResourceListMocksV2.target).
Qed.

Lemma C8_witness :
  FixTests.batch_with FixTests.fix_test_file
    ["gone.test.tsx"%string; "a.test.tsx"%string] guarded_world
  = FixTests.batch_with FixTests.fix_test_file ["a.test.tsx"%string]
      (said guarded_world
            [ErrorFixing "gone.test.tsx" FileNotFoundError;
             Traceback FileNotFoundError]).
Proof.
  apply (proj1 C8_fix_tests_errors_local FixTests.fix_test_file
               "gone.test.tsx"%string ["a.test.tsx"%string] guarded_world
               guarded_world FileNotFoundError).
  vm_compute. reflexivity.
Defined.

(** ** fix_fetch_mocks.py: a reset call in the whole rewrite *)

Section Local.

Variable m : matcher.
Hypothesis m_pos : positive m.
Hypothesis m_bounded : bounded m.



End Local.






















